(** * Sudoku (src/App.vue): generation engine and session logic

    A shallow embedding of the script part of [App.vue]: the grid
    validator [isValid], the backtracking filler [fillGrid], the carver
    [removeNumbers], the fingerprint [hashPuzzle], the generator
    [generateSudoku] with [initBoard] and [startGame], and the session
    handlers [updateCell], [checkVictory], [useHint], [askGiveUp],
    [confirmGiveUp], [loadHistory] and [saveHistory].  The first part of
    the file is the program, the second the vocabulary of the properties
    and some sample data, the third the properties and their proofs.

    Conventions.
    - A grid is a [number[][]]: a list of rows of integers.  A read
      [grid[r]?.[c]] is a lookup that yields [None] for [undefined].
    - Loop indices are naturals, cell values are integers.
    - [Math.random] is an oracle.  Each use in the source is one draw:
      [shuffle k] is the array produced by the k-th
      [[1..9].sort(() => Math.random() - 0.5)], [rand9 k] the k-th
      [Math.floor(Math.random() * 9)].  The draw counter is threaded
      through the functions that consume draws.  Nothing is assumed of
      the oracles in the program itself; a property that needs it says
      that a shuffle is a rearrangement of 1..9 (what sorting an array
      gives, whatever the comparator answers) and that a draw of
      [rand9] is below 9.
    - Reads of the clock and calls of [JSON.parse] and [JSON.stringify]
      are parameters of the handlers that make them. *)

From Stdlib Require Import ZArith List Lia Bool Arith ZifyNat Ascii.
From stdpp Require Import base tactics option list strings pretty.

Import ListNotations.

(** * The program *)

(** ** Grids *)

Abbreviation Grid := (list (list Z)).

(** [grid[r]?.[c]], for a grid of numbers and for the board of cells. *)
Definition get {A} (grid : list (list A)) (r c : nat) : option A :=
  match grid !! r with
  | Some row => row !! c
  | None => None
  end.

(** [grid[r]?.[c] === num]: [undefined] is never equal to a number. *)
Definition cellIs (grid : Grid) (r c : nat) (num : Z) : bool :=
  match get grid r c with
  | Some v => (v =? num)%Z
  | None => false
  end.

(** [grid[r]![c] = v] on a cell that exists.  Every such write of the
    source to a grid of the filler or to the board follows a read that
    found the cell, so the row and the column are in range; outside the
    grid the model leaves the grid as it is.  (The carver, whose write is
    not guarded that way, has its own case for a missing cell.) *)
Definition setCell {A} (grid : list (list A)) (r c : nat) (v : A)
    : list (list A) :=
  alter (fun row => <[c := v]> row) r grid.

(** ** The validator *)

Definition isValid (grid : Grid) (row col : nat) (num : Z) : bool :=
  if existsb (fun x => cellIs grid row x num) (seq 0 9) then false
  else if existsb (fun x => cellIs grid x col num) (seq 0 9) then false
  else
    let startRow := row - row mod 3 in
    let startCol := col - col mod 3 in
    if existsb (fun i =>
         existsb (fun j => cellIs grid (i + startRow) (j + startCol) num)
                 (seq 0 3)) (seq 0 3)
    then false
    else true.

(** ** The filler *)

(** The cells of the 9x9 window in the order of the two nested loops. *)
Definition allCells : list (nat * nat) :=
  flat_map (fun row => map (fun col => (row, col)) (seq 0 9)) (seq 0 9).

(** The first cell, in row-major order, with [grid[row]?.[col] === 0]. *)
Definition findEmpty (grid : Grid) : option (nat * nat) :=
  find (fun p => cellIs grid (fst p) (snd p) 0) allCells.

(** What a call of [fillGrid] leaves behind: the returned boolean, the
    grid after the in-place writes, and the draw counter. *)
Definition FillResult : Type := bool * Grid * nat.

(** [for (const num of numbers) { ... } return false] at cell
    [(row, col)]; [rec] is the recursive call [fillGrid(grid)]. *)
Fixpoint tryNumbers (rec : Grid -> nat -> option FillResult)
    (row col : nat) (numbers : list Z) (grid : Grid) (k : nat)
    : option FillResult :=
  match numbers with
  | [] => Some (false, grid, k)
  | num :: rest =>
      if isValid grid row col num then
        match rec (setCell grid row col num) k with
        | Some (true, grid', k') => Some (true, grid', k')
        | Some (false, grid', k') =>
            tryNumbers rec row col rest (setCell grid' row col 0%Z) k'
        | None => None
        end
      else tryNumbers rec row col rest grid k
  end.

Section Filler.

(** [shuffle k]: the result of the k-th shuffled [[1..9]]. *)
Variable shuffle : nat -> list Z.

(** [fuel] bounds the depth of the recursion; [None] means the bound
    was reached. *)
Fixpoint fillGrid (fuel : nat) (grid : Grid) (k : nat)
    : option FillResult :=
  match findEmpty grid with
  | None => Some (true, grid, k)
  | Some (row, col) =>
      match fuel with
      | 0 => None
      | S fuel' =>
          tryNumbers (fillGrid fuel') row col (shuffle k) grid (S k)
      end
  end.

End Filler.

(** [Array(9).fill(0).map(() => Array(9).fill(0))] *)
Definition emptyGrid : Grid := replicate 9 (replicate 9 0%Z).

(** The array [[1, 2, 3, 4, 5, 6, 7, 8, 9]] that [fillGrid] shuffles. *)
Definition digits : list Z := [1; 2; 3; 4; 5; 6; 7; 8; 9]%Z.

(** ** The carver *)

(** How a run of [removeNumbers] ends: the loop exits with the carved
    grid; or the bound on the number of iterations is reached; or a draw
    falls on a cell the grid does not have.  In the last case
    [grid[row]?.[col] !== 0] holds for the [undefined] read and the write
    that follows throws (no such row) or grows the row; a 9x9 grid with
    draws below 9 never gets there, and the model stops. *)
Inductive CarveResult : Type :=
| Carved (grid : Grid) (k : nat)
| OutOfFuel
| OutsideGrid.

(** [while (removed < count) { ... }]; [rand9 k] and [rand9 (S k)] are
    the two draws of the iteration, [fuel] bounds the iterations. *)
Fixpoint removeLoop (rand9 : nat -> nat) (fuel : nat) (grid : Grid)
    (count removed k : nat) : CarveResult :=
  if removed <? count then
    match fuel with
    | 0 => OutOfFuel
    | S fuel' =>
        let row := rand9 k in
        let col := rand9 (S k) in
        match get grid row col with
        | Some v =>
            if (v =? 0)%Z
            then removeLoop rand9 fuel' grid count removed (S (S k))
            else removeLoop rand9 fuel' (setCell grid row col 0%Z) count
                            (S removed) (S (S k))
        | None => OutsideGrid
        end
    end
  else Carved grid k.

Definition removeNumbers (rand9 : nat -> nat) (fuel : nat) (grid : Grid)
    (count k : nat) : CarveResult :=
  removeLoop rand9 fuel grid count 0 k.

(** ** The fingerprint *)

(** [Number.prototype.toString] on the integers a grid holds is their
    decimal notation: stdpp's [pretty] on [Z].  That is what the program
    prints for an integer of magnitude below [10^21]; from there on it
    prints an exponent, so the properties bound the numbers they print. *)
Definition numberToString (v : Z) : string := pretty v.

(** [Array.prototype.join(sep)] on an array of strings. *)
Definition join (sep : string) (parts : list string) : string :=
  String.concat sep parts.

(** [puzzle.map(row => row.join(e)).join(e)], [e] the empty string. *)
Definition hashPuzzle (puzzle : Grid) : string :=
  join EmptyString
    (map (fun row => join EmptyString (map numberToString row)) puzzle).

(** ** The session *)

Record Cell : Type := { value : Z; isFixed : bool }.

Inductive Difficulty : Type := tutorial | facil | medio | dificil | expert.

Record HistoryEntry : Type := {
  id : string;
  difficulty : Difficulty;
  time : Z;
  hintsUsed : Z;
  date : string;
  puzzleHash : string
}.

Definition difficultySettings (d : Difficulty) : nat :=
  match d with
  | tutorial => 10
  | facil => 30
  | medio => 40
  | dificil => 50
  | expert => 64
  end.

Definition hintsSettings (d : Difficulty) : Z :=
  match d with
  | tutorial => 7
  | facil => 5
  | medio => 3
  | dificil => 1
  | expert => 0
  end.

(** The refs of the component, the module variable [timerInterval], and
    the two pieces of the browser the handlers act on: the interval
    timers that are set and not yet cleared ([activeTimers], with
    [nextTimer] the handle the next [setInterval] returns) and the item
    [sudoku-history] of [localStorage] ([storage], [None] when absent). *)
Record State : Type := {
  board : list (list Cell);
  solution : Grid;
  showModal : bool;
  showGiveUpModal : bool;
  showVictoryModal : bool;
  showHistoryModal : bool;
  hasGivenUp : bool;
  selectedDifficulty : Difficulty;
  gameStarted : bool;
  isPaused : bool;
  elapsedTime : Z;
  hintsRemaining : Z;
  gameHistory : list HistoryEntry;
  currentPuzzleHash : string;
  timerInterval : option positive;
  activeTimers : list positive;
  nextTimer : positive;
  storage : option string
}.

(** The state when the component is created. *)
Definition initialState (stored : option string) : State :=
  {| board := []; solution := [];
     showModal := true; showGiveUpModal := false;
     showVictoryModal := false; showHistoryModal := false;
     hasGivenUp := false; selectedDifficulty := medio;
     gameStarted := false; isPaused := false;
     elapsedTime := 0; hintsRemaining := 0;
     gameHistory := []; currentPuzzleHash := EmptyString;
     timerInterval := None;
     activeTimers := []; nextTimer := 1%positive;
     storage := stored |}.

(** Field updates. *)

Definition set_board (b : list (list Cell)) (st : State) : State :=
  {| board := b; solution := solution st;
     showModal := showModal st; showGiveUpModal := showGiveUpModal st;
     showVictoryModal := showVictoryModal st;
     showHistoryModal := showHistoryModal st;
     hasGivenUp := hasGivenUp st; selectedDifficulty := selectedDifficulty st;
     gameStarted := gameStarted st; isPaused := isPaused st;
     elapsedTime := elapsedTime st; hintsRemaining := hintsRemaining st;
     gameHistory := gameHistory st; currentPuzzleHash := currentPuzzleHash st;
     timerInterval := timerInterval st;
     activeTimers := activeTimers st; nextTimer := nextTimer st;
     storage := storage st |}.

Definition set_showGiveUpModal (b : bool) (st : State) : State :=
  {| board := board st; solution := solution st;
     showModal := showModal st; showGiveUpModal := b;
     showVictoryModal := showVictoryModal st;
     showHistoryModal := showHistoryModal st;
     hasGivenUp := hasGivenUp st; selectedDifficulty := selectedDifficulty st;
     gameStarted := gameStarted st; isPaused := isPaused st;
     elapsedTime := elapsedTime st; hintsRemaining := hintsRemaining st;
     gameHistory := gameHistory st; currentPuzzleHash := currentPuzzleHash st;
     timerInterval := timerInterval st;
     activeTimers := activeTimers st; nextTimer := nextTimer st;
     storage := storage st |}.

Definition set_showVictoryModal (b : bool) (st : State) : State :=
  {| board := board st; solution := solution st;
     showModal := showModal st; showGiveUpModal := showGiveUpModal st;
     showVictoryModal := b;
     showHistoryModal := showHistoryModal st;
     hasGivenUp := hasGivenUp st; selectedDifficulty := selectedDifficulty st;
     gameStarted := gameStarted st; isPaused := isPaused st;
     elapsedTime := elapsedTime st; hintsRemaining := hintsRemaining st;
     gameHistory := gameHistory st; currentPuzzleHash := currentPuzzleHash st;
     timerInterval := timerInterval st;
     activeTimers := activeTimers st; nextTimer := nextTimer st;
     storage := storage st |}.

Definition set_hasGivenUp (b : bool) (st : State) : State :=
  {| board := board st; solution := solution st;
     showModal := showModal st; showGiveUpModal := showGiveUpModal st;
     showVictoryModal := showVictoryModal st;
     showHistoryModal := showHistoryModal st;
     hasGivenUp := b; selectedDifficulty := selectedDifficulty st;
     gameStarted := gameStarted st; isPaused := isPaused st;
     elapsedTime := elapsedTime st; hintsRemaining := hintsRemaining st;
     gameHistory := gameHistory st; currentPuzzleHash := currentPuzzleHash st;
     timerInterval := timerInterval st;
     activeTimers := activeTimers st; nextTimer := nextTimer st;
     storage := storage st |}.

Definition set_elapsedTime (t : Z) (st : State) : State :=
  {| board := board st; solution := solution st;
     showModal := showModal st; showGiveUpModal := showGiveUpModal st;
     showVictoryModal := showVictoryModal st;
     showHistoryModal := showHistoryModal st;
     hasGivenUp := hasGivenUp st; selectedDifficulty := selectedDifficulty st;
     gameStarted := gameStarted st; isPaused := isPaused st;
     elapsedTime := t; hintsRemaining := hintsRemaining st;
     gameHistory := gameHistory st; currentPuzzleHash := currentPuzzleHash st;
     timerInterval := timerInterval st;
     activeTimers := activeTimers st; nextTimer := nextTimer st;
     storage := storage st |}.

Definition set_hintsRemaining (h : Z) (st : State) : State :=
  {| board := board st; solution := solution st;
     showModal := showModal st; showGiveUpModal := showGiveUpModal st;
     showVictoryModal := showVictoryModal st;
     showHistoryModal := showHistoryModal st;
     hasGivenUp := hasGivenUp st; selectedDifficulty := selectedDifficulty st;
     gameStarted := gameStarted st; isPaused := isPaused st;
     elapsedTime := elapsedTime st; hintsRemaining := h;
     gameHistory := gameHistory st; currentPuzzleHash := currentPuzzleHash st;
     timerInterval := timerInterval st;
     activeTimers := activeTimers st; nextTimer := nextTimer st;
     storage := storage st |}.

Definition set_gameHistory (h : list HistoryEntry) (st : State) : State :=
  {| board := board st; solution := solution st;
     showModal := showModal st; showGiveUpModal := showGiveUpModal st;
     showVictoryModal := showVictoryModal st;
     showHistoryModal := showHistoryModal st;
     hasGivenUp := hasGivenUp st; selectedDifficulty := selectedDifficulty st;
     gameStarted := gameStarted st; isPaused := isPaused st;
     elapsedTime := elapsedTime st; hintsRemaining := hintsRemaining st;
     gameHistory := h; currentPuzzleHash := currentPuzzleHash st;
     timerInterval := timerInterval st;
     activeTimers := activeTimers st; nextTimer := nextTimer st;
     storage := storage st |}.

Definition set_storage (s : option string) (st : State) : State :=
  {| board := board st; solution := solution st;
     showModal := showModal st; showGiveUpModal := showGiveUpModal st;
     showVictoryModal := showVictoryModal st;
     showHistoryModal := showHistoryModal st;
     hasGivenUp := hasGivenUp st; selectedDifficulty := selectedDifficulty st;
     gameStarted := gameStarted st; isPaused := isPaused st;
     elapsedTime := elapsedTime st; hintsRemaining := hintsRemaining st;
     gameHistory := gameHistory st; currentPuzzleHash := currentPuzzleHash st;
     timerInterval := timerInterval st;
     activeTimers := activeTimers st; nextTimer := nextTimer st;
     storage := s |}.

(** Both sides of the timer at once: the variable and the browser's set
    of running intervals. *)
Definition set_timer (handle : option positive) (active : list positive)
    (st : State) : State :=
  {| board := board st; solution := solution st;
     showModal := showModal st; showGiveUpModal := showGiveUpModal st;
     showVictoryModal := showVictoryModal st;
     showHistoryModal := showHistoryModal st;
     hasGivenUp := hasGivenUp st; selectedDifficulty := selectedDifficulty st;
     gameStarted := gameStarted st; isPaused := isPaused st;
     elapsedTime := elapsedTime st; hintsRemaining := hintsRemaining st;
     gameHistory := gameHistory st; currentPuzzleHash := currentPuzzleHash st;
     timerInterval := handle;
     activeTimers := active; nextTimer := nextTimer st;
     storage := storage st |}.

(** *** The timer *)

(** [if (timerInterval) { clearInterval(timerInterval); timerInterval =
    null; }]: a handle is a positive integer, hence truthy. *)
Definition clearTimer (st : State) : State :=
  match timerInterval st with
  | Some t =>
      set_timer None (List.filter (fun t' => negb (Pos.eqb t' t))
                                  (activeTimers st)) st
  | None => st
  end.

(** One second passes: every running interval runs its callback
    [elapsedTime.value++]. *)
Definition tick (st : State) : State :=
  fold_right (fun _ st' => set_elapsedTime (elapsedTime st' + 1) st') st
             (activeTimers st).

(** *** History, victory and cell edits *)

Inductive Error : Type := SyntaxError.

(** How a handler completes: normally, or by an exception that reaches
    its caller. *)
Inductive Outcome : Type :=
| Normal (st : State)
| Thrown (e : Error) (st : State).

Section History.

(** [JSON.parse] read at the type of the history: [None] when it throws
    a [SyntaxError].  [JSON.stringify] on a history. *)
Variable JSON_parse : string -> option (list HistoryEntry).
Variable JSON_stringify : list HistoryEntry -> string.

(** [if (stored)]: [null] and the empty string are falsy. *)
Definition loadHistory (st : State) : Outcome :=
  match storage st with
  | Some (String a rest) =>
      match JSON_parse (String a rest) with
      | Some history => Normal (set_gameHistory history st)
      | None => Thrown SyntaxError st
      end
  | Some EmptyString => Normal st
  | None => Normal st
  end.

Definition saveHistory (entry : HistoryEntry) (st : State) : State :=
  let unshifted := entry :: gameHistory st in
  let history :=
    if 50 <? length unshifted then take 50 unshifted else unshifted in
  set_storage (Some (JSON_stringify history)) (set_gameHistory history st).

(** *** Victory *)

(** [board.value[row]?.[col]?.value] *)
Definition boardValue (st : State) (row col : nat) : option Z :=
  value <$> get (board st) row col.

(** The entry [checkVictory] builds; [now] is [Date.now()] and [today]
    the string [new Date().toLocaleString("pt-BR")] at that moment. *)
Definition victoryEntry (now : Z) (today : string) (st : State)
    : HistoryEntry :=
  {| id := numberToString now;
     difficulty := selectedDifficulty st;
     time := elapsedTime st;
     hintsUsed := hintsSettings (selectedDifficulty st) - hintsRemaining st;
     date := today;
     puzzleHash := currentPuzzleHash st |}.

Definition checkVictory (now : Z) (today : string) (st : State) : State :=
  if existsb (fun p =>
       match boardValue st (fst p) (snd p) with
       | Some v => (v =? 0)%Z
       | None => false
       end) allCells
  then st
  else if existsb (fun p =>
       negb (bool_decide (boardValue st (fst p) (snd p) =
                          get (solution st) (fst p) (snd p)))) allCells
  then st
  else
    saveHistory (victoryEntry now today st)
      (clearTimer (set_showVictoryModal true st)).

(** *** Editing a cell *)

(** [parseInt(target.value) || 0]; [parsed] is what [parseInt] returns,
    [None] for [NaN]. *)
Definition editValue (parsed : option Z) : Z :=
  match parsed with
  | Some v => v
  | None => 0
  end.

Definition updateCell (now : Z) (today : string) (row col : nat)
    (parsed : option Z) (st : State) : State :=
  let v := editValue parsed in
  match get (board st) row col with
  | Some cell =>
      if negb (isFixed cell) && (0 <=? v)%Z && (v <=? 9)%Z then
        checkVictory now today
          (set_board (setCell (board st) row col
                        {| value := v; isFixed := isFixed cell |}) st)
      else st
  | None => st
  end.

End History.

(** *** Hints *)

(** [cell && !cell.isFixed && cell.value === 0] *)
Definition isEmptyCell (st : State) (p : nat * nat) : bool :=
  match get (board st) (fst p) (snd p) with
  | Some cell => negb (isFixed cell) && (value cell =? 0)%Z
  | None => false
  end.

(** The array [emptyCells] after the two loops. *)
Definition emptyCells (st : State) : list (nat * nat) :=
  List.filter (isEmptyCell st) allCells.

(** [targetCell.value = solutionValue; targetCell.isFixed = true], when
    the cell and the solution value are both there. *)
Definition reveal (st : State) (p : nat * nat) : State :=
  match get (board st) (fst p) (snd p), get (solution st) (fst p) (snd p) with
  | Some _, Some solutionValue =>
      set_board (setCell (board st) (fst p) (snd p)
                   {| value := solutionValue; isFixed := true |}) st
  | _, _ => st
  end.

(** [randomIndex] is [Math.floor(Math.random() * emptyCells.length)]. *)
Definition useHint (randomIndex : nat) (st : State) : State :=
  if (hintsRemaining st <=? 0)%Z then st
  else
    match emptyCells st with
    | [] => st
    | _ :: _ =>
        match emptyCells st !! randomIndex with
        | None => st
        | Some emptyCell =>
            let st' := reveal st emptyCell in
            set_hintsRemaining (hintsRemaining st' - 1) st'
        end
    end.

(** *** Giving up *)

Definition askGiveUp (st : State) : State :=
  clearTimer (set_showGiveUpModal true st).

Definition confirmGiveUp (st : State) : State :=
  fold_left reveal allCells
    (set_hasGivenUp true (set_showGiveUpModal false st)).

(** *** Starting a game *)

(** The board [initBoard] builds from a puzzle. *)
Definition boardOf (puzzle : Grid) : list (list Cell) :=
  map (fun row =>
         map (fun v => {| value := v; isFixed := negb (v =? 0)%Z |}) row)
      puzzle.

Definition isPuzzleUsed (hash : string) (st : State) : bool :=
  existsb (fun entry => String.eqb (puzzleHash entry) hash) (gameHistory st).

Section Generator.

Variable shuffle : nat -> list Z.
Variable rand9 : nat -> nat.

(** [fuel] bounds the iterations of the carving loop. *)
Definition generateSudoku (fuel : nat) (difficulty : Difficulty) (k : nat)
    : option (Grid * Grid * nat) :=
  match fillGrid shuffle 81 emptyGrid k with
  | Some (_, grid, k1) =>
      let completeSolution := grid in
      match removeNumbers rand9 fuel grid (difficultySettings difficulty) k1
      with
      | Carved puzzle k2 => Some (puzzle, completeSolution, k2)
      | OutOfFuel | OutsideGrid => None
      end
  | None => None
  end.

(** The [do ... while (isPuzzleUsed(hash) && attempts < maxAttempts)] of
    [initBoard]; [remaining] is [maxAttempts - 1 - attempts]. *)
Fixpoint generateFresh (remaining fuel : nat) (difficulty : Difficulty)
    (st : State) (k : nat) : option (Grid * Grid * string * nat) :=
  match generateSudoku fuel difficulty k with
  | Some (puzzle, completeSolution, k') =>
      let hash := hashPuzzle puzzle in
      match remaining with
      | S remaining' =>
          if isPuzzleUsed hash st
          then generateFresh remaining' fuel difficulty st k'
          else Some (puzzle, completeSolution, hash, k')
      | 0 => Some (puzzle, completeSolution, hash, k')
      end
  | None => None
  end.

Definition initBoard (fuel : nat) (difficulty : Difficulty) (st : State)
    (k : nat) : option (State * nat) :=
  match generateFresh 9 fuel difficulty st k with
  | Some (puzzle, completeSolution, hash, k') =>
      Some ({| board := boardOf puzzle; solution := completeSolution;
               showModal := showModal st;
               showGiveUpModal := showGiveUpModal st;
               showVictoryModal := showVictoryModal st;
               showHistoryModal := showHistoryModal st;
               hasGivenUp := hasGivenUp st;
               selectedDifficulty := selectedDifficulty st;
               gameStarted := gameStarted st; isPaused := isPaused st;
               elapsedTime := elapsedTime st;
               hintsRemaining := hintsRemaining st;
               gameHistory := gameHistory st; currentPuzzleHash := hash;
               timerInterval := timerInterval st;
               activeTimers := activeTimers st; nextTimer := nextTimer st;
               storage := storage st |}, k')
  | None => None
  end.

(** [elapsedTime.value = 0], clear the running interval if there is one,
    and set a new one. *)
Definition startTimer (st : State) : State :=
  let st1 := clearTimer (set_elapsedTime 0 st) in
  {| board := board st1; solution := solution st1;
     showModal := showModal st1; showGiveUpModal := showGiveUpModal st1;
     showVictoryModal := showVictoryModal st1;
     showHistoryModal := showHistoryModal st1;
     hasGivenUp := hasGivenUp st1;
     selectedDifficulty := selectedDifficulty st1;
     gameStarted := gameStarted st1; isPaused := isPaused st1;
     elapsedTime := elapsedTime st1; hintsRemaining := hintsRemaining st1;
     gameHistory := gameHistory st1;
     currentPuzzleHash := currentPuzzleHash st1;
     timerInterval := Some (nextTimer st1);
     activeTimers := nextTimer st1 :: activeTimers st1;
     nextTimer := Pos.succ (nextTimer st1);
     storage := storage st1 |}.

Definition startGame (fuel : nat) (st : State) (k : nat)
    : option (State * nat) :=
  let st1 :=
    {| board := board st; solution := solution st;
       showModal := false; showGiveUpModal := showGiveUpModal st;
       showVictoryModal := showVictoryModal st;
       showHistoryModal := showHistoryModal st;
       hasGivenUp := hasGivenUp st;
       selectedDifficulty := selectedDifficulty st;
       gameStarted := true; isPaused := isPaused st;
       elapsedTime := elapsedTime st;
       hintsRemaining := hintsSettings (selectedDifficulty st);
       gameHistory := gameHistory st;
       currentPuzzleHash := currentPuzzleHash st;
       timerInterval := timerInterval st;
       activeTimers := activeTimers st; nextTimer := nextTimer st;
       storage := storage st |} in
  match initBoard fuel (selectedDifficulty st1) st1 k with
  | Some (st2, k') => Some (startTimer st2, k')
  | None => None
  end.

End Generator.

(** *** Pausing, the history modal, cancelling a give-up *)

Definition set_isPaused (b : bool) (st : State) : State :=
  {| board := board st; solution := solution st;
     showModal := showModal st; showGiveUpModal := showGiveUpModal st;
     showVictoryModal := showVictoryModal st;
     showHistoryModal := showHistoryModal st;
     hasGivenUp := hasGivenUp st; selectedDifficulty := selectedDifficulty st;
     gameStarted := gameStarted st; isPaused := b;
     elapsedTime := elapsedTime st; hintsRemaining := hintsRemaining st;
     gameHistory := gameHistory st; currentPuzzleHash := currentPuzzleHash st;
     timerInterval := timerInterval st;
     activeTimers := activeTimers st; nextTimer := nextTimer st;
     storage := storage st |}.

Definition set_showHistoryModal (b : bool) (st : State) : State :=
  {| board := board st; solution := solution st;
     showModal := showModal st; showGiveUpModal := showGiveUpModal st;
     showVictoryModal := showVictoryModal st;
     showHistoryModal := b;
     hasGivenUp := hasGivenUp st; selectedDifficulty := selectedDifficulty st;
     gameStarted := gameStarted st; isPaused := isPaused st;
     elapsedTime := elapsedTime st; hintsRemaining := hintsRemaining st;
     gameHistory := gameHistory st; currentPuzzleHash := currentPuzzleHash st;
     timerInterval := timerInterval st;
     activeTimers := activeTimers st; nextTimer := nextTimer st;
     storage := storage st |}.

(** [timerInterval = setInterval(() => { elapsedTime.value++; }, 1000)]:
    the browser starts one more interval and returns its handle; whatever
    [timerInterval] held is overwritten, not cleared. *)
Definition setTimer (st : State) : State :=
  {| board := board st; solution := solution st;
     showModal := showModal st; showGiveUpModal := showGiveUpModal st;
     showVictoryModal := showVictoryModal st;
     showHistoryModal := showHistoryModal st;
     hasGivenUp := hasGivenUp st; selectedDifficulty := selectedDifficulty st;
     gameStarted := gameStarted st; isPaused := isPaused st;
     elapsedTime := elapsedTime st; hintsRemaining := hintsRemaining st;
     gameHistory := gameHistory st; currentPuzzleHash := currentPuzzleHash st;
     timerInterval := Some (nextTimer st);
     activeTimers := nextTimer st :: activeTimers st;
     nextTimer := Pos.succ (nextTimer st);
     storage := storage st |}.

Definition toggleHistory (st : State) : State :=
  let st1 := set_showHistoryModal (negb (showHistoryModal st)) st in
  if showHistoryModal st1 && negb (isPaused st1) && gameStarted st1
  then clearTimer st1
  else if negb (showHistoryModal st1) && negb (isPaused st1) && gameStarted st1
  then setTimer st1
  else st1.

Definition togglePause (st : State) : State :=
  let st1 := set_isPaused (negb (isPaused st)) st in
  if isPaused st1 then clearTimer st1 else setTimer st1.

Definition cancelGiveUp (st : State) : State :=
  let st1 := set_showGiveUpModal false st in
  if negb (isPaused st1) then setTimer st1 else st1.

(** *** Showing a duration *)

(** [s.padStart(targetLength, pad)] for a one-character [pad]. *)
Definition padStart (targetLength : nat) (pad : Ascii.ascii) (s : string)
    : string :=
  String.string_of_list_ascii
    (replicate (targetLength - String.length s) pad) +:+ s.

(** [Math.floor(t / 60)] and [t % 60] on an integer [t] of magnitude
    below [2^53], where numbers are exact integers: the quotient rounded
    down, and the remainder with the sign of [t]. *)
Definition minutesOf (t : Z) : Z := (t / 60)%Z.

Definition secondsOf (t : Z) : Z := Z.rem t 60.

(** The computed [formattedTime]. *)
Definition formattedTime (st : State) : string :=
  padStart 2 "0"%char (numberToString (minutesOf (elapsedTime st))) +:+
  ":" +:+
  padStart 2 "0"%char (numberToString (secondsOf (elapsedTime st))).

Definition formatHistoryTime (seconds : Z) : string :=
  numberToString (minutesOf seconds) +:+ ":" +:+
  padStart 2 "0"%char (numberToString (secondsOf seconds)).

(** * Vocabulary of the properties *)

(** ** Shapes and contents of grids *)

Definition is9x9 {A} (grid : list (list A)) : Prop :=
  length grid = 9 /\ Forall (fun row => length row = 9) grid.

Definition allZero (grid : Grid) : Prop :=
  Forall (Forall (fun v => v = 0%Z)) grid.

(** A complete grid: no cell is 0. *)
Definition complete (grid : Grid) : Prop :=
  Forall (Forall (fun v => v <> 0%Z)) grid.

(** Every cell is a digit 0..9. *)
Definition digitCells (grid : Grid) : Prop :=
  Forall (Forall (fun v => (0 <= v <= 9)%Z)) grid.

(** The number of non-zero cells of a grid. *)
Definition nonZeroCount (grid : Grid) : nat :=
  length (List.filter (fun v => negb (v =? 0)%Z) (concat grid)).

(** All 81 cells exist and hold a value between [lo] and 9. *)
Definition cellsWithin (lo : Z) (grid : Grid) : Prop :=
  forall r c, r < 9 -> c < 9 ->
    exists v, get grid r c = Some v /\ (lo <= v <= 9)%Z.

(** ** Rows, columns and blocks *)

(** Two cells see each other when they share a row, a column or a block. *)
Definition peer (p q : nat * nat) : Prop :=
  fst p = fst q \/ snd p = snd q \/
  (fst p / 3 = fst q / 3 /\ snd p / 3 = snd q / 3).

Definition peerb (p q : nat * nat) : bool :=
  (fst p =? fst q) || (snd p =? snd q) ||
  ((fst p / 3 =? fst q / 3) && (snd p / 3 =? snd q / 3)).

(** No digit occurs twice in a row, a column or a block. *)
Definition noConflict (grid : Grid) : Prop :=
  forall r c r' c' v,
    r < 9 -> c < 9 -> r' < 9 -> c' < 9 ->
    (r, c) <> (r', c') -> peer (r, c) (r', c') ->
    get grid r c = Some v -> v <> 0%Z -> get grid r' c' <> Some v.

(** A complete valid grid. *)
Definition solved (grid : Grid) : Prop :=
  cellsWithin 1 grid /\ noConflict grid.

(** A decision procedure for [solved]. *)
Definition solvedb (grid : Grid) : bool :=
  forallb (fun p =>
    match get grid (fst p) (snd p) with
    | Some v => (1 <=? v)%Z && (v <=? 9)%Z
    | None => false
    end) allCells &&
  forallb (fun p => forallb (fun q =>
    bool_decide (p = q) || negb (peerb p q) ||
    negb (bool_decide (get grid (fst p) (snd p) = get grid (fst q) (snd q))))
    allCells) allCells.

(** The cells of row [r], of column [c], and of block [b]; blocks are
    numbered 0..8 from left to right and top to bottom. *)
Definition rowCells (r : nat) : list (nat * nat) :=
  map (fun c => (r, c)) (seq 0 9).

Definition colCells (c : nat) : list (nat * nat) :=
  map (fun r => (r, c)) (seq 0 9).

Definition blockCells (b : nat) : list (nat * nat) :=
  flat_map (fun i => map (fun j => (3 * (b / 3) + i, 3 * (b mod 3) + j))
                         (seq 0 3)) (seq 0 3).

(** The values a grid holds at a list of cells. *)
Definition valuesAt (grid : Grid) (cells : list (nat * nat)) : list Z :=
  omap (fun p => get grid (fst p) (snd p)) cells.

(** A unit: nine distinct cells of the window that all see each other. *)
Definition unitOk (cells : list (nat * nat)) : bool :=
  (length cells =? 9) &&
  forallb (fun p => (fst p <? 9) && (snd p <? 9)) cells &&
  bool_decide (NoDup cells) &&
  forallb (fun p => forallb (fun q => peerb p q) cells) cells.

(** ** The search *)

(** The number of cells of the window that read as 0: the measure that
    bounds the recursion of [fillGrid]. *)
Definition zeros (grid : Grid) : nat :=
  length (List.filter (fun p => cellIs grid (fst p) (snd p) 0) allCells).

(** The outcome of a call started on [grid], for an invariant [I] of the
    grids the search passes through: on [true] the grid has no empty cell
    left and satisfies [I]; on [false] the grid is the one the call was
    given. *)
Definition fillPost (I : Grid -> Prop) (grid : Grid) (res : FillResult)
    : Prop :=
  let '(b, grid', _) := res in
  if b then I grid' /\ findEmpty grid' = None else grid' = grid.

(** [grid] is a partial copy of [full]: every cell of the window either
    is still empty or holds what [full] holds there. *)
Definition partialOf (grid full : Grid) : Prop :=
  forall r c, r < 9 -> c < 9 ->
    get grid r c = Some 0%Z \/ get grid r c = get full r c.

(** The grids the search passes through when it starts from a 9x9 grid of
    digits without conflicts. *)
Definition searchInv (grid : Grid) : Prop :=
  is9x9 grid /\ cellsWithin 0 grid /\ noConflict grid.

(** The cells a call may have changed: those that were 0 on entry. *)
Definition onlyZerosChanged (grid grid' : Grid) : Prop :=
  forall r c, get grid' r c <> get grid r c ->
    get grid r c = Some 0%Z /\ r < 9 /\ c < 9.

(** ** The carving loop *)

(** The cell drawn by iteration [i] of a loop that starts at draw [k]. *)
Definition pick (rand9 : nat -> nat) (k i : nat) : nat * nat :=
  (rand9 (k + 2 * i), rand9 (k + 2 * i + 1)).

(** What a finished run has done to the grid it was given: it zeroed the
    cells of [cells], and nothing else. *)
Definition zeroedAt (cells : list (nat * nat)) (grid grid' : Grid) : Prop :=
  forall r c,
    get grid' r c = if decide ((r, c) ∈ cells) then Some 0%Z else get grid r c.

(** A puzzle and its solution as [generateSudoku] returns them. *)
Definition generated (d : Difficulty) (puzzle full : Grid) : Prop :=
  is9x9 full /\ solved full /\
  is9x9 puzzle /\ partialOf puzzle full /\
  nonZeroCount puzzle = 81 - difficultySettings d.

(** ** Sessions *)

(** The session states of the state machine, read off the flags. *)
Inductive Phase : Type := NotStarted | Playing | Paused | Won | GaveUp.

Definition phase (st : State) : Phase :=
  if negb (gameStarted st) then NotStarted
  else if showVictoryModal st then Won
  else if hasGivenUp st then GaveUp
  else if isPaused st then Paused
  else Playing.

(** All 81 cells are filled and each equals the solution at its place. *)
Definition solvedBoard (st : State) : Prop :=
  forall r c, r < 9 -> c < 9 ->
    exists cell, get (board st) r c = Some cell /\ value cell <> 0%Z /\
                 get (solution st) r c = Some (value cell).

(** Every running interval is the one [timerInterval] refers to. *)
Definition timerOwned (st : State) : Prop :=
  forall t, In t (activeTimers st) -> timerInterval st = Some t.

(** The solution has a value wherever the board has a cell. *)
Definition solutionCovers (st : State) : Prop :=
  forall r c, is_Some (get (board st) r c) -> is_Some (get (solution st) r c).

(** What [reveal] leaves at a cell. *)
Definition revealed (st : State) (r c : nat) : option Cell :=
  match get (board st) r c, get (solution st) r c with
  | Some _, Some solutionValue =>
      Some {| value := solutionValue; isFixed := true |}
  | cell, _ => cell
  end.

(** ** Durations *)

(** The number a text of two decimal digits stands for. *)
Definition digitValue (a : Ascii.ascii) : Z :=
  (Z.of_nat (nat_of_ascii a) - 48)%Z.

Definition readTwoDigits (s : string) : Z :=
  match s with
  | String a (String b EmptyString) => (10 * digitValue a + digitValue b)%Z
  | _ => (-1)%Z
  end.

(** * Sample data *)

(** A complete valid grid, used as the witness that the all-zero grid
    can be completed. *)
Definition sampleSolution : Grid :=
  [ [1; 2; 3; 4; 5; 6; 7; 8; 9];
    [4; 5; 6; 7; 8; 9; 1; 2; 3];
    [7; 8; 9; 1; 2; 3; 4; 5; 6];
    [2; 1; 4; 3; 6; 5; 8; 9; 7];
    [3; 6; 5; 8; 9; 7; 2; 1; 4];
    [8; 9; 7; 2; 1; 4; 3; 6; 5];
    [5; 3; 1; 6; 4; 2; 9; 7; 8];
    [6; 4; 2; 9; 7; 8; 5; 3; 1];
    [9; 7; 8; 5; 3; 1; 6; 4; 2] ]%Z.

(** The puzzle carved out of [sampleSolution] by the sample run. *)
Definition samplePuzzle : Grid :=
  [ [1; 0; 3; 4; 5; 6; 7; 8; 9];
    [4; 5; 6; 7; 8; 9; 1; 2; 3];
    [7; 8; 9; 0; 2; 3; 4; 5; 6];
    [2; 1; 4; 3; 6; 5; 8; 9; 7];
    [3; 6; 5; 8; 9; 0; 2; 1; 4];
    [8; 9; 7; 2; 1; 4; 3; 6; 5];
    [5; 3; 1; 6; 4; 2; 9; 0; 8];
    [6; 4; 2; 9; 7; 8; 5; 3; 1];
    [0; 7; 8; 5; 3; 1; 6; 4; 2] ]%Z.

(** Draws that sweep the grid: iteration [i] of a carving loop started at
    an even draw picks the cell [(i mod 9, (i / 9) mod 9)]. *)
Definition sweepDraws (j : nat) : nat :=
  if Nat.even j then (j / 2) mod 9 else (j / 18) mod 9.

(** A parser that accepts the empty array and rejects every other
    text; the only use made of it is that it rejects a lone brace, as
    [JSON.parse] does. *)
Definition parseEmptyArrayOnly (text : string)
    : option (list HistoryEntry) :=
  if String.eqb text "[]" then Some [] else None.

(** Some serialisation of a history, for the sample runs. *)
Definition countStringify (history : list HistoryEntry) : string :=
  numberToString (Z.of_nat (length history)).

(** A session on [samplePuzzle], 12 seconds after [startGame] on the
    tutorial difficulty, with the board [cells]. *)
Definition sessionWith (cells : list (list Cell)) (paused : bool) : State :=
  {| board := cells; solution := sampleSolution;
     showModal := false; showGiveUpModal := false;
     showVictoryModal := false; showHistoryModal := false;
     hasGivenUp := false; selectedDifficulty := tutorial;
     gameStarted := true; isPaused := paused;
     elapsedTime := 12; hintsRemaining := 7;
     gameHistory := []; currentPuzzleHash := hashPuzzle samplePuzzle;
     timerInterval := if paused then None else Some 1%positive;
     activeTimers := if paused then [] else [1%positive];
     nextTimer := 2%positive;
     storage := None |}.

Definition playingState : State := sessionWith (boardOf samplePuzzle) false.


(** The player has filled the five blanks with the right digits. *)
Definition filledState : State :=
  sessionWith
    (map (fun row => map (fun v => {| value := v; isFixed := false |}) row)
         sampleSolution) false.


(** * Properties *)

(** ** Reading and writing cells *)

Lemma get_setCell_same {A} (grid : list (list A)) r c v :
  is_Some (get grid r c) -> get (setCell grid r c v) r c = Some v.
Proof.
  unfold get, setCell. intros [v0 H].
  rewrite list_lookup_alter_eq.
  destruct (grid !! r) as [row|] eqn:Hrow; [simpl | discriminate].
  apply list_lookup_insert_eq. eapply lookup_lt_Some; eauto.
Qed.

Lemma get_setCell_other {A} (grid : list (list A)) r c v r' c' :
  (r', c') <> (r, c) -> get (setCell grid r c v) r' c' = get grid r' c'.
Proof.
  unfold get, setCell. intros Hne.
  destruct (decide (r' = r)) as [->|Hr].
  - rewrite list_lookup_alter_eq.
    destruct (grid !! r) as [row|]; [simpl | reflexivity].
    apply list_lookup_insert_ne. congruence.
  - rewrite list_lookup_alter_ne by congruence. reflexivity.
Qed.

Lemma setCell_restore {A} (grid : list (list A)) r c v v0 :
  get grid r c = Some v0 -> setCell (setCell grid r c v) r c v0 = grid.
Proof.
  unfold get, setCell. intros H.
  destruct (grid !! r) as [row|] eqn:Hrow; [| discriminate].
  apply list_eq. intros i.
  destruct (decide (i = r)) as [->|Hi].
  - rewrite !list_lookup_alter_eq, Hrow. simpl.
    rewrite list_insert_insert_eq, list_insert_id; auto.
  - rewrite !list_lookup_alter_ne by congruence. reflexivity.
Qed.

Lemma cellIs_true (grid : Grid) r c num :
  cellIs grid r c num = true <-> get grid r c = Some num.
Proof.
  unfold cellIs. destruct (get grid r c) as [v|].
  - rewrite Z.eqb_eq. split; congruence.
  - split; discriminate.
Qed.

Lemma cellIs_false (grid : Grid) r c num :
  cellIs grid r c num = false <-> get grid r c <> Some num.
Proof.
  rewrite <- cellIs_true. destruct (cellIs grid r c num); split; congruence.
Qed.

(** ** The 9x9 window *)

Lemma in_allCells r c : In (r, c) allCells <-> r < 9 /\ c < 9.
Proof.
  unfold allCells. rewrite in_flat_map. split.
  - intros (x & Hx & Hin). apply in_map_iff in Hin as (y & Heq & Hy).
    apply in_seq in Hx, Hy. inversion Heq; subst. lia.
  - intros [Hr Hc]. exists r. split; [apply in_seq; lia |].
    apply in_map_iff. exists c. split; [reflexivity | apply in_seq; lia].
Qed.

Lemma findEmpty_Some grid r c :
  findEmpty grid = Some (r, c) ->
  r < 9 /\ c < 9 /\ get grid r c = Some 0%Z.
Proof.
  unfold findEmpty. intros H. apply find_some in H as [Hin Hz].
  apply in_allCells in Hin. simpl in Hz. apply cellIs_true in Hz. tauto.
Qed.

Lemma findEmpty_None grid :
  findEmpty grid = None ->
  forall r c, r < 9 -> c < 9 -> get grid r c <> Some 0%Z.
Proof.
  unfold findEmpty. intros H r c Hr Hc.
  apply cellIs_false.
  apply (find_none _ _ H (r, c)). apply in_allCells. lia.
Qed.

Lemma filter_length_le {A} (f f' : A -> bool) (l : list A) :
  (forall x, In x l -> f' x = true -> f x = true) ->
  length (List.filter f' l) <= length (List.filter f l).
Proof.
  induction l as [|x l IH]; intros H; simpl; [lia |].
  assert (IH' : length (List.filter f' l) <= length (List.filter f l))
    by (apply IH; intros; apply H; simpl; auto).
  destruct (f' x) eqn:E'.
  - rewrite (H x (or_introl eq_refl) E'). simpl. lia.
  - destruct (f x); simpl; lia.
Qed.

Lemma filter_length_lt {A} (f f' : A -> bool) (l : list A) (p : A) :
  In p l -> f p = true -> f' p = false ->
  (forall x, In x l -> f' x = true -> f x = true) ->
  length (List.filter f' l) < length (List.filter f l).
Proof.
  induction l as [|x l IH]; intros Hin Hp Hp' H; [destruct Hin |].
  assert (Hle : length (List.filter f' l) <= length (List.filter f l))
    by (apply filter_length_le; intros; apply H; simpl; auto).
  simpl. destruct Hin as [->|Hin].
  - rewrite Hp, Hp'. simpl. lia.
  - assert (IH' : length (List.filter f' l) < length (List.filter f l))
      by (apply IH; auto; intros; apply H; simpl; auto).
    destruct (f' x) eqn:E'.
    + rewrite (H x (or_introl eq_refl) E'). simpl. lia.
    + destruct (f x); simpl; lia.
Qed.

Lemma zeros_le_81 grid : zeros grid <= 81.
Proof.
  unfold zeros.
  etransitivity; [apply List.filter_length_le |]. reflexivity.
Qed.

(** Writing a non-zero number into the cell found by [findEmpty] leaves
    one empty cell fewer. *)
Lemma zeros_setCell_lt grid r c num :
  findEmpty grid = Some (r, c) -> num <> 0%Z ->
  zeros (setCell grid r c num) < zeros grid.
Proof.
  intros Hf Hnum. destruct (findEmpty_Some _ _ _ Hf) as (Hr & Hc & Hz).
  unfold zeros. apply filter_length_lt with (p := (r, c)).
  - apply in_allCells. lia.
  - simpl. apply cellIs_true. exact Hz.
  - simpl. apply cellIs_false. rewrite get_setCell_same by eauto. congruence.
  - intros [r' c'] _. simpl. rewrite !cellIs_true.
    destruct (decide ((r', c') = (r, c))) as [E|E].
    + inversion E; subst. rewrite get_setCell_same by eauto. congruence.
    + rewrite get_setCell_other by exact E. auto.
Qed.

(** ** What [isValid] checks *)

Lemma existsb_false {A} (f : A -> bool) (l : list A) :
  existsb f l = false <-> forall x, In x l -> f x = false.
Proof.
  induction l as [|a l IH]; simpl.
  - split; [intros _ x [] | reflexivity].
  - rewrite orb_false_iff, IH. split.
    + intros [Ha Hl] x [<-|Hx]; auto.
    + intros H. split; [apply H; auto | intros x Hx; apply H; auto].
Qed.

Lemma isValid_spec grid row col num :
  isValid grid row col num = true <->
  (forall x, x < 9 -> cellIs grid row x num = false) /\
  (forall x, x < 9 -> cellIs grid x col num = false) /\
  (forall i j, i < 3 -> j < 3 ->
     cellIs grid (i + (row - row mod 3)) (j + (col - col mod 3)) num = false).
Proof.
  unfold isValid.
  destruct (existsb (fun x => cellIs grid row x num) (seq 0 9)) eqn:E1.
  { split; [discriminate |]. intros (H & _ & _).
    apply existsb_exists in E1 as (x & Hx & E). apply in_seq in Hx.
    rewrite H in E by lia. discriminate. }
  destruct (existsb (fun x => cellIs grid x col num) (seq 0 9)) eqn:E2.
  { split; [discriminate |]. intros (_ & H & _).
    apply existsb_exists in E2 as (x & Hx & E). apply in_seq in Hx.
    rewrite H in E by lia. discriminate. }
  cbv zeta.
  match goal with |- context [if ?b then _ else _] => destruct b eqn:E3 end.
  { split; [discriminate |]. intros (_ & _ & H).
    apply existsb_exists in E3 as (i & Hi & E).
    apply existsb_exists in E as (j & Hj & E).
    apply in_seq in Hi, Hj. rewrite H in E by lia. discriminate. }
  split; [intros _ | reflexivity].
  rewrite existsb_false in E1, E2, E3.
  split; [| split].
  - intros x Hx. apply E1, in_seq. lia.
  - intros x Hx. apply E2, in_seq. lia.
  - intros i j Hi Hj.
    assert (Hi' : In i (seq 0 3)) by (apply in_seq; lia).
    specialize (E3 i Hi'). rewrite existsb_false in E3.
    apply E3, in_seq. lia.
Qed.

(** A number accepted for an empty cell is not 0: the row scan passes
    over the cell itself. *)
Lemma isValid_nonzero grid row col num :
  findEmpty grid = Some (row, col) ->
  isValid grid row col num = true -> num <> 0%Z.
Proof.
  intros Hf Hv. destruct (findEmpty_Some _ _ _ Hf) as (Hr & Hc & Hz).
  apply isValid_spec in Hv as (Hrow & _ & _).
  specialize (Hrow col Hc). apply cellIs_false in Hrow. congruence.
Qed.

(** ** The search: termination, atomic failure, invariants *)

Section FillerInvariant.

Variable shuffle : nat -> list Z.
Variable I : Grid -> Prop.

Hypothesis I_step : forall grid row col k num,
  I grid -> findEmpty grid = Some (row, col) ->
  In num (shuffle k) -> isValid grid row col num = true ->
  I (setCell grid row col num).

Lemma tryNumbers_inv n rec :
  (forall g1 k1, zeros g1 <= n -> I g1 ->
     exists res, rec g1 k1 = Some res /\ fillPost I g1 res) ->
  forall row col grid,
    findEmpty grid = Some (row, col) -> zeros grid <= S n -> I grid ->
    forall numbers k,
      (forall num, In num numbers -> isValid grid row col num = true ->
         I (setCell grid row col num)) ->
      exists res, tryNumbers rec row col numbers grid k = Some res /\
                  fillPost I grid res.
Proof.
  intros Hrec row col grid Hf Hz HI numbers.
  induction numbers as [|num rest IH]; intros k Hnums; simpl.
  - eexists. split; [reflexivity | reflexivity].
  - assert (Hrest : forall num0, In num0 rest ->
              isValid grid row col num0 = true ->
              I (setCell grid row col num0))
      by (intros; apply Hnums; simpl; auto).
    destruct (isValid grid row col num) eqn:Hv; [| apply IH; exact Hrest].
    assert (Hnz : num <> 0%Z) by (eapply isValid_nonzero; eauto).
    pose proof (zeros_setCell_lt _ _ _ _ Hf Hnz) as Hlt.
    destruct (Hrec (setCell grid row col num) k) as ([[b g'] k'] & -> & Hpost).
    { lia. }
    { apply Hnums; simpl; auto. }
    destruct b; simpl in Hpost.
    + eexists. split; [reflexivity | exact Hpost].
    + subst g'. destruct (findEmpty_Some _ _ _ Hf) as (_ & _ & Hget).
      rewrite (setCell_restore _ _ _ _ _ Hget). apply IH. exact Hrest.
Qed.

Lemma fillGrid_inv fuel : forall grid k,
  zeros grid <= fuel -> I grid ->
  exists res, fillGrid shuffle fuel grid k = Some res /\ fillPost I grid res.
Proof.
  induction fuel as [|fuel IH]; intros grid k Hz HI.
  - simpl. destruct (findEmpty grid) as [[row col]|] eqn:Hf.
    + exfalso. pose proof (zeros_setCell_lt grid row col 1%Z Hf) as H.
      assert (1 <> 0)%Z by lia. specialize (H ltac:(assumption)). lia.
    + eexists. split; [reflexivity |]. simpl. auto.
  - simpl. destruct (findEmpty grid) as [[row col]|] eqn:Hf.
    + eapply tryNumbers_inv; eauto.
    + eexists. split; [reflexivity |]. simpl. auto.
Qed.

End FillerInvariant.

(** ** Rows, columns and blocks *)

Lemma peerb_spec p q : peerb p q = true <-> peer p q.
Proof.
  unfold peerb, peer.
  rewrite !orb_true_iff, andb_true_iff, !Nat.eqb_eq. tauto.
Qed.

Lemma peer_sym p q : peer p q -> peer q p.
Proof. unfold peer. intuition congruence. Qed.

Ltac divlia := zify; Z.div_mod_to_equations; lia.

(** Inside the window, [isValid] accepts [num] at a cell exactly when no
    cell that sees it holds [num]. *)
Lemma isValid_peers grid row col num :
  row < 9 -> col < 9 ->
  (isValid grid row col num = true <->
   forall r c, r < 9 -> c < 9 -> peer (row, col) (r, c) ->
               get grid r c <> Some num).
Proof.
  intros Hrow Hcol. rewrite isValid_spec. split.
  - intros (Hr & Hc & Hb) r c Hr9 Hc9 Hp. apply cellIs_false.
    unfold peer in Hp. cbn [fst snd] in Hp.
    destruct Hp as [Hp|[Hp|[Hp1 Hp2]]].
    + subst r. apply Hr. exact Hc9.
    + subst c. apply Hc. exact Hr9.
    + replace r with ((r - (row - row mod 3)) + (row - row mod 3)) by divlia.
      replace c with ((c - (col - col mod 3)) + (col - col mod 3)) by divlia.
      apply Hb; divlia.
  - intros H. split; [| split].
    + intros x Hx. apply cellIs_false. apply H; auto. left. reflexivity.
    + intros x Hx. apply cellIs_false. apply H; auto.
      right. left. reflexivity.
    + intros i j Hi Hj. apply cellIs_false. apply H; [divlia | divlia |].
      right. right. cbn [fst snd]. split; divlia.
Qed.

Lemma noConflict_setCell grid row col num :
  noConflict grid -> findEmpty grid = Some (row, col) ->
  isValid grid row col num = true ->
  noConflict (setCell grid row col num).
Proof.
  intros Hnc Hf Hv. destruct (findEmpty_Some _ _ _ Hf) as (Hr & Hc & Hz).
  pose proof (proj1 (isValid_peers grid row col num Hr Hc) Hv) as Hpeers.
  assert (Hsome : is_Some (get grid row col)) by eauto.
  intros r c r' c' v Hr9 Hc9 Hr9' Hc9' Hne Hp Hget Hv0 Hget'.
  destruct (decide ((r, c) = (row, col))) as [E|E];
    destruct (decide ((r', c') = (row, col))) as [E'|E'].
  - congruence.
  - inversion E; subst.
    rewrite get_setCell_same in Hget by exact Hsome.
    rewrite get_setCell_other in Hget' by exact E'.
    inversion Hget; subst. exact (Hpeers r' c' Hr9' Hc9' Hp Hget').
  - inversion E'; subst.
    rewrite get_setCell_same in Hget' by exact Hsome.
    rewrite get_setCell_other in Hget by exact E.
    inversion Hget'; subst.
    exact (Hpeers r c Hr9 Hc9 (peer_sym _ _ Hp) Hget).
  - rewrite get_setCell_other in Hget by exact E.
    rewrite get_setCell_other in Hget' by exact E'.
    exact (Hnc r c r' c' v Hr9 Hc9 Hr9' Hc9' Hne Hp Hget Hv0 Hget').
Qed.

Lemma cellsWithin_setCell lo grid row col num :
  cellsWithin lo grid -> (lo <= num <= 9)%Z ->
  cellsWithin lo (setCell grid row col num).
Proof.
  intros Hw Hnum r c Hr Hc.
  destruct (decide ((r, c) = (row, col))) as [E|E].
  - inversion E; subst. exists num. split; [| exact Hnum].
    apply get_setCell_same. destruct (Hw row col Hr Hc) as (v & -> & _). eauto.
  - rewrite get_setCell_other by exact E. apply Hw; auto.
Qed.

Lemma In_digits v : In v digits <-> (1 <= v <= 9)%Z.
Proof.
  unfold digits. simpl. split.
  - intros H. repeat (destruct H as [<-|H]; [lia |]). destruct H.
  - intros H.
    assert (v = 1 \/ v = 2 \/ v = 3 \/ v = 4 \/ v = 5 \/ v = 6 \/ v = 7 \/
            v = 8 \/ v = 9)%Z by lia.
    intuition auto.
Qed.

(** A full grid without conflicts has no 0 and is therefore solved. *)
Lemma solved_of_full grid :
  cellsWithin 0 grid -> noConflict grid -> findEmpty grid = None ->
  solved grid.
Proof.
  intros Hw Hnc Hf. split; [| exact Hnc].
  intros r c Hr Hc. destruct (Hw r c Hr Hc) as (v & Hget & Hv).
  exists v. split; [exact Hget |].
  pose proof (findEmpty_None _ Hf r c Hr Hc) as Hnz.
  assert (v <> 0%Z) by congruence. lia.
Qed.

Lemma unitOk_spec cells :
  unitOk cells = true ->
  length cells = 9 /\ NoDup cells /\
  (forall p, In p cells -> fst p < 9 /\ snd p < 9) /\
  (forall p q, In p cells -> In q cells -> peer p q).
Proof.
  unfold unitOk. rewrite !andb_true_iff, Nat.eqb_eq, !forallb_forall.
  intros [[[Hlen Hwin] Hnd] Hpeer].
  apply bool_decide_eq_true in Hnd.
  split; [exact Hlen | split; [exact Hnd | split]].
  - intros p Hp. specialize (Hwin p Hp).
    apply andb_true_iff in Hwin. rewrite !Nat.ltb_lt in Hwin. exact Hwin.
  - intros p q Hp Hq. apply peerb_spec.
    specialize (Hpeer p Hp). rewrite forallb_forall in Hpeer. auto.
Qed.

Lemma rowCells_ok r : r < 9 -> unitOk (rowCells r) = true.
Proof.
  intros H. do 9 (destruct r as [|r]; [vm_compute; reflexivity |]). lia.
Qed.

Lemma colCells_ok c : c < 9 -> unitOk (colCells c) = true.
Proof.
  intros H. do 9 (destruct c as [|c]; [vm_compute; reflexivity |]). lia.
Qed.

Lemma blockCells_ok b : b < 9 -> unitOk (blockCells b) = true.
Proof.
  intros H. do 9 (destruct b as [|b]; [vm_compute; reflexivity |]). lia.
Qed.

(** In a solved grid the values along distinct cells that all see each
    other are distinct digits. *)
Lemma valuesAt_solved grid cells :
  solved grid -> NoDup cells ->
  (forall p, In p cells -> fst p < 9 /\ snd p < 9) ->
  (forall p q, In p cells -> In q cells -> peer p q) ->
  NoDup (valuesAt grid cells) /\
  length (valuesAt grid cells) = length cells /\
  (forall v, In v (valuesAt grid cells) ->
     In v digits /\ exists p, In p cells /\ get grid (fst p) (snd p) = Some v).
Proof.
  intros [Hw Hnc]. unfold valuesAt.
  induction cells as [|[r c] cells IH]; intros Hnd Hwin Hpeer.
  - simpl. split; [constructor | split; [reflexivity | intros v []]].
  - apply NoDup_cons in Hnd as [Hnotin Hnd].
    destruct IH as (IHnd & IHlen & IHin); auto.
    { intros; apply Hwin; simpl; auto. }
    { intros; apply Hpeer; simpl; auto. }
    destruct (Hwin (r, c) (or_introl eq_refl)) as [Hr Hc]. simpl in Hr, Hc.
    destruct (Hw r c Hr Hc) as (v & Hget & Hv).
    cbn [omap list_omap fst snd]. rewrite Hget.
    split; [| split].
    + apply NoDup_cons. split; [| exact IHnd].
      intros Hin. apply list_elem_of_In in Hin.
      destruct (IHin v Hin) as (_ & [r' c'] & Hq & Hget').
      destruct (Hwin (r', c') (or_intror Hq)) as [Hr' Hc'].
      cbn [fst snd] in Hr', Hc', Hget'.
      assert (Hne : (r, c) <> (r', c')).
      { intros E. inversion E; subst. apply Hnotin.
        apply list_elem_of_In. exact Hq. }
      assert (Hp : peer (r, c) (r', c')) by (apply Hpeer; simpl; auto).
      apply (Hnc r c r' c' v Hr Hc Hr' Hc' Hne Hp Hget); [lia | exact Hget'].
    + simpl. rewrite IHlen. reflexivity.
    + intros v' [<-|Hin].
      * split; [apply In_digits; exact Hv |].
        exists (r, c). simpl. auto.
      * destruct (IHin v' Hin) as (Hd & p & Hp & Hgp).
        split; [exact Hd |]. exists p. simpl. auto.
Qed.

(** Every unit of a solved grid is a permutation of 1..9. *)
Lemma unit_permutation grid cells :
  solved grid -> unitOk cells = true -> valuesAt grid cells ≡ₚ digits.
Proof.
  intros Hs Hok. apply unitOk_spec in Hok as (Hlen & Hnd & Hwin & Hpeer).
  destruct (valuesAt_solved grid cells Hs Hnd Hwin Hpeer) as (Hnd' & Hlen' & Hin).
  apply NoDup_ListNoDup in Hnd'.
  apply NoDup_Permutation_bis.
  - exact Hnd'.
  - rewrite Hlen', Hlen. reflexivity.
  - intros v Hv. apply Hin. exact Hv.
Qed.

(** ** Completeness of the search *)

Lemma solvedb_spec grid : solvedb grid = true -> solved grid.
Proof.
  unfold solvedb. rewrite andb_true_iff, !forallb_forall.
  intros [Hrange Hpairs]. split.
  - intros r c Hr Hc.
    assert (Hin : In (r, c) allCells) by (apply in_allCells; lia).
    specialize (Hrange _ Hin). cbn [fst snd] in Hrange.
    destruct (get grid r c) as [v|]; [| discriminate].
    exists v. split; [reflexivity | lia].
  - intros r c r' c' v Hr Hc Hr' Hc' Hne Hp Hget Hv Hget'.
    assert (Hin : In (r, c) allCells) by (apply in_allCells; lia).
    assert (Hin' : In (r', c') allCells) by (apply in_allCells; lia).
    specialize (Hpairs _ Hin). rewrite forallb_forall in Hpairs.
    specialize (Hpairs _ Hin'). cbn [fst snd] in Hpairs.
    rewrite !orb_true_iff, !negb_true_iff in Hpairs.
    destruct Hpairs as [[H|H]|H].
    + apply bool_decide_eq_true in H. contradiction.
    + apply peerb_spec in Hp. congruence.
    + apply bool_decide_eq_false in H. congruence.
Qed.

Lemma sampleSolution_solved : solved sampleSolution.
Proof. apply solvedb_spec. vm_compute. reflexivity. Qed.

Lemma partialOf_setCell grid full row col v :
  partialOf grid full -> get full row col = Some v ->
  is_Some (get grid row col) ->
  partialOf (setCell grid row col v) full.
Proof.
  intros Hp Hfull Hsome r c Hr Hc.
  destruct (decide ((r, c) = (row, col))) as [E|E].
  - inversion E; subst. right. rewrite get_setCell_same by exact Hsome.
    symmetry. exact Hfull.
  - rewrite get_setCell_other by exact E. apply Hp; auto.
Qed.

(** The digit a solution holds at an empty cell is accepted there. *)
Lemma isValid_of_solution grid full row col v :
  solved full -> partialOf grid full ->
  findEmpty grid = Some (row, col) -> get full row col = Some v ->
  isValid grid row col v = true.
Proof.
  intros [Hw Hnc] Hp Hf Hfull.
  destruct (findEmpty_Some _ _ _ Hf) as (Hr & Hc & Hz).
  apply isValid_peers; [exact Hr | exact Hc |].
  intros r c Hr9 Hc9 Hpeer Hget.
  destruct (Hw row col Hr Hc) as (v' & Hv' & Hrange).
  assert (v' = v) by congruence. subst v'.
  assert (Hne : (row, col) <> (r, c)).
  { intros E. inversion E; subst. rewrite Hz in Hget.
    inversion Hget. lia. }
  destruct (Hp r c Hr9 Hc9) as [H0|Heq].
  - rewrite H0 in Hget. inversion Hget. lia.
  - rewrite Heq in Hget.
    apply (Hnc row col r c v Hr Hc Hr9 Hc9 Hne Hpeer Hfull); [lia | exact Hget].
Qed.

Section FillerComplete.

Variable shuffle : nat -> list Z.
Variable full : Grid.
Hypothesis full_solved : solved full.
Hypothesis shuffle_digits : forall k v, In v digits -> In v (shuffle k).

Lemma tryNumbers_complete n rec :
  (forall g1 k1, zeros g1 <= n ->
     exists res, rec g1 k1 = Some res /\ fillPost (fun _ => True) g1 res) ->
  (forall g1 k1, zeros g1 <= n -> partialOf g1 full ->
     exists g' k', rec g1 k1 = Some (true, g', k')) ->
  forall row col grid v,
    findEmpty grid = Some (row, col) -> zeros grid <= S n ->
    partialOf grid full -> get full row col = Some v ->
    forall numbers k, In v numbers ->
      exists g' k',
        tryNumbers rec row col numbers grid k = Some (true, g', k').
Proof.
  intros Htotal Hrec row col grid v Hf Hz Hp Hfull numbers.
  pose proof (isValid_of_solution _ _ _ _ _ full_solved Hp Hf Hfull) as Hvalid.
  destruct (findEmpty_Some _ _ _ Hf) as (Hr & Hc & Hget).
  induction numbers as [|num rest IH]; intros k Hin; [destruct Hin |].
  simpl. destruct (isValid grid row col num) eqn:Hv.
  - assert (Hnz : num <> 0%Z) by (eapply isValid_nonzero; eauto).
    pose proof (zeros_setCell_lt _ _ _ _ Hf Hnz) as Hlt.
    destruct (Htotal (setCell grid row col num) k) as ([[b g'] k'] & Hres & Hpost);
      [lia |].
    rewrite Hres. destruct b; [eauto |].
    simpl in Hpost. subst g'.
    rewrite (setCell_restore _ _ _ _ _ Hget).
    apply IH. destruct Hin as [->|Hin]; [| exact Hin].
    destruct (Hrec (setCell grid row col v) k) as (g2 & k2 & Hres2); [lia | |].
    + apply partialOf_setCell; eauto.
    + congruence.
  - apply IH. destruct Hin as [->|Hin]; [congruence | exact Hin].
Qed.

Lemma fillGrid_complete fuel : forall grid k,
  zeros grid <= fuel -> partialOf grid full ->
  exists g' k', fillGrid shuffle fuel grid k = Some (true, g', k').
Proof.
  induction fuel as [|fuel IH]; intros grid k Hz Hp.
  - destruct (fillGrid_inv shuffle (fun _ => True) ltac:(auto) 0 grid k Hz I)
      as ([[b g'] k'] & Hres & Hpost).
    simpl in Hres |- *. destruct (findEmpty grid) as [[row col]|];
      [discriminate | eauto].
  - simpl. destruct (findEmpty grid) as [[row col]|] eqn:Hf; [| eauto].
    destruct (findEmpty_Some _ _ _ Hf) as (Hr & Hc & Hget).
    destruct full_solved as [Hw _].
    destruct (Hw row col Hr Hc) as (v & Hfull & Hrange).
    eapply tryNumbers_complete; eauto.
    + intros g1 k1 Hz1. apply fillGrid_inv; auto.
    + apply shuffle_digits. apply In_digits. exact Hrange.
Qed.

End FillerComplete.

(** ** The shape of a grid *)

Lemma is9x9_get {A} (grid : list (list A)) r c :
  is9x9 grid -> r < 9 -> c < 9 -> is_Some (get grid r c).
Proof.
  intros [Hlen Hrows] Hr Hc. unfold get.
  destruct (lookup_lt_is_Some_2 grid r) as [row Hrow]; [lia |].
  rewrite Hrow. apply lookup_lt_is_Some_2.
  rewrite Forall_forall in Hrows.
  rewrite (Hrows row); [lia |].
  apply list_elem_of_lookup. eauto.
Qed.

Lemma allZero_get grid r c v :
  allZero grid -> get grid r c = Some v -> v = 0%Z.
Proof.
  unfold allZero, get. rewrite Forall_forall. intros Hz Hget.
  destruct (grid !! r) as [row|] eqn:Hrow; [| discriminate].
  assert (Hin : row ∈ grid) by (apply list_elem_of_lookup; eauto).
  specialize (Hz row Hin). rewrite Forall_forall in Hz.
  apply Hz. apply list_elem_of_lookup. eauto.
Qed.

Lemma is9x9_setCell {A} (grid : list (list A)) r c v :
  is9x9 grid -> is9x9 (setCell grid r c v).
Proof.
  unfold is9x9, setCell. intros [Hlen Hrows]. split.
  - rewrite length_alter. exact Hlen.
  - rewrite Forall_forall in Hrows. apply Forall_forall. intros row Hin.
    apply list_elem_of_lookup in Hin as [i Hi].
    destruct (decide (i = r)) as [->|Hne].
    + rewrite list_lookup_alter_eq in Hi.
      destruct (grid !! r) as [row0|] eqn:Hrow0; [| discriminate].
      simpl in Hi. inversion Hi; subst.
      rewrite length_insert. apply Hrows.
      apply list_elem_of_lookup. eauto.
    + rewrite list_lookup_alter_ne in Hi by congruence.
      apply Hrows. apply list_elem_of_lookup. eauto.
Qed.

(** On a 9x9 grid the values along [rowCells r] are row [r] itself. *)
Lemma valuesAt_rowCells grid r row :
  grid !! r = Some row -> length row = 9 ->
  valuesAt grid (rowCells r) = row.
Proof.
  intros Hrow Hlen. unfold valuesAt, rowCells, get.
  do 10 (destruct row as [|? row]; try discriminate).
  cbn [seq map omap list_omap fst snd]. rewrite Hrow. reflexivity.
Qed.

(** ** Sample data *)

Lemma sampleSolution_9x9 : is9x9 sampleSolution.
Proof. split; [reflexivity |]. repeat constructor. Qed.

Lemma sampleSolution_complete : complete sampleSolution.
Proof. unfold complete, sampleSolution. repeat constructor; discriminate. Qed.

Lemma sampleSolution_digits : digitCells sampleSolution.
Proof. unfold digitCells, sampleSolution. repeat constructor; lia. Qed.

Lemma samplePuzzle_9x9 : is9x9 samplePuzzle.
Proof. split; [reflexivity |]. repeat constructor. Qed.

Lemma samplePuzzle_digits : digitCells samplePuzzle.
Proof. unfold digitCells, samplePuzzle. repeat constructor; lia. Qed.

Lemma boardOf_9x9 puzzle : is9x9 puzzle -> is9x9 (boardOf puzzle).
Proof.
  unfold is9x9, boardOf. intros [Hlen Hrows]. split.
  - rewrite length_map. exact Hlen.
  - apply Forall_map. eapply Forall_impl; [exact Hrows |].
    intros row Hrow. simpl. rewrite length_map. exact Hrow.
Qed.

Lemma playingState_9x9 : is9x9 (board playingState).
Proof. split; [reflexivity |]. repeat constructor. Qed.

Lemma filledState_9x9 : is9x9 (board filledState).
Proof. split; [reflexivity |]. repeat constructor. Qed.

Lemma filledState_solved : solvedBoard filledState.
Proof.
  intros r c Hr Hc.
  do 9 (destruct r as [|r];
        [do 9 (destruct c as [|c];
               [eexists; split; [reflexivity |];
                split; [discriminate | reflexivity] |]); lia |]).
  lia.
Qed.

Lemma playingState_not_solved : ~ solvedBoard playingState.
Proof.
  intros H. destruct (H 0 1) as (cell & Hcell & Hv & _); [lia | lia |].
  inversion Hcell; subst. apply Hv. reflexivity.
Qed.

Lemma playingState_covered : solutionCovers playingState.
Proof.
  intros r c [cell Hcell].
  assert (r < 9 /\ c < 9) as [Hr Hc].
  { unfold get in Hcell.
    destruct (board playingState !! r) as [row|] eqn:Hrow; [| discriminate].
    pose proof (lookup_lt_Some _ _ _ Hrow) as Hr.
    pose proof (lookup_lt_Some _ _ _ Hcell) as Hc.
    destruct playingState_9x9 as [Hlen Hrows].
    rewrite Forall_forall in Hrows.
    rewrite (Hrows row) in Hc by (apply list_elem_of_lookup; eauto).
    lia. }
  apply is9x9_get; auto. exact sampleSolution_9x9.
Qed.

(** ** The filler on the empty grid (C1) and its frame (C10) *)

Lemma searchInv_step (shuffle : nat -> list Z) :
  (forall j, shuffle j ≡ₚ digits) ->
  forall grid row col k num,
    searchInv grid -> findEmpty grid = Some (row, col) ->
    In num (shuffle k) -> isValid grid row col num = true ->
    searchInv (setCell grid row col num).
Proof.
  intros Hperm grid row col k num (H9 & Hw & Hnc) Hf Hin Hv.
  split; [| split].
  - apply is9x9_setCell. exact H9.
  - apply cellsWithin_setCell; [exact Hw |].
    assert (In num digits) as Hd.
    { eapply Permutation_in; [apply Hperm | exact Hin]. }
    apply In_digits in Hd. lia.
  - apply noConflict_setCell; assumption.
Qed.

(** C1.  On every 9x9 grid whose cells are all 0, and whatever the
    shuffles produce (each one a permutation of 1..9), [fillGrid]
    terminates (a recursion depth of 81 is enough) and returns [true];
    the grid it leaves is 9x9, and each of its rows, each of its columns
    and each of its nine 3x3 blocks is a permutation of 1..9. *)
Theorem fillGrid_empty_grid (shuffle : nat -> list Z) (grid : Grid)
    (k extra : nat) :
  (forall j, shuffle j ≡ₚ digits) ->
  is9x9 grid -> allZero grid ->
  exists grid' k',
    fillGrid shuffle (81 + extra) grid k = Some (true, grid', k') /\
    is9x9 grid' /\
    Forall (fun row => row ≡ₚ digits) grid' /\
    (forall r, r < 9 -> valuesAt grid' (rowCells r) ≡ₚ digits) /\
    (forall c, c < 9 -> valuesAt grid' (colCells c) ≡ₚ digits) /\
    (forall b, b < 9 -> valuesAt grid' (blockCells b) ≡ₚ digits).
Proof.
  intros Hperm H9 Hzero.
  assert (Hcells : forall r c, r < 9 -> c < 9 -> get grid r c = Some 0%Z).
  { intros r c Hr Hc. destruct (is9x9_get grid r c H9 Hr Hc) as [v Hv].
    rewrite Hv. f_equal. eapply allZero_get; eauto. }
  assert (Hinv : searchInv grid).
  { split; [exact H9 | split].
    - intros r c Hr Hc. exists 0%Z. split; [auto | lia].
    - intros r c r' c' v Hr Hc _ _ _ _ Hget Hv.
      rewrite Hcells in Hget by assumption. congruence. }
  assert (Hfuel : zeros grid <= 81 + extra)
    by (pose proof (zeros_le_81 grid); lia).
  destruct (fillGrid_inv shuffle searchInv (searchInv_step shuffle Hperm)
              (81 + extra) grid k Hfuel Hinv) as ([[b g'] k'] & Hres & Hpost).
  destruct (fillGrid_complete shuffle sampleSolution sampleSolution_solved)
    with (fuel := 81 + extra) (grid := grid) (k := k) as (g2 & k2 & Hres2).
  { intros j v Hv. eapply Permutation_in; [symmetry; apply Hperm | exact Hv]. }
  { exact Hfuel. }
  { intros r c Hr Hc. left. auto. }
  rewrite Hres in Hres2. inversion Hres2; subst b g2 k2. clear Hres2.
  simpl in Hpost. destruct Hpost as [(H9' & Hw' & Hnc') Hfull].
  pose proof (solved_of_full g' Hw' Hnc' Hfull) as Hsolved.
  exists g', k'. split; [exact Hres | split; [exact H9' |]].
  assert (Hrows : forall r, r < 9 -> valuesAt g' (rowCells r) ≡ₚ digits).
  { intros r Hr. apply unit_permutation; [exact Hsolved |].
    apply rowCells_ok. exact Hr. }
  split; [| split; [exact Hrows | split]].
  - destruct H9' as [Hlen Hlens]. rewrite Forall_forall in Hlens.
    apply Forall_forall. intros row Hin.
    pose proof (Hlens row Hin) as Hrowlen.
    apply list_elem_of_lookup in Hin as [r Hr].
    rewrite <- (valuesAt_rowCells g' r row Hr Hrowlen).
    apply Hrows. apply lookup_lt_Some in Hr. lia.
  - intros c Hc. apply unit_permutation; [exact Hsolved |].
    apply colCells_ok. exact Hc.
  - intros b Hb. apply unit_permutation; [exact Hsolved |].
    apply blockCells_ok. exact Hb.
Qed.

Lemma fillGrid_empty_grid_witness :
  exists grid' k',
    fillGrid (fun _ => digits) (81 + 0) emptyGrid 0 = Some (true, grid', k') /\
    is9x9 grid' /\
    Forall (fun row => row ≡ₚ digits) grid' /\
    (forall r, r < 9 -> valuesAt grid' (rowCells r) ≡ₚ digits) /\
    (forall c, c < 9 -> valuesAt grid' (colCells c) ≡ₚ digits) /\
    (forall b, b < 9 -> valuesAt grid' (blockCells b) ≡ₚ digits).
Proof.
  apply (fillGrid_empty_grid (fun _ => digits) emptyGrid 0 0).
  - intros j. reflexivity.
  - split; [reflexivity |]. repeat constructor.
  - repeat constructor.
Defined.

(** C10.  Whatever the grid and whatever the shuffles produce, a call of
    [fillGrid] returns, every cell whose value differs afterwards was 0
    on entry, so every cell that was non-zero on entry keeps its value;
    and when the call returns [false] the grid is exactly the grid on
    entry. *)
Theorem fillGrid_frame (shuffle : nat -> list Z) (grid : Grid)
    (k extra : nat) :
  exists b grid' k',
    fillGrid shuffle (81 + extra) grid k = Some (b, grid', k') /\
    onlyZerosChanged grid grid' /\
    (forall r c v, get grid r c = Some v -> v <> 0%Z ->
                   get grid' r c = Some v) /\
    (b = false -> grid' = grid).
Proof.
  assert (Hfuel : zeros grid <= 81 + extra)
    by (pose proof (zeros_le_81 grid); lia).
  destruct (fillGrid_inv shuffle (onlyZerosChanged grid)) with
    (fuel := 81 + extra) (grid := grid) (k := k)
    as ([[b g'] k'] & Hres & Hpost).
  { intros g row col j num Hinv Hf _ _ r c Hne.
    destruct (findEmpty_Some _ _ _ Hf) as (Hr & Hc & Hget).
    destruct (decide ((r, c) = (row, col))) as [E|E].
    - inversion E; subst. split; [| lia].
      destruct (decide (get g row col = get grid row col)) as [Heq|Hne'].
      + congruence.
      + apply Hinv. exact Hne'.
    - rewrite get_setCell_other in Hne by exact E. apply Hinv. exact Hne. }
  { exact Hfuel. }
  { intros r c Hne. congruence. }
  assert (Hchanged : onlyZerosChanged grid g').
  { destruct b; simpl in Hpost.
    - apply Hpost.
    - subst g'. intros r c Hne. congruence. }
  exists b, g', k'. split; [exact Hres | split; [exact Hchanged | split]].
  - intros r c v Hget Hv.
    destruct (decide (get g' r c = get grid r c)) as [Heq|Hne].
    + congruence.
    + destruct (Hchanged r c Hne) as [H0 _]. congruence.
  - intros ->. exact Hpost.
Qed.

(** ** The carver *)

Lemma nonZero_insert (row : list Z) c v :
  row !! c = Some v -> v <> 0%Z ->
  S (length (List.filter (fun v => negb (v =? 0)%Z) (<[c := 0%Z]> row))) =
  length (List.filter (fun v => negb (v =? 0)%Z) row).
Proof.
  revert c. induction row as [|x row IH]; intros c Hc Hv; [discriminate |].
  destruct c as [|c]; simpl in *.
  - inversion Hc; subst.
    destruct (Z.eqb_spec v 0); [contradiction | reflexivity].
  - destruct (negb (x =? 0)%Z); simpl; rewrite <- (IH c Hc Hv); reflexivity.
Qed.

Lemma nonZeroCount_setCell grid r c v :
  get grid r c = Some v -> v <> 0%Z ->
  S (nonZeroCount (setCell grid r c 0%Z)) = nonZeroCount grid.
Proof.
  unfold nonZeroCount, setCell, get. revert r.
  induction grid as [|row grid IH]; intros r Hget Hv; [discriminate |].
  destruct r as [|r]; simpl in Hget |- *.
  - rewrite !List.filter_app, !length_app.
    rewrite <- (nonZero_insert row c v Hget Hv). reflexivity.
  - rewrite !List.filter_app, !length_app.
    specialize (IH r Hget Hv).
    change (list_alter (fun row0 : list Z => <[c := 0%Z]> row0) r grid)
      with (alter (fun row0 : list Z => <[c := 0%Z]> row0) r grid).
    lia.
Qed.

Lemma filter_all {A} (f : A -> bool) (l : list A) :
  (forall x, In x l -> f x = true) -> List.filter f l = l.
Proof.
  induction l as [|x l IH]; intros H; simpl; [reflexivity |].
  rewrite (H x) by (simpl; auto). f_equal. apply IH.
  intros y Hy. apply H. simpl. auto.
Qed.

Lemma length_concat_9x9 (grid : Grid) :
  is9x9 grid -> length (concat grid) = 81.
Proof.
  intros [Hlen Hrows].
  do 10 (destruct grid as [|? grid]; try discriminate).
  repeat match goal with
         | H : Forall _ (_ :: _) |- _ => apply Forall_cons in H as [? H]
         end.
  simpl. rewrite !length_app. simpl. lia.
Qed.

Lemma nonZeroCount_complete grid :
  is9x9 grid -> complete grid -> nonZeroCount grid = 81.
Proof.
  intros H9 Hc. unfold nonZeroCount.
  rewrite filter_all; [apply length_concat_9x9; exact H9 |].
  intros v Hv. apply in_concat in Hv as (row & Hrow & Hin).
  unfold complete in Hc. rewrite Forall_forall in Hc.
  apply list_elem_of_In in Hrow, Hin.
  specialize (Hc row Hrow). rewrite Forall_forall in Hc.
  specialize (Hc v Hin). destruct (Z.eqb_spec v 0); [contradiction | reflexivity].
Qed.

Lemma complete_get grid r c v :
  complete grid -> get grid r c = Some v -> v <> 0%Z.
Proof.
  unfold complete, get. rewrite Forall_forall. intros Hc Hget.
  destruct (grid !! r) as [row|] eqn:Hrow; [| discriminate].
  assert (Hin : row ∈ grid) by (apply list_elem_of_lookup; eauto).
  specialize (Hc row Hin). rewrite Forall_forall in Hc.
  apply Hc. apply list_elem_of_lookup. eauto.
Qed.

Lemma pick_shift rand9 k i : pick rand9 (S (S k)) i = pick rand9 k (S i).
Proof. unfold pick. f_equal; f_equal; lia. Qed.

Lemma pick_0 rand9 k : pick rand9 k 0 = (rand9 k, rand9 (S k)).
Proof. unfold pick. f_equal; f_equal; lia. Qed.

Section Carver.

Variable rand9 : nat -> nat.
Hypothesis rand9_range : forall j, rand9 j < 9.

Lemma removeLoop_inside fuel : forall grid count removed k,
  is9x9 grid -> removeLoop rand9 fuel grid count removed k <> OutsideGrid.
Proof.
  induction fuel as [|fuel IH]; intros grid count removed k H9; simpl.
  - destruct (removed <? count); discriminate.
  - destruct (removed <? count); [| discriminate].
    destruct (is9x9_get grid (rand9 k) (rand9 (S k)) H9) as [v ->]; auto.
    destruct (v =? 0)%Z; apply IH; auto using is9x9_setCell.
Qed.

(** Partial correctness of the loop, with the cells it zeroed. *)
Lemma removeLoop_spec count fuel : forall grid removed k grid' k',
  is9x9 grid -> removed <= count ->
  removeLoop rand9 fuel grid count removed k = Carved grid' k' ->
  exists cells,
    NoDup cells /\ removed + length cells = count /\
    (forall p, p ∈ cells ->
       fst p < 9 /\ snd p < 9 /\ get grid (fst p) (snd p) <> Some 0%Z /\
       exists i, i < fuel /\ pick rand9 k i = p) /\
    zeroedAt cells grid grid' /\
    nonZeroCount grid' + length cells = nonZeroCount grid /\
    is9x9 grid'.
Proof.
  induction fuel as [|fuel IH]; intros grid removed k grid' k' H9 Hle Hrun;
    simpl in Hrun; destruct (Nat.ltb_spec removed count) as [Hlt|Hge];
    try discriminate.
  - inversion Hrun; subst. exists [].
    split; [constructor | split; [simpl; lia | split; [| split; [| split]]]].
    + intros p Hp. inversion Hp.
    + intros r c. reflexivity.
    + simpl. lia.
    + exact H9.
  - destruct (get grid (rand9 k) (rand9 (S k))) as [v|] eqn:Hget;
      [| discriminate].
    destruct (Z.eqb_spec v 0) as [->|Hv].
    + destruct (IH _ _ _ _ _ H9 Hle Hrun)
        as (cells & Hnd & Hlen & Hcells & Hz & Hcount & H9').
      exists cells.
      split; [exact Hnd | split; [exact Hlen | split; [| auto]]].
      intros p Hp. destruct (Hcells p Hp) as (Hr & Hc & Hnz & i & Hi & Hpick).
      split; [exact Hr | split; [exact Hc | split; [exact Hnz |]]].
      exists (S i). split; [lia |]. rewrite <- pick_shift. exact Hpick.
    + assert (Hsome : is_Some (get grid (rand9 k) (rand9 (S k)))) by eauto.
      assert (Hle' : S removed <= count) by lia.
      destruct (IH _ _ _ _ _ (is9x9_setCell _ (rand9 k) (rand9 (S k)) 0%Z H9)
                  Hle' Hrun)
        as (cells & Hnd & Hlen & Hcells & Hz & Hcount & H9').
      assert (Hfresh : (rand9 k, rand9 (S k)) ∉ cells).
      { intros Hin. destruct (Hcells _ Hin) as (_ & _ & Hnz & _).
        cbn [fst snd] in Hnz. rewrite get_setCell_same in Hnz by exact Hsome.
        congruence. }
      exists ((rand9 k, rand9 (S k)) :: cells).
      split; [apply NoDup_cons; auto |].
      split; [simpl; lia |].
      split; [| split; [| split; [| exact H9']]].
      * intros p Hp. apply elem_of_cons in Hp as [->|Hp].
        { cbn [fst snd]. repeat split; auto.
          - congruence.
          - exists 0. split; [lia | apply pick_0]. }
        destruct (Hcells p Hp) as (Hr & Hc & Hnz & i & Hi & Hpick).
        repeat split; auto.
        { destruct p as [r c]. cbn [fst snd] in *.
          rewrite get_setCell_other in Hnz; [exact Hnz |].
          intros E. rewrite E in Hp. contradiction. }
        exists (S i). split; [lia |]. rewrite <- pick_shift. exact Hpick.
      * intros r c. rewrite (Hz r c).
        destruct (decide ((r, c) = (rand9 k, rand9 (S k)))) as [E|E].
        { injection E as -> ->.
          rewrite (decide_True (P := _ ∈ _ :: _)) by (apply elem_of_cons; auto).
          destruct (decide _); [reflexivity |].
          apply get_setCell_same. exact Hsome. }
        rewrite get_setCell_other by exact E.
        destruct (decide ((r, c) ∈ cells)) as [Hin|Hnin].
        { rewrite (decide_True (P := _ ∈ _ :: _)) by (apply elem_of_cons; auto).
          reflexivity. }
        rewrite (decide_False (P := _ ∈ _ :: _)); [reflexivity |].
        intros Hin. apply elem_of_cons in Hin as [?|?]; contradiction.
      * pose proof (nonZeroCount_setCell _ _ _ _ Hget Hv). simpl. lia.
  - inversion Hrun; subst. exists [].
    split; [constructor | split; [simpl; lia | split; [| split; [| split]]]].
    + intros p Hp. inversion Hp.
    + intros r c. reflexivity.
    + simpl. lia.
    + exact H9.
Qed.

(** Removing one element from a duplicate-free list. *)
Lemma NoDup_remove_elem {A} `{EqDecision A} (x : A) (l : list A) :
  NoDup l -> x ∈ l ->
  exists l', NoDup l' /\ S (length l') = length l /\
             forall y, y ∈ l' <-> y ∈ l /\ y <> x.
Proof.
  intros Hnd Hin. apply list_elem_of_split in Hin as (l1 & l2 & ->).
  apply NoDup_app in Hnd as (Hnd1 & Hdisj & Hnd2).
  apply NoDup_cons in Hnd2 as [Hx2 Hnd2].
  exists (l1 ++ l2). split; [| split].
  - apply NoDup_app. split; [exact Hnd1 | split; [| exact Hnd2]].
    intros y Hy1 Hy2. apply (Hdisj y Hy1). apply elem_of_cons. auto.
  - rewrite !length_app. simpl. lia.
  - intros y. rewrite !elem_of_app, elem_of_cons. split.
    + intros [Hy|Hy]; (split; [tauto |]); intros ->.
      * apply (Hdisj x Hy). apply elem_of_cons. auto.
      * contradiction.
    + tauto.
Qed.

(** The loop ends once the draws have covered enough cells that are
    still non-zero. *)
Lemma removeLoop_terminates count fuel : forall grid removed k cells,
  is9x9 grid -> NoDup cells -> count <= removed + length cells ->
  (forall p, p ∈ cells ->
     get grid (fst p) (snd p) <> Some 0%Z /\
     exists i, i < fuel /\ pick rand9 k i = p) ->
  exists grid' k', removeLoop rand9 fuel grid count removed k = Carved grid' k'.
Proof.
  induction fuel as [|fuel IH]; intros grid removed k cells H9 Hnd Hlen Hcells;
    simpl; destruct (Nat.ltb_spec removed count) as [Hlt|Hge]; eauto.
  - destruct cells as [|p cells]; [simpl in Hlen; lia |].
    destruct (Hcells p) as (_ & i & Hi & _); [apply elem_of_cons; auto | lia].
  - destruct (is9x9_get grid (rand9 k) (rand9 (S k)) H9) as [v Hget]; auto.
    rewrite Hget. destruct (Z.eqb_spec v 0) as [->|Hv].
    + apply (IH grid removed (S (S k)) cells); auto.
      intros p Hp. destruct (Hcells p Hp) as (Hnz & i & Hi & Hpick).
      split; [exact Hnz |].
      destruct i as [|i].
      * rewrite pick_0 in Hpick. subst p. cbn [fst snd] in Hnz. congruence.
      * exists i. split; [lia |]. rewrite pick_shift. exact Hpick.
    + set (p0 := (rand9 k, rand9 (S k))).
      assert (Hrest : exists cells', NoDup cells' /\
                count <= S removed + length cells' /\
                forall y, y ∈ cells' -> y ∈ cells /\ y <> p0).
      { destruct (decide (p0 ∈ cells)) as [Hin|Hnin].
        - destruct (NoDup_remove_elem p0 cells Hnd Hin) as (l' & Hnd' & Hl' & Hiff).
          exists l'. split; [exact Hnd' | split; [lia |]].
          intros y Hy. apply Hiff. exact Hy.
        - exists cells. split; [exact Hnd | split; [lia |]].
          intros y Hy. split; [exact Hy | congruence]. }
      destruct Hrest as (cells' & Hnd' & Hlen' & Hsub).
      apply (IH (setCell grid (rand9 k) (rand9 (S k)) 0%Z) (S removed)
                (S (S k)) cells'); auto using is9x9_setCell.
      intros [r c] Hp. destruct (Hsub _ Hp) as [Hin Hne].
      destruct (Hcells _ Hin) as (Hnz & i & Hi & Hpick).
      cbn [fst snd] in *. split.
      * rewrite get_setCell_other; [exact Hnz | exact Hne].
      * destruct i as [|i].
        { rewrite pick_0 in Hpick. exfalso. apply Hne. symmetry. exact Hpick. }
        exists i. split; [lia |]. rewrite pick_shift. exact Hpick.
Qed.

End Carver.

Lemma picks_bounded {A} (P : nat -> A -> Prop) (l : list A) :
  (forall x, x ∈ l -> exists i, P i x) ->
  exists n, forall x, x ∈ l -> exists i, i < n /\ P i x.
Proof.
  induction l as [|a l IH]; intros H.
  - exists 0. intros x Hx. inversion Hx.
  - destruct IH as [n Hn].
    { intros x Hx. apply H. apply elem_of_cons. auto. }
    destruct (H a) as [i Hi]; [apply elem_of_cons; auto |].
    exists (S (Nat.max n i)). intros x Hx.
    apply elem_of_cons in Hx as [->|Hx].
    + exists i. split; [lia | exact Hi].
    + destruct (Hn x Hx) as (j & Hj & HP). exists j. split; [lia | exact HP].
Qed.

(** C3.  On a complete 9x9 grid, with [count <= 81] and draws in 0..8, a
    run of [removeNumbers] never leaves the grid; when it returns it has
    zeroed exactly [count] distinct cells, every other cell keeps its
    value, and the puzzle has exactly [81 - count] non-zero cells; and it
    does return as soon as the draws have covered [count] distinct
    cells. *)
Theorem removeNumbers_exact (rand9 : nat -> nat) (fuel : nat) (grid : Grid)
    (count k : nat) :
  is9x9 grid -> complete grid -> count <= 81 ->
  (forall j, rand9 j < 9) ->
  removeNumbers rand9 fuel grid count k <> OutsideGrid /\
  (forall grid' k',
     removeNumbers rand9 fuel grid count k = Carved grid' k' ->
     exists cells,
       NoDup cells /\ length cells = count /\
       (forall p, p ∈ cells -> fst p < 9 /\ snd p < 9) /\
       zeroedAt cells grid grid' /\
       nonZeroCount grid' = 81 - count /\
       is9x9 grid') /\
  (forall cells,
     NoDup cells -> length cells = count ->
     (forall p, p ∈ cells -> exists i, i < fuel /\ pick rand9 k i = p) ->
     exists grid' k', removeNumbers rand9 fuel grid count k = Carved grid' k').
Proof.
  intros H9 Hc Hcount Hrange. unfold removeNumbers.
  split; [apply removeLoop_inside; assumption | split].
  - intros grid' k' Hrun.
    destruct (removeLoop_spec rand9 Hrange count fuel grid 0 k grid' k' H9
                ltac:(lia) Hrun)
      as (cells & Hnd & Hlen & Hcells & Hz & Hnz & H9').
    exists cells. split; [exact Hnd | split; [exact Hlen | split; [| split]]].
    + intros p Hp. destruct (Hcells p Hp) as (Hr & Hcol & _). auto.
    + exact Hz.
    + rewrite (nonZeroCount_complete grid H9 Hc) in Hnz. split; [lia | exact H9'].
  - intros cells Hnd Hlen Hcells.
    apply (removeLoop_terminates rand9 Hrange count fuel grid 0 k cells);
      auto; [lia |].
    intros p Hp. split; [| apply Hcells; exact Hp].
    destruct (Hcells p Hp) as (i & _ & <-). unfold pick. cbn [fst snd].
    destruct (is9x9_get grid (rand9 (k + 2 * i)) (rand9 (k + 2 * i + 1)) H9)
      as [v Hv]; auto.
    rewrite Hv. intros E. inversion E; subst.
    exact (complete_get _ _ _ _ Hc Hv eq_refl).
Qed.

Lemma removeNumbers_exact_witness :
  removeNumbers (fun j => j mod 9) 20 sampleSolution 5 0 <> OutsideGrid /\
  (forall grid' k',
     removeNumbers (fun j => j mod 9) 20 sampleSolution 5 0 = Carved grid' k' ->
     exists cells,
       NoDup cells /\ length cells = 5 /\
       (forall p, p ∈ cells -> fst p < 9 /\ snd p < 9) /\
       zeroedAt cells sampleSolution grid' /\
       nonZeroCount grid' = 81 - 5 /\
       is9x9 grid') /\
  (forall cells,
     NoDup cells -> length cells = 5 ->
     (forall p, p ∈ cells ->
        exists i, i < 20 /\ pick (fun j => j mod 9) 0 i = p) ->
     exists grid' k',
       removeNumbers (fun j => j mod 9) 20 sampleSolution 5 0 = Carved grid' k').
Proof.
  apply (removeNumbers_exact (fun j => j mod 9) 20 sampleSolution 5 0).
  - exact sampleSolution_9x9.
  - exact sampleSolution_complete.
  - lia.
  - intros j. apply Nat.mod_upper_bound. lia.
Defined.

Example removeNumbers_sample_run :
  removeNumbers (fun j => j mod 9) 20 sampleSolution 5 0 =
  Carved [ [1; 0; 3; 4; 5; 6; 7; 8; 9];
           [4; 5; 6; 7; 8; 9; 1; 2; 3];
           [7; 8; 9; 0; 2; 3; 4; 5; 6];
           [2; 1; 4; 3; 6; 5; 8; 9; 7];
           [3; 6; 5; 8; 9; 0; 2; 1; 4];
           [8; 9; 7; 2; 1; 4; 3; 6; 5];
           [5; 3; 1; 6; 4; 2; 9; 0; 8];
           [6; 4; 2; 9; 7; 8; 5; 3; 1];
           [0; 7; 8; 5; 3; 1; 6; 4; 2] ]%Z 10.
Proof. reflexivity. Qed.

(** A run on draws that always fall on cell (0, 0) is stuck once that
    cell is 0. *)
Lemma removeLoop_stuck fuel : forall grid k,
  get grid 0 0 = Some 0%Z ->
  removeLoop (fun _ => 0) fuel grid 2 1 k = OutOfFuel.
Proof.
  induction fuel as [|fuel IH]; intros grid k Hget; simpl; [reflexivity |].
  rewrite Hget. simpl. apply IH. exact Hget.
Qed.

(** C7, as stated, fails: the draws that repeat cell (0, 0) for ever are
    a possible sequence, and with [count = 2] on a complete grid the loop
    removes one cell and then never reaches [removed == count]. *)
Lemma removeNumbers_constant_draws_diverge :
  is9x9 sampleSolution /\ complete sampleSolution /\ 2 <= 81 /\
  (forall j : nat, (fun _ : nat => 0) j < 9) /\
  ~ (exists fuel grid' k',
       removeNumbers (fun _ => 0) fuel sampleSolution 2 0 = Carved grid' k').
Proof.
  split; [exact sampleSolution_9x9 |].
  split; [exact sampleSolution_complete |].
  split; [lia |]. split; [intros j; lia |].
  intros (fuel & grid' & k' & Hrun).
  destruct fuel as [|fuel]; [discriminate |].
  unfold removeNumbers in Hrun. simpl in Hrun.
  rewrite removeLoop_stuck in Hrun; [discriminate | reflexivity].
Qed.

(** C7, amended.  On a complete 9x9 grid, with [count <= 81] and draws in
    0..8, the loop of [removeNumbers] reaches [removed == count] after
    finitely many iterations exactly when the sequence of picks contains
    [count] distinct cells. *)
Theorem removeNumbers_terminates_iff (rand9 : nat -> nat) (grid : Grid)
    (count k : nat) :
  is9x9 grid -> complete grid -> count <= 81 ->
  (forall j, rand9 j < 9) ->
  (exists fuel grid' k',
     removeNumbers rand9 fuel grid count k = Carved grid' k') <->
  (exists cells,
     NoDup cells /\ length cells = count /\
     forall p, p ∈ cells -> exists i, pick rand9 k i = p).
Proof.
  intros H9 Hc Hcount Hrange. split.
  - intros (fuel & grid' & k' & Hrun). unfold removeNumbers in Hrun.
    destruct (removeLoop_spec rand9 Hrange count fuel grid 0 k grid' k' H9
                ltac:(lia) Hrun)
      as (cells & Hnd & Hlen & Hcells & _).
    exists cells. split; [exact Hnd | split; [exact Hlen |]].
    intros p Hp. destruct (Hcells p Hp) as (_ & _ & _ & i & _ & Hi). eauto.
  - intros (cells & Hnd & Hlen & Hcells).
    destruct (picks_bounded (fun i p => pick rand9 k i = p) cells Hcells)
      as [fuel Hfuel].
    exists fuel.
    apply (removeLoop_terminates rand9 Hrange count fuel grid 0 k cells);
      auto; [lia |].
    intros p Hp. split; [| apply Hfuel; exact Hp].
    destruct (Hcells p Hp) as (i & <-). unfold pick. cbn [fst snd].
    destruct (is9x9_get grid (rand9 (k + 2 * i)) (rand9 (k + 2 * i + 1)) H9)
      as [v Hv]; auto.
    rewrite Hv. intros E. inversion E; subst.
    exact (complete_get _ _ _ _ Hc Hv eq_refl).
Qed.

Lemma removeNumbers_terminates_iff_witness :
  (exists fuel grid' k',
     removeNumbers (fun j => j mod 9) fuel sampleSolution 5 0 = Carved grid' k') <->
  (exists cells,
     NoDup cells /\ length cells = 5 /\
     forall p, p ∈ cells -> exists i, pick (fun j => j mod 9) 0 i = p).
Proof.
  apply (removeNumbers_terminates_iff (fun j => j mod 9) sampleSolution 5 0).
  - exact sampleSolution_9x9.
  - exact sampleSolution_complete.
  - lia.
  - intros j. apply Nat.mod_upper_bound. lia.
Defined.

(** ** The fingerprint *)

Example hashPuzzle_sample :
  hashPuzzle [ [5; 3; 0]; [6; 0; 0]; [0; 9; 8] ]%Z = "530600098".
Proof. reflexivity. Qed.

Lemma append_cons (a : Ascii.ascii) (s t : string) :
  String a s +:+ t = String a (s +:+ t).
Proof. reflexivity. Qed.

Lemma append_single (a : Ascii.ascii) (t : string) :
  String a EmptyString +:+ t = String a t.
Proof. reflexivity. Qed.

Lemma append_nil_r (s : string) : s +:+ EmptyString = s.
Proof.
  induction s as [|a s IH]; [reflexivity |].
  rewrite append_cons, IH. reflexivity.
Qed.

Lemma append_assoc (s t u : string) : (s +:+ t) +:+ u = s +:+ (t +:+ u).
Proof.
  induction s as [|a s IH]; [reflexivity |].
  rewrite !append_cons, IH. reflexivity.
Qed.

Lemma join_empty_cons (x : string) (xs : list string) :
  join EmptyString (x :: xs) = x +:+ join EmptyString xs.
Proof.
  unfold join. destruct xs as [|y ys].
  - cbn [String.concat]. rewrite append_nil_r. reflexivity.
  - reflexivity.
Qed.

Lemma join_empty_app (l1 l2 : list string) :
  join EmptyString (l1 ++ l2) = join EmptyString l1 +:+ join EmptyString l2.
Proof.
  induction l1 as [|x l1 IH].
  - reflexivity.
  - rewrite <- app_comm_cons, !join_empty_cons, IH, append_assoc.
    reflexivity.
Qed.

(** Joining the joined rows is joining the cells in row-major order. *)
Lemma hashPuzzle_row_major (puzzle : Grid) :
  hashPuzzle puzzle = join EmptyString (map numberToString (concat puzzle)).
Proof.
  unfold hashPuzzle. induction puzzle as [|row puzzle IH].
  - reflexivity.
  - cbn [map concat]. rewrite join_empty_cons, IH, map_app, join_empty_app.
    reflexivity.
Qed.

Lemma numberToString_digit v :
  (0 <= v <= 9)%Z -> exists ch, numberToString v = String ch EmptyString.
Proof.
  intros H.
  assert (v = 0 \/ v = 1 \/ v = 2 \/ v = 3 \/ v = 4 \/ v = 5 \/ v = 6 \/
          v = 7 \/ v = 8 \/ v = 9)%Z as Hv by lia.
  repeat (destruct Hv as [->|Hv]; [eexists; reflexivity |]).
  subst. eexists. reflexivity.
Qed.

Lemma join_digits_length (cells : list Z) :
  Forall (fun v => (0 <= v <= 9)%Z) cells ->
  String.length (join EmptyString (map numberToString cells)) = length cells.
Proof.
  induction 1 as [|v cells Hv _ IH]; [reflexivity |].
  cbn [map]. rewrite join_empty_cons.
  destruct (numberToString_digit v Hv) as [ch ->].
  rewrite append_single. simpl. rewrite IH.
  reflexivity.
Qed.

Lemma join_digits_inj (cells1 cells2 : list Z) :
  Forall (fun v => (0 <= v <= 9)%Z) cells1 ->
  Forall (fun v => (0 <= v <= 9)%Z) cells2 ->
  join EmptyString (map numberToString cells1) = join EmptyString (map numberToString cells2) ->
  cells1 = cells2.
Proof.
  intros H1. revert cells2.
  induction H1 as [|v1 cells1 Hv1 H1 IH]; intros cells2 H2 Heq.
  - pose proof (f_equal String.length Heq) as Hlen.
    rewrite (join_digits_length _ H2) in Hlen.
    destruct cells2; [reflexivity | discriminate].
  - destruct H2 as [|v2 cells2 Hv2 H2].
    + pose proof (f_equal String.length Heq) as Hlen.
      rewrite (join_digits_length (v1 :: cells1)) in Hlen
        by (constructor; assumption).
      discriminate.
    + cbn [map] in Heq. rewrite !join_empty_cons in Heq.
      destruct (numberToString_digit v1 Hv1) as [ch1 E1].
      destruct (numberToString_digit v2 Hv2) as [ch2 E2].
      rewrite E1, E2, !append_single in Heq. inversion Heq; subst ch2.
      f_equal.
      * apply (inj pretty). unfold numberToString in E1, E2. congruence.
      * apply IH; assumption.
Qed.

Lemma concat_inj_rows {A} (n : nat) (l1 l2 : list (list A)) :
  0 < n ->
  Forall (fun row => length row = n) l1 ->
  Forall (fun row => length row = n) l2 ->
  concat l1 = concat l2 -> l1 = l2.
Proof.
  intros Hn H1. revert l2.
  induction H1 as [|r1 l1 Hr1 H1 IH]; intros l2 H2 Heq.
  - destruct H2 as [|r2 l2 Hr2 H2]; [reflexivity |].
    simpl in Heq. destruct r2; [simpl in Hr2; lia | discriminate].
  - destruct H2 as [|r2 l2 Hr2 H2].
    + simpl in Heq. destruct r1; [simpl in Hr1; lia | discriminate].
    + simpl in Heq. apply app_inj_1 in Heq as [-> Heq]; [| congruence].
      f_equal. apply IH; assumption.
Qed.

Lemma digitCells_concat grid :
  digitCells grid -> Forall (fun v => (0 <= v <= 9)%Z) (concat grid).
Proof.
  induction 1 as [|row grid Hrow _ IH]; simpl; [constructor |].
  apply Forall_app. split; assumption.
Qed.

(** C9.  [hashPuzzle] is a function of the grid alone (equal grids give
    equal strings), it is the row-major concatenation of the cells'
    digits, 81 characters for a 9x9 grid of digits, and on 9x9 grids of
    digits 0..9 it is injective. *)
Theorem hashPuzzle_injective (p1 p2 : Grid) :
  is9x9 p1 -> digitCells p1 -> is9x9 p2 -> digitCells p2 ->
  hashPuzzle p1 = join EmptyString (map numberToString (concat p1)) /\
  String.length (hashPuzzle p1) = 81 /\
  (p1 = p2 -> hashPuzzle p1 = hashPuzzle p2) /\
  (hashPuzzle p1 = hashPuzzle p2 -> p1 = p2).
Proof.
  intros H91 Hd1 H92 Hd2.
  split; [apply hashPuzzle_row_major | split; [| split]].
  - rewrite hashPuzzle_row_major, join_digits_length
      by (apply digitCells_concat; exact Hd1).
    apply length_concat_9x9. exact H91.
  - intros ->. reflexivity.
  - rewrite !hashPuzzle_row_major. intros Heq.
    apply join_digits_inj in Heq; try (apply digitCells_concat; assumption).
    destruct H91 as [_ H91], H92 as [_ H92].
    apply (concat_inj_rows 9); auto. lia.
Qed.

Lemma hashPuzzle_injective_witness :
  hashPuzzle samplePuzzle =
    join EmptyString (map numberToString (concat samplePuzzle)) /\
  String.length (hashPuzzle samplePuzzle) = 81 /\
  (samplePuzzle = sampleSolution ->
   hashPuzzle samplePuzzle = hashPuzzle sampleSolution) /\
  (hashPuzzle samplePuzzle = hashPuzzle sampleSolution ->
   samplePuzzle = sampleSolution).
Proof.
  apply (hashPuzzle_injective samplePuzzle sampleSolution).
  - exact samplePuzzle_9x9.
  - exact samplePuzzle_digits.
  - exact sampleSolution_9x9.
  - exact sampleSolution_digits.
Defined.

Example hashPuzzle_samplePuzzle :
  hashPuzzle samplePuzzle =
  "103456789456789123789023456214365897365890214897214365531642908642978531078531642".
Proof. vm_compute. reflexivity. Qed.

(** ** The session *)

(** *** Field updates and the timer *)

Lemma set_board_same st : set_board (board st) st = st.
Proof. destruct st. reflexivity. Qed.

Lemma take_50_cap {A} (l : list A) :
  (if 50 <? length l then take 50 l else l) = take 50 l.
Proof.
  destruct (Nat.ltb_spec 50 (length l)); [reflexivity |].
  symmetry. apply take_ge. lia.
Qed.

Lemma clearTimer_halts st :
  timerInterval (clearTimer st) = None /\
  (timerOwned st -> activeTimers (clearTimer st) = []).
Proof.
  unfold clearTimer. destruct (timerInterval st) as [t|] eqn:Ht; simpl.
  - split; [reflexivity |]. intros Hown.
    assert (Hall : forall t', In t' (activeTimers st) -> t' = t).
    { intros t' Hin. specialize (Hown t' Hin). congruence. }
    revert Hall. generalize (activeTimers st). intros l.
    induction l as [|t' l IH]; intros Hall; [reflexivity |].
    simpl. rewrite (Hall t') by (simpl; auto). rewrite Pos.eqb_refl. simpl.
    apply IH. intros; apply Hall; simpl; auto.
  - split; [exact Ht |]. unfold timerOwned. intros Hown.
    destruct (activeTimers st) as [|t l] eqn:E; [reflexivity |].
    specialize (Hown t (or_introl eq_refl)). congruence.
Qed.

Lemma tick_halted st : activeTimers st = [] -> tick st = st.
Proof. unfold tick. intros ->. reflexivity. Qed.

(** *** Victory (C2) *)

Section Victory.

Variable JSON_stringify : list HistoryEntry -> string.
Variable now : Z.
Variable today : string.

Lemma checkVictory_cases st :
  is9x9 (board st) ->
  (solvedBoard st ->
   checkVictory JSON_stringify now today st =
   saveHistory JSON_stringify (victoryEntry now today st)
     (clearTimer (set_showVictoryModal true st))) /\
  (~ solvedBoard st -> checkVictory JSON_stringify now today st = st).
Proof.
  intros H9. unfold checkVictory.
  match goal with |- context [if ?b then _ else _] => destruct b eqn:E1 end.
  { split; [| reflexivity]. intros Hs.
    apply existsb_exists in E1 as ([r c] & Hin & Hz).
    apply in_allCells in Hin as [Hr Hc]. cbn [fst snd] in Hz.
    destruct (Hs r c Hr Hc) as (cell & Hcell & Hv & _).
    unfold boardValue in Hz. rewrite Hcell in Hz. simpl in Hz.
    apply Z.eqb_eq in Hz. contradiction. }
  match goal with |- context [if ?b then _ else _] => destruct b eqn:E2 end.
  { split; [| reflexivity]. intros Hs.
    apply existsb_exists in E2 as ([r c] & Hin & Hm).
    apply in_allCells in Hin as [Hr Hc]. cbn [fst snd] in Hm.
    destruct (Hs r c Hr Hc) as (cell & Hcell & _ & Hsol).
    unfold boardValue in Hm. rewrite Hcell, Hsol in Hm. simpl in Hm.
    rewrite bool_decide_eq_true_2 in Hm by reflexivity. discriminate. }
  split; [reflexivity |]. intros Hns. exfalso. apply Hns.
  rewrite existsb_false in E1, E2.
  intros r c Hr Hc.
  assert (Hin : In (r, c) allCells) by (apply in_allCells; lia).
  specialize (E1 _ Hin). specialize (E2 _ Hin). cbn [fst snd] in E1, E2.
  destruct (is9x9_get (board st) r c H9 Hr Hc) as [cell Hcell].
  unfold boardValue in E1, E2. rewrite Hcell in E1, E2. simpl in E1, E2.
  exists cell. split; [exact Hcell | split].
  - apply Z.eqb_neq. exact E1.
  - apply negb_false_iff, bool_decide_eq_true in E2. symmetry. exact E2.
Qed.

End Victory.

(** C2.  On a session whose board has its 81 cells: when every cell is
    non-zero and equals the solution at its place, [checkVictory] shows
    the victory modal (the session is won), stops the timer, and puts
    exactly one new entry at the head of the history (kept to its 50
    newest entries) and into the store; the entry carries
    [hintsUsed = hintBudget - hintsRemaining], the elapsed time, the
    difficulty, the timestamp and the fingerprint of the current puzzle.
    On any other board [checkVictory], called any number of times, leaves
    the whole state (board, hint budget and history included) as it
    is. *)
Theorem checkVictory_won_iff_solved
    (JSON_stringify : list HistoryEntry -> string) (st : State) :
  is9x9 (board st) ->
  (solvedBoard st ->
   forall now today,
     let st' := checkVictory JSON_stringify now today st in
     let entry := victoryEntry now today st in
     showVictoryModal st' = true /\
     (gameStarted st = true -> phase st' = Won) /\
     timerInterval st' = None /\
     (timerOwned st -> activeTimers st' = []) /\
     gameHistory st' = take 50 (entry :: gameHistory st) /\
     (length (gameHistory st) < 50 ->
      gameHistory st' = entry :: gameHistory st) /\
     storage st' = Some (JSON_stringify (gameHistory st')) /\
     hintsUsed entry =
       (hintsSettings (selectedDifficulty st) - hintsRemaining st)%Z /\
     time entry = elapsedTime st /\
     difficulty entry = selectedDifficulty st /\
     id entry = numberToString now /\ date entry = today /\
     puzzleHash entry = currentPuzzleHash st /\
     board st' = board st /\ hintsRemaining st' = hintsRemaining st) /\
  (~ solvedBoard st ->
   forall calls : list (Z * string),
     fold_left (fun s call =>
                  checkVictory JSON_stringify (fst call) (snd call) s)
               calls st = st).
Proof.
  intros H9. split.
  - intros Hs now today st' entry. subst st' entry.
    destruct (checkVictory_cases JSON_stringify now today st H9) as [Hwin _].
    rewrite (Hwin Hs). unfold saveHistory. rewrite take_50_cap.
    destruct (clearTimer_halts (set_showVictoryModal true st)) as [Hnone Hown].
    assert (Hfields : forall s, gameHistory (clearTimer s) = gameHistory s /\
              board (clearTimer s) = board s /\
              hintsRemaining (clearTimer s) = hintsRemaining s /\
              showVictoryModal (clearTimer s) = showVictoryModal s /\
              gameStarted (clearTimer s) = gameStarted s).
    { intros s. unfold clearTimer. destruct (timerInterval s); simpl; auto 6. }
    destruct (Hfields (set_showVictoryModal true st))
      as (Hh & Hb & Hr & Hv & Hg).
    unfold phase.
    cbn [gameHistory set_storage set_gameHistory showVictoryModal gameStarted
         timerInterval activeTimers storage board hintsRemaining].
    rewrite Hh, Hb, Hr, Hv, Hg, Hnone. simpl.
    repeat split; auto.
    + intros Hstarted. rewrite Hstarted. reflexivity.
    + intros Hlen. f_equal. apply take_ge. lia.
  - intros Hns calls. induction calls as [|[now today] calls IH].
    + reflexivity.
    + simpl.
      destruct (checkVictory_cases JSON_stringify now today st H9) as [_ Hno].
      rewrite (Hno Hns). exact IH.
Qed.

Lemma checkVictory_won_iff_solved_witness :
  (solvedBoard filledState ->
   forall now today,
     let st' := checkVictory countStringify now today filledState in
     let entry := victoryEntry now today filledState in
     showVictoryModal st' = true /\
     (gameStarted filledState = true -> phase st' = Won) /\
     timerInterval st' = None /\
     (timerOwned filledState -> activeTimers st' = []) /\
     gameHistory st' = take 50 (entry :: gameHistory filledState) /\
     (length (gameHistory filledState) < 50 ->
      gameHistory st' = entry :: gameHistory filledState) /\
     storage st' = Some (countStringify (gameHistory st')) /\
     hintsUsed entry =
       (hintsSettings (selectedDifficulty filledState) -
        hintsRemaining filledState)%Z /\
     time entry = elapsedTime filledState /\
     difficulty entry = selectedDifficulty filledState /\
     id entry = numberToString now /\ date entry = today /\
     puzzleHash entry = currentPuzzleHash filledState /\
     board st' = board filledState /\
     hintsRemaining st' = hintsRemaining filledState) /\
  (~ solvedBoard filledState ->
   forall calls : list (Z * string),
     fold_left (fun s call =>
                  checkVictory countStringify (fst call) (snd call) s)
               calls filledState = filledState).
Proof.
  apply (checkVictory_won_iff_solved countStringify filledState).
  exact filledState_9x9.
Defined.

Example checkVictory_filled :
  let st' := checkVictory countStringify 1700000000000 "today" filledState in
  showVictoryModal st' = true /\ activeTimers st' = [] /\
  gameHistory st' =
    [ {| id := "1700000000000"; difficulty := tutorial; time := 12;
         hintsUsed := 0; date := "today";
         puzzleHash := hashPuzzle samplePuzzle |} ] /\
  storage st' = Some "1".
Proof. vm_compute. repeat split. Qed.

(** *** Hints (C4) *)

Lemma NoDup_allCells : NoDup allCells.
Proof. apply (bool_decide_unpack _). vm_compute. exact I. Qed.

Lemma NoDup_List_filter {A} (f : A -> bool) (l : list A) :
  NoDup l -> NoDup (List.filter f l).
Proof.
  induction 1 as [|x l Hx Hnd IH]; simpl; [constructor |].
  destruct (f x); [| exact IH].
  constructor; [| exact IH].
  intros Hin. apply Hx. apply list_elem_of_In in Hin.
  apply filter_In in Hin as [Hin _]. apply list_elem_of_In. exact Hin.
Qed.

Lemma emptyCells_spec st r c :
  (r, c) ∈ emptyCells st <->
  r < 9 /\ c < 9 /\
  exists cell, get (board st) r c = Some cell /\
               isFixed cell = false /\ value cell = 0%Z.
Proof.
  unfold emptyCells. rewrite list_elem_of_In, filter_In, in_allCells.
  unfold isEmptyCell. cbn [fst snd]. split.
  - intros [[Hr Hc] He].
    destruct (get (board st) r c) as [cell|]; [| discriminate].
    apply andb_true_iff in He as [Hf Hv].
    apply negb_true_iff in Hf. apply Z.eqb_eq in Hv. eauto 6.
  - intros (Hr & Hc & cell & -> & Hf & Hv). split; [auto |].
    rewrite Hf, Hv. reflexivity.
Qed.

(** C4.  With no hint left, or with no cell that is both non-fixed and
    empty, [useHint] changes nothing.  Otherwise the cell it picks is the
    one at the drawn index of the list of non-fixed empty cells (a list
    without repetition of exactly those cells); read off the state
    [useHint] returns, that cell holds the value of the solution at its
    place and is fixed, every other cell and the solution are as they
    were, and [hintsRemaining] is one less than it was; a non-negative
    [hintsRemaining] stays non-negative. *)
Theorem useHint_spec (randomIndex : nat) (st : State) :
  solutionCovers st ->
  ((hintsRemaining st <= 0)%Z \/ emptyCells st = [] ->
   useHint randomIndex st = st) /\
  ((0 < hintsRemaining st)%Z -> randomIndex < length (emptyCells st) ->
   exists r c cell solutionValue,
     emptyCells st !! randomIndex = Some (r, c) /\
     get (board st) r c = Some cell /\
     isFixed cell = false /\ value cell = 0%Z /\
     get (solution st) r c = Some solutionValue /\
     useHint randomIndex st =
       set_hintsRemaining (hintsRemaining st - 1)
         (set_board (setCell (board st) r c
                       {| value := solutionValue; isFixed := true |}) st) /\
     hintsRemaining (useHint randomIndex st) = (hintsRemaining st - 1)%Z /\
     get (board (useHint randomIndex st)) r c =
       Some {| value := solutionValue; isFixed := true |} /\
     (forall r' c', (r', c') <> (r, c) ->
        get (board (useHint randomIndex st)) r' c' = get (board st) r' c') /\
     solution (useHint randomIndex st) = solution st) /\
  ((0 <= hintsRemaining st)%Z ->
   (0 <= hintsRemaining (useHint randomIndex st))%Z) /\
  NoDup (emptyCells st) /\
  (forall r c,
     (r, c) ∈ emptyCells st <->
     r < 9 /\ c < 9 /\
     exists cell, get (board st) r c = Some cell /\
                  isFixed cell = false /\ value cell = 0%Z).
Proof.
  intros Hcov.
  assert (Hpick : (0 < hintsRemaining st)%Z ->
            forall p, emptyCells st !! randomIndex = Some p ->
            exists cell solutionValue,
              get (board st) (fst p) (snd p) = Some cell /\
              isFixed cell = false /\ value cell = 0%Z /\
              get (solution st) (fst p) (snd p) = Some solutionValue /\
              useHint randomIndex st =
                set_hintsRemaining (hintsRemaining st - 1)
                  (set_board (setCell (board st) (fst p) (snd p)
                     {| value := solutionValue; isFixed := true |}) st)).
  { intros Hpos [r c] Hp.
    assert (Hin : (r, c) ∈ emptyCells st)
      by (apply list_elem_of_lookup; eauto).
    apply emptyCells_spec in Hin as (_ & _ & cell & Hcell & Hf & Hv).
    destruct (Hcov r c) as [sv Hsv]; [eauto |].
    exists cell, sv. cbn [fst snd].
    split; [exact Hcell | split; [exact Hf | split; [exact Hv |]]].
    split; [exact Hsv |].
    unfold useHint. destruct (Z.leb_spec (hintsRemaining st) 0); [lia |].
    destruct (emptyCells st) as [|q qs] eqn:E; [discriminate |].
    rewrite Hp. unfold reveal. cbn [fst snd]. rewrite Hcell, Hsv.
    reflexivity. }
  split; [| split; [| split; [| split]]].
  - intros [Hle|Hnil]; unfold useHint.
    + destruct (Z.leb_spec (hintsRemaining st) 0); [reflexivity | lia].
    + rewrite Hnil. destruct (hintsRemaining st <=? 0)%Z; reflexivity.
  - intros Hpos Hidx.
    destruct (lookup_lt_is_Some_2 _ _ Hidx) as [[r c] Hp].
    destruct (Hpick Hpos _ Hp) as (cell & sv & Hcell & Hf & Hv & Hsv & Heq).
    cbn [fst snd] in Hcell, Hf, Hv, Hsv, Heq.
    exists r, c, cell, sv.
    split; [exact Hp | split; [exact Hcell | split; [exact Hf |]]].
    split; [exact Hv | split; [exact Hsv | split; [exact Heq |]]].
    rewrite Heq. cbn [hintsRemaining board solution set_hintsRemaining
                      set_board].
    split; [reflexivity | split; [| split; [| reflexivity]]].
    + apply get_setCell_same. eauto.
    + intros r' c' Hne. apply get_setCell_other. exact Hne.
  - intros Hnn.
    destruct (Z.leb_spec (hintsRemaining st) 0) as [Hle|Hpos].
    + unfold useHint.
      destruct (Z.leb_spec (hintsRemaining st) 0); [exact Hnn | lia].
    + destruct (emptyCells st !! randomIndex) as [p|] eqn:Hp.
      * destruct (Hpick Hpos _ eq_refl) as (cell & sv & _ & _ & _ & _ & ->).
        simpl. lia.
      * unfold useHint.
        destruct (hintsRemaining st <=? 0)%Z; [exact Hnn |].
        destruct (emptyCells st); [exact Hnn |]. rewrite Hp. exact Hnn.
  - apply NoDup_List_filter, NoDup_allCells.
  - apply emptyCells_spec.
Qed.

Lemma useHint_spec_witness :
  ((hintsRemaining playingState <= 0)%Z \/ emptyCells playingState = [] ->
   useHint 2 playingState = playingState) /\
  ((0 < hintsRemaining playingState)%Z ->
   2 < length (emptyCells playingState) ->
   exists r c cell solutionValue,
     emptyCells playingState !! 2 = Some (r, c) /\
     get (board playingState) r c = Some cell /\
     isFixed cell = false /\ value cell = 0%Z /\
     get (solution playingState) r c = Some solutionValue /\
     useHint 2 playingState =
       set_hintsRemaining (hintsRemaining playingState - 1)
         (set_board (setCell (board playingState) r c
                       {| value := solutionValue; isFixed := true |})
                    playingState) /\
     hintsRemaining (useHint 2 playingState) =
       (hintsRemaining playingState - 1)%Z /\
     get (board (useHint 2 playingState)) r c =
       Some {| value := solutionValue; isFixed := true |} /\
     (forall r' c', (r', c') <> (r, c) ->
        get (board (useHint 2 playingState)) r' c' =
        get (board playingState) r' c') /\
     solution (useHint 2 playingState) = solution playingState) /\
  ((0 <= hintsRemaining playingState)%Z ->
   (0 <= hintsRemaining (useHint 2 playingState))%Z) /\
  NoDup (emptyCells playingState) /\
  (forall r c,
     (r, c) ∈ emptyCells playingState <->
     r < 9 /\ c < 9 /\
     exists cell, get (board playingState) r c = Some cell /\
                  isFixed cell = false /\ value cell = 0%Z).
Proof.
  apply (useHint_spec 2 playingState). exact playingState_covered.
Defined.

Example useHint_playing :
  emptyCells playingState = [(0, 1); (2, 3); (4, 5); (6, 7); (8, 0)] /\
  get (board (useHint 2 playingState)) 4 5 =
    Some {| value := 7; isFixed := true |} /\
  hintsRemaining (useHint 2 playingState) = 6%Z.
Proof. vm_compute. repeat split. Qed.

(** *** Loading the history (C5) *)

(** C5, as stated, fails: with an unparseable text in the store,
    [loadHistory] does not complete normally with an empty history, it
    throws. *)
Lemma loadHistory_unparseable_throws :
  storage (initialState (Some "{")) = Some "{" /\
  parseEmptyArrayOnly "{" = None /\
  loadHistory parseEmptyArrayOnly (initialState (Some "{")) =
    Thrown SyntaxError (initialState (Some "{")) /\
  ~ (exists st', loadHistory parseEmptyArrayOnly (initialState (Some "{")) =
                   Normal st' /\ gameHistory st' = []).
Proof.
  split; [reflexivity | split; [reflexivity | split; [reflexivity |]]].
  intros (st' & H & _). discriminate.
Qed.

(** C5, amended.  When nothing is stored (or the empty string is),
    [loadHistory] completes normally and leaves the state, hence the
    history, as it is: empty when the component has just been created.
    When the stored text fails to parse, the [SyntaxError] reaches the
    caller; the history is not assigned.  When it parses, the history is
    what it parses to. *)
Theorem loadHistory_spec
    (JSON_parse : string -> option (list HistoryEntry)) (st : State) :
  (storage st = None \/ storage st = Some EmptyString ->
   loadHistory JSON_parse st = Normal st) /\
  (forall stored,
     storage st = Some stored -> stored <> EmptyString ->
     JSON_parse stored = None ->
     loadHistory JSON_parse st = Thrown SyntaxError st) /\
  (forall stored history,
     storage st = Some stored -> stored <> EmptyString ->
     JSON_parse stored = Some history ->
     loadHistory JSON_parse st = Normal (set_gameHistory history st)) /\
  (forall stored, gameHistory (initialState stored) = []).
Proof.
  unfold loadHistory. split; [| split; [| split]].
  - intros [-> | ->]; reflexivity.
  - intros stored -> Hne Hparse.
    destruct stored as [|a rest]; [contradiction |]. rewrite Hparse. reflexivity.
  - intros stored history -> Hne Hparse.
    destruct stored as [|a rest]; [contradiction |]. rewrite Hparse. reflexivity.
  - reflexivity.
Qed.

(** *** Editing a cell (C6) *)



(** *** Giving up (C8) *)

Lemma reveal_frame st p : reveal st p = set_board (board (reveal st p)) st.
Proof.
  unfold reveal.
  destruct (get (board st) (fst p) (snd p));
    [destruct (get (solution st) (fst p) (snd p)) |];
    simpl; try reflexivity; symmetry; apply set_board_same.
Qed.

Lemma reveal_get st p r c :
  get (board (reveal st p)) r c =
  if decide ((r, c) = p) then revealed st r c else get (board st) r c.
Proof.
  unfold reveal, revealed. destruct p as [pr pc]. cbn [fst snd].
  destruct (decide ((r, c) = (pr, pc))) as [E|E].
  - injection E as -> ->.
    destruct (get (board st) pr pc) as [cell|] eqn:Hcell; [| exact Hcell].
    destruct (get (solution st) pr pc) as [sv|]; [| exact Hcell].
    simpl. apply get_setCell_same. eauto.
  - destruct (get (board st) pr pc) as [cell|]; [| reflexivity].
    destruct (get (solution st) pr pc) as [sv|]; [| reflexivity].
    simpl. apply get_setCell_other. exact E.
Qed.

Lemma reveal_revealed st p r c :
  revealed (reveal st p) r c = revealed st r c.
Proof.
  unfold revealed at 1. rewrite reveal_get.
  rewrite (reveal_frame st p). cbn [solution set_board].
  destruct (decide ((r, c) = p)); [| reflexivity].
  unfold revealed.
  destruct (get (board st) r c); [| reflexivity].
  destruct (get (solution st) r c); reflexivity.
Qed.

Lemma fold_reveal cells : forall st,
  let st' := fold_left reveal cells st in
  st' = set_board (board st') st /\
  forall r c,
    get (board st') r c =
    if decide ((r, c) ∈ cells) then revealed st r c else get (board st) r c.
Proof.
  induction cells as [|p cells IH]; intros st; cbn [fold_left].
  - split; [symmetry; apply set_board_same |].
    intros r c. rewrite decide_False; [reflexivity |]. apply not_elem_of_nil.
  - destruct (IH (reveal st p)) as [Hframe Hget]. split.
    + rewrite Hframe at 1. rewrite (reveal_frame st p). reflexivity.
    + intros r c. rewrite Hget, reveal_revealed, reveal_get.
      destruct (decide ((r, c) ∈ cells)) as [Hin|Hnin].
      * rewrite decide_True; [reflexivity |]. apply elem_of_cons. auto.
      * destruct (decide ((r, c) = p)) as [E|E].
        { rewrite decide_True; [reflexivity |]. apply elem_of_cons. auto. }
        rewrite decide_False; [reflexivity |].
        intros H. apply elem_of_cons in H as [?|?]; contradiction.
Qed.

Lemma fold_reveal_9x9 cells : forall st,
  is9x9 (board st) -> is9x9 (board (fold_left reveal cells st)).
Proof.
  induction cells as [|p cells IH]; intros st H; [exact H |].
  cbn [fold_left]. apply IH. unfold reveal.
  destruct (get (board st) (fst p) (snd p)); [| exact H].
  destruct (get (solution st) (fst p) (snd p)); [| exact H].
  simpl. apply is9x9_setCell. exact H.
Qed.

Lemma all_cells_fixed (cells : list (list Cell)) :
  is9x9 cells ->
  (forall r c, r < 9 -> c < 9 ->
     exists cell, get cells r c = Some cell /\ isFixed cell = true) ->
  Forall (Forall (fun cell => isFixed cell = true)) cells.
Proof.
  intros [Hlen Hrows] Hcells. apply Forall_forall. intros row Hin.
  apply Forall_forall. intros cell Hcell.
  apply list_elem_of_lookup in Hin as [r Hr].
  apply list_elem_of_lookup in Hcell as [c Hc].
  assert (r < 9) by (apply lookup_lt_Some in Hr; lia).
  assert (c < 9).
  { rewrite Forall_forall in Hrows.
    apply lookup_lt_Some in Hc. rewrite (Hrows row) in Hc; [lia |].
    apply list_elem_of_lookup. eauto. }
  destruct (Hcells r c) as (cell' & Hrc & Hfix); [lia | lia |].
  unfold get in Hrc. rewrite Hr, Hc in Hrc. congruence.
Qed.

(** X24.  In a session whose board and solution are 9x9, after the
    player asks to give up and confirms: each of the 81 cells holds the
    value of the solution at its place and is fixed; the timer variable is
    null; if every running interval was the one the timer variable
    referred to, no interval runs any more and a second that passes
    changes nothing; the history, the store and the solution are what
    they were. *)
Theorem confirmGiveUp_reveals (st : State) :
  is9x9 (board st) -> is9x9 (solution st) ->
  let st' := confirmGiveUp (askGiveUp st) in
  (forall r c, r < 9 -> c < 9 ->
     exists solutionValue,
       get (solution st) r c = Some solutionValue /\
       get (board st') r c =
         Some {| value := solutionValue; isFixed := true |}) /\
  is9x9 (board st') /\
  Forall (Forall (fun cell => isFixed cell = true)) (board st') /\
  hasGivenUp st' = true /\
  timerInterval st' = None /\
  (timerOwned st -> activeTimers st' = [] /\ tick st' = st') /\
  gameHistory st' = gameHistory st /\
  storage st' = storage st /\
  solution st' = solution st.
Proof.
  intros Hb Hs st'. subst st'. unfold confirmGiveUp, askGiveUp.
  set (st0 := set_hasGivenUp true
                (set_showGiveUpModal false
                   (clearTimer (set_showGiveUpModal true st)))).
  destruct (clearTimer_halts (set_showGiveUpModal true st)) as [Hnone Hown].
  assert (Hfields : board st0 = board st /\ solution st0 = solution st /\
            gameHistory st0 = gameHistory st /\ storage st0 = storage st /\
            hasGivenUp st0 = true /\ timerInterval st0 = None /\
            (timerOwned st -> activeTimers st0 = [])).
  { unfold st0. cbn [board solution gameHistory storage hasGivenUp
                     timerInterval activeTimers set_hasGivenUp
                     set_showGiveUpModal].
    unfold clearTimer in *.
    destruct (timerInterval (set_showGiveUpModal true st));
      cbn [board solution gameHistory storage set_timer
           set_showGiveUpModal] in *; auto 10. }
  clearbody st0.
  destruct Hfields as (Hboard & Hsol & Hhist & Hstore & Hgave & Htimer & Hact).
  destruct (fold_reveal allCells st0) as [Hframe Hget].
  assert (H9' : is9x9 (board (fold_left reveal allCells st0)))
    by (apply fold_reveal_9x9; rewrite Hboard; exact Hb).
  remember (fold_left reveal allCells st0) as st1 eqn:E1. clear E1.
  assert (Hcells : forall r c, r < 9 -> c < 9 ->
            exists sv, get (solution st) r c = Some sv /\
              get (board st1) r c = Some {| value := sv; isFixed := true |}).
  { intros r c Hr Hc.
    destruct (is9x9_get (solution st) r c Hs Hr Hc) as [sv Hsv].
    destruct (is9x9_get (board st) r c Hb Hr Hc) as [cell Hcell].
    exists sv. split; [exact Hsv |].
    rewrite Hget. rewrite decide_True
      by (apply list_elem_of_In, in_allCells; lia).
    unfold revealed. rewrite Hboard, Hsol, Hcell, Hsv. reflexivity. }
  split; [exact Hcells | split; [exact H9' | split]].
  - apply all_cells_fixed; [exact H9' |].
    intros r c Hr Hc. destruct (Hcells r c Hr Hc) as (sv & _ & Hrc).
    eexists. split; [exact Hrc | reflexivity].
  - rewrite Hframe. cbn [hasGivenUp timerInterval activeTimers gameHistory
                          storage solution set_board].
    split; [exact Hgave | split; [exact Htimer |]].
    split; [| split; [exact Hhist | split; [exact Hstore | exact Hsol]]].
    intros Ht. split; [exact (Hact Ht) |].
    rewrite <- Hframe. apply tick_halted. rewrite Hframe. exact (Hact Ht).
Qed.

Lemma confirmGiveUp_reveals_witness :
  let st' := confirmGiveUp (askGiveUp playingState) in
  (forall r c, r < 9 -> c < 9 ->
     exists solutionValue,
       get (solution playingState) r c = Some solutionValue /\
       get (board st') r c =
         Some {| value := solutionValue; isFixed := true |}) /\
  is9x9 (board st') /\
  Forall (Forall (fun cell => isFixed cell = true)) (board st') /\
  hasGivenUp st' = true /\
  timerInterval st' = None /\
  (timerOwned playingState -> activeTimers st' = [] /\ tick st' = st') /\
  gameHistory st' = gameHistory playingState /\
  storage st' = storage playingState /\
  solution st' = solution playingState.
Proof.
  apply (confirmGiveUp_reveals playingState).
  - exact playingState_9x9.
  - exact sampleSolution_9x9.
Defined.

Example confirmGiveUp_playing :
  let st' := confirmGiveUp (askGiveUp playingState) in
  map (map value) (board st') = sampleSolution /\
  activeTimers st' = [] /\ gameHistory st' = [] /\
  elapsedTime (tick playingState) = 13%Z /\
  elapsedTime (tick st') = 12%Z.
Proof. vm_compute. repeat split. Qed.

(** *** Starting a game *)

Section GeneratorFacts.

Variable shuffle : nat -> list Z.
Variable rand9 : nat -> nat.
Hypothesis shuffle_perm : forall j, shuffle j ≡ₚ digits.
Hypothesis rand9_range : forall j, rand9 j < 9.

Lemma solved_complete grid : is9x9 grid -> solved grid -> complete grid.
Proof.
  intros [Hlen Hrows] [Hw _]. apply Forall_forall. intros row Hin.
  apply Forall_forall. intros v Hv.
  apply list_elem_of_lookup in Hin as [r Hr].
  apply list_elem_of_lookup in Hv as [c Hc].
  assert (r < 9) by (apply lookup_lt_Some in Hr; lia).
  assert (c < 9).
  { rewrite Forall_forall in Hrows.
    apply lookup_lt_Some in Hc. rewrite (Hrows row) in Hc; [lia |].
    apply list_elem_of_lookup. eauto. }
  destruct (Hw r c) as (v' & Hget & Hrange); [lia | lia |].
  unfold get in Hget. rewrite Hr, Hc in Hget. inversion Hget; subst. lia.
Qed.

Lemma generateSudoku_generated fuel d k puzzle full k' :
  generateSudoku shuffle rand9 fuel d k = Some (puzzle, full, k') ->
  generated d puzzle full.
Proof.
  unfold generateSudoku. intros Hgen.
  assert (Hzero : forall r c, r < 9 -> c < 9 -> get emptyGrid r c = Some 0%Z).
  { intros r c Hr Hc.
    do 9 (destruct r as [|r];
          [do 9 (destruct c as [|c]; [reflexivity |]); lia |]). lia. }
  assert (Hinv : searchInv emptyGrid).
  { split; [split; [reflexivity | repeat constructor] | split].
    - intros r c Hr Hc. exists 0%Z. split; [auto | lia].
    - intros r c r' c' v Hr Hc _ _ _ _ Hget Hv.
      rewrite Hzero in Hget by assumption. congruence. }
  destruct (fillGrid_inv shuffle searchInv (searchInv_step shuffle shuffle_perm)
              81 emptyGrid k (zeros_le_81 _) Hinv)
    as ([[b g] k1] & Hres & Hpost).
  destruct (fillGrid_complete shuffle sampleSolution sampleSolution_solved)
    with (fuel := 81) (grid := emptyGrid) (k := k) as (g2 & k2 & Hres2).
  { intros j v Hv. eapply Permutation_in; [symmetry; apply shuffle_perm | exact Hv]. }
  { apply zeros_le_81. }
  { intros r c Hr Hc. left. auto. }
  rewrite Hres in Hres2. inversion Hres2; subst b g2 k2. clear Hres2.
  rewrite Hres in Hgen. simpl in Hpost.
  destruct Hpost as [(H9 & Hw & Hnc) Hfull].
  pose proof (solved_of_full g Hw Hnc Hfull) as Hsolved.
  destruct (removeNumbers rand9 fuel g (difficultySettings d) k1)
    as [p kp| |] eqn:Hcarve; try discriminate.
  inversion Hgen; subst p full kp. clear Hgen.
  assert (Hcount : difficultySettings d <= 81) by (destruct d; simpl; lia).
  assert (Hle : 0 <= difficultySettings d) by lia.
  destruct (removeLoop_spec rand9 rand9_range (difficultySettings d) fuel g 0
              k1 puzzle k' H9 Hle Hcarve)
    as (cells & _ & Hlen & _ & Hz & Hnz & H9p).
  split; [exact H9 | split; [exact Hsolved | split; [exact H9p | split]]].
  - intros r c _ _. rewrite (Hz r c).
    destruct (decide ((r, c) ∈ cells)); auto.
  - rewrite (nonZeroCount_complete g H9 (solved_complete g H9 Hsolved)) in Hnz.
    lia.
Qed.

Lemma generateFresh_generated remaining fuel d st : forall k puzzle full hash k',
  generateFresh shuffle rand9 remaining fuel d st k =
    Some (puzzle, full, hash, k') ->
  generated d puzzle full /\ hash = hashPuzzle puzzle.
Proof.
  induction remaining as [|n IH]; intros k puzzle full hash k' H; simpl in H;
    destruct (generateSudoku shuffle rand9 fuel d k) as [[[p f] k1]|] eqn:Hgen;
    try discriminate.
  - inversion H; subst. split; [| reflexivity].
    eapply generateSudoku_generated; eauto.
  - destruct (isPuzzleUsed (hashPuzzle p) st).
    + eapply IH; eauto.
    + inversion H; subst. split; [| reflexivity].
      eapply generateSudoku_generated; eauto.
Qed.

(** The session [startGame] sets up: a 9x9 board built from a generated
    puzzle, given cells fixed, with its solution and its fingerprint, the
    hint budget of the difficulty, the clock at 0 and one running
    interval. *)
Lemma startGame_session fuel st k st' k' :
  startGame shuffle rand9 fuel st k = Some (st', k') ->
  (exists puzzle,
     generated (selectedDifficulty st) puzzle (solution st') /\
     board st' = boardOf puzzle /\
     currentPuzzleHash st' = hashPuzzle puzzle) /\
  is9x9 (board st') /\ is9x9 (solution st') /\
  hintsRemaining st' = hintsSettings (selectedDifficulty st) /\
  elapsedTime st' = 0%Z /\ gameStarted st' = true /\
  gameHistory st' = gameHistory st /\
  (timerOwned st -> timerOwned st').
Proof.
  unfold startGame, initBoard. cbn [selectedDifficulty].
  match goal with
  | |- context [generateFresh _ _ _ _ _ ?s _] => set (st1 := s)
  end.
  destruct (generateFresh shuffle rand9 9 fuel (selectedDifficulty st) st1 k)
    as [[[[puzzle full] hash] k1]|] eqn:Hgen; [| discriminate].
  intros H. inversion H; subst st' k'. clear H.
  destruct (generateFresh_generated _ _ _ _ _ _ _ _ _ Hgen) as [Hgend ->].
  match goal with
  | |- context [startTimer ?s] => set (st2 := s)
  end.
  assert (Hclear : forall s, board (clearTimer s) = board s /\
            solution (clearTimer s) = solution s /\
            currentPuzzleHash (clearTimer s) = currentPuzzleHash s /\
            hintsRemaining (clearTimer s) = hintsRemaining s /\
            elapsedTime (clearTimer s) = elapsedTime s /\
            gameStarted (clearTimer s) = gameStarted s /\
            gameHistory (clearTimer s) = gameHistory s).
  { intros s. unfold clearTimer. destruct (timerInterval s); simpl; auto 10. }
  destruct (Hclear (set_elapsedTime 0 st2)) as (Hb & Hs & Hh & Hr & He & Hg & Hi).
  unfold startTimer. cbn [board solution currentPuzzleHash hintsRemaining
                          elapsedTime gameStarted gameHistory timerInterval
                          activeTimers].
  rewrite Hb, Hs, Hh, Hr, He, Hg, Hi.
  cbn [board solution currentPuzzleHash hintsRemaining elapsedTime
       gameStarted gameHistory set_elapsedTime st2 st1].
  pose proof Hgend as (H9f & Hsolved & H9p & Hpart & Hnz).
  split; [exists puzzle; split; [exact Hgend | split; reflexivity] |].
  split; [apply boardOf_9x9; exact H9p |].
  split; [exact H9f |].
  repeat (split; [reflexivity |]).
  intros Hown.
  destruct (clearTimer_halts (set_elapsedTime 0 st2)) as [_ Hact].
  unfold timerOwned. cbn [activeTimers timerInterval].
  rewrite Hact by exact Hown.
  intros t [<-|[]]. reflexivity.
Qed.

End GeneratorFacts.

Example startGame_sample :
  match startGame (fun _ => digits) sweepDraws 100 (initialState None) 0 with
  | Some (st, _) =>
      phase st = Playing /\ solution st = sampleSolution /\
      nonZeroCount (map (map value) (board st)) = 41 /\
      hintsRemaining st = 3%Z /\ activeTimers st = [1%positive] /\
      currentPuzzleHash st = hashPuzzle (map (map value) (board st))
  | None => False
  end.
Proof. vm_compute. repeat split. Qed.

(** * Further properties *)

Example formatHistoryTime_samples :
  formatHistoryTime 0 = "0:00" /\ formatHistoryTime 59 = "0:59" /\
  formatHistoryTime 605 = "10:05" /\ formatHistoryTime 7325 = "122:05".
Proof. vm_compute. repeat split. Qed.

Example formattedTime_sample :
  formattedTime playingState = "00:12" /\
  formattedTime (set_elapsedTime 7325 playingState) = "122:05".
Proof. vm_compute. repeat split. Qed.

(** ** The validator and the filler *)

(** X1.  Inside the 9x9 window [isValid] accepts a number at a cell
    exactly when no cell of the same row, of the same column or of the
    same 3x3 block holds it; the cell itself counts, so a number is never
    accepted at a cell that already holds it. *)
Theorem isValid_accepts_iff (grid : Grid) (row col : nat) (num : Z) :
  row < 9 -> col < 9 ->
  (isValid grid row col num = true <->
   forall r c, r < 9 -> c < 9 ->
     r = row \/ c = col \/ (r / 3 = row / 3 /\ c / 3 = col / 3) ->
     get grid r c <> Some num) /\
  (get grid row col = Some num -> isValid grid row col num = false).
Proof.
  intros Hr Hc.
  assert (Hiff : isValid grid row col num = true <->
            forall r c, r < 9 -> c < 9 ->
              r = row \/ c = col \/ (r / 3 = row / 3 /\ c / 3 = col / 3) ->
              get grid r c <> Some num).
  { rewrite (isValid_peers grid row col num Hr Hc). unfold peer.
    cbn [fst snd]. split; intros H r c Hr9 Hc9 Hp; apply H; auto;
      destruct Hp as [->|[->|[H1 H2]]]; auto. }
  split; [exact Hiff |].
  intros Hget. destruct (isValid grid row col num) eqn:E; [| reflexivity].
  exfalso. apply (proj1 Hiff eq_refl row col Hr Hc); auto.
Qed.

Lemma isValid_accepts_iff_witness :
  (isValid samplePuzzle 0 1 2 = true <->
   forall r c, r < 9 -> c < 9 ->
     r = 0 \/ c = 1 \/ (r / 3 = 0 / 3 /\ c / 3 = 1 / 3) ->
     get samplePuzzle r c <> Some 2%Z) /\
  (get samplePuzzle 0 1 = Some 2%Z -> isValid samplePuzzle 0 1 2 = false).
Proof. apply (isValid_accepts_iff samplePuzzle 0 1 2); lia. Defined.

Lemma noConflict_place grid row col num :
  noConflict grid -> row < 9 -> col < 9 -> is_Some (get grid row col) ->
  isValid grid row col num = true ->
  noConflict (setCell grid row col num).
Proof.
  intros Hnc Hr Hc Hsome Hv.
  pose proof (proj1 (isValid_peers grid row col num Hr Hc) Hv) as Hpeers.
  intros r c r' c' v Hr9 Hc9 Hr9' Hc9' Hne Hp Hget Hv0 Hget'.
  destruct (decide ((r, c) = (row, col))) as [E|E];
    destruct (decide ((r', c') = (row, col))) as [E'|E'].
  - congruence.
  - inversion E; subst.
    rewrite get_setCell_same in Hget by exact Hsome.
    rewrite get_setCell_other in Hget' by exact E'.
    inversion Hget; subst. exact (Hpeers r' c' Hr9' Hc9' Hp Hget').
  - inversion E'; subst.
    rewrite get_setCell_same in Hget' by exact Hsome.
    rewrite get_setCell_other in Hget by exact E.
    inversion Hget'; subst.
    exact (Hpeers r c Hr9 Hc9 (peer_sym _ _ Hp) Hget).
  - rewrite get_setCell_other in Hget by exact E.
    rewrite get_setCell_other in Hget' by exact E'.
    exact (Hnc r c r' c' v Hr9 Hc9 Hr9' Hc9' Hne Hp Hget Hv0 Hget').
Qed.

(** X2.  On a grid without conflicts, writing a non-zero number into an
    empty cell of the window leaves the grid without conflicts exactly
    when [isValid] accepts that number there. *)
Theorem isValid_iff_placement_safe (grid : Grid) (row col : nat) (num : Z) :
  noConflict grid -> row < 9 -> col < 9 ->
  get grid row col = Some 0%Z -> num <> 0%Z ->
  (isValid grid row col num = true <->
   noConflict (setCell grid row col num)).
Proof.
  intros Hnc Hr Hc Hget Hnum. split.
  - apply noConflict_place; eauto.
  - intros Hnc'. apply isValid_peers; [exact Hr | exact Hc |].
    intros r c Hr9 Hc9 Hp Hrc.
    destruct (decide ((r, c) = (row, col))) as [E|E].
    + inversion E; subst. congruence.
    + apply (Hnc' row col r c num Hr Hc Hr9 Hc9); auto.
      * apply get_setCell_same. eauto.
      * rewrite get_setCell_other by exact E. exact Hrc.
Qed.

Lemma partialOf_searchInv grid full :
  is9x9 grid -> solved full -> partialOf grid full -> searchInv grid.
Proof.
  intros H9 [Hw Hnc] Hp. split; [exact H9 | split].
  - intros r c Hr Hc. destruct (Hp r c Hr Hc) as [H0|Heq].
    + exists 0%Z. split; [exact H0 | lia].
    + destruct (Hw r c Hr Hc) as (v & Hv & Hrange).
      exists v. split; [congruence | lia].
  - intros r c r' c' v Hr Hc Hr' Hc' Hne Hpeer Hget Hv Hget'.
    destruct (Hp r c Hr Hc) as [H0|Heq]; [congruence |].
    destruct (Hp r' c' Hr' Hc') as [H0'|Heq']; [congruence |].
    apply (Hnc r c r' c' v Hr Hc Hr' Hc' Hne Hpeer); congruence.
Qed.

Lemma samplePuzzle_partial : partialOf samplePuzzle sampleSolution.
Proof.
  intros r c Hr Hc.
  do 9 (destruct r as [|r];
        [do 9 (destruct c as [|c];
               [first [left; reflexivity | right; reflexivity] |]); lia |]).
  lia.
Qed.

Lemma samplePuzzle_searchInv : searchInv samplePuzzle.
Proof.
  apply (partialOf_searchInv samplePuzzle sampleSolution).
  - exact samplePuzzle_9x9.
  - exact sampleSolution_solved.
  - exact samplePuzzle_partial.
Qed.

Lemma isValid_iff_placement_safe_witness :
  isValid samplePuzzle 0 1 2 = true <->
  noConflict (setCell samplePuzzle 0 1 2%Z).
Proof.
  apply (isValid_iff_placement_safe samplePuzzle 0 1 2).
  - apply samplePuzzle_searchInv.
  - lia.
  - lia.
  - reflexivity.
  - lia.
Defined.

Lemma onlyZerosChanged_step grid0 grid row col num :
  onlyZerosChanged grid0 grid -> findEmpty grid = Some (row, col) ->
  onlyZerosChanged grid0 (setCell grid row col num).
Proof.
  intros Hinv Hf r c Hne.
  destruct (findEmpty_Some _ _ _ Hf) as (Hr & Hc & Hget).
  destruct (decide ((r, c) = (row, col))) as [E|E].
  - inversion E; subst. split; [| lia].
    destruct (decide (get grid row col = get grid0 row col)) as [Heq|Hne'].
    + congruence.
    + apply Hinv. exact Hne'.
  - rewrite get_setCell_other in Hne by exact E. apply Hinv. exact Hne.
Qed.

(** X3.  [fillGrid] is a complete solver.  On a 9x9 grid of digits 0..9
    without conflicts, and whatever the shuffles produce (each one a
    permutation of 1..9), the call returns; it returns [true] exactly
    when the grid can be completed to a solved grid, and then the grid it
    leaves is solved and agrees with the grid it was given on every cell
    that was filled; it returns [false] with the grid untouched exactly
    when no completion exists. *)
Theorem fillGrid_decides_completion (shuffle : nat -> list Z) (grid : Grid)
    (k extra : nat) :
  (forall j, shuffle j ≡ₚ digits) -> searchInv grid ->
  exists b grid' k',
    fillGrid shuffle (81 + extra) grid k = Some (b, grid', k') /\
    (b = true <-> exists full, solved full /\ partialOf grid full) /\
    (b = true -> is9x9 grid' /\ solved grid' /\ partialOf grid grid') /\
    (b = false -> grid' = grid).
Proof.
  intros Hperm Hinv.
  assert (Hfuel : zeros grid <= 81 + extra)
    by (pose proof (zeros_le_81 grid); lia).
  destruct (fillGrid_inv shuffle
              (fun g => searchInv g /\ onlyZerosChanged grid g))
    with (fuel := 81 + extra) (grid := grid) (k := k)
    as ([[b g'] k'] & Hres & Hpost).
  { intros g row col j num [Hs Hz] Hf Hin Hv. split.
    - eapply searchInv_step; eauto.
    - apply onlyZerosChanged_step; assumption. }
  { exact Hfuel. }
  { split; [exact Hinv |]. intros r c Hne. congruence. }
  exists b, g', k'. split; [exact Hres |].
  assert (Htrue : b = true ->
            is9x9 g' /\ solved g' /\ partialOf grid g').
  { intros ->. simpl in Hpost.
    destruct Hpost as [[(H9 & Hw & Hnc) Hchanged] Hfull].
    split; [exact H9 | split; [apply solved_of_full; assumption |]].
    intros r c Hr Hc.
    destruct (decide (get g' r c = get grid r c)) as [Heq|Hne].
    - right. congruence.
    - left. apply (Hchanged r c Hne). }
  split; [split | split; [exact Htrue |]].
  - intros Hb. destruct (Htrue Hb) as (_ & Hs & Hp). eauto.
  - intros (full & Hsolved & Hpart).
    destruct (fillGrid_complete shuffle full Hsolved)
      with (fuel := 81 + extra) (grid := grid) (k := k) as (g2 & k2 & Hres2).
    { intros j v Hv. eapply Permutation_in; [symmetry; apply Hperm | exact Hv]. }
    { exact Hfuel. }
    { exact Hpart. }
    congruence.
  - intros ->. exact Hpost.
Qed.

Lemma fillGrid_decides_completion_witness :
  exists b grid' k',
    fillGrid (fun _ => digits) (81 + 0) samplePuzzle 0 = Some (b, grid', k') /\
    (b = true <-> exists full, solved full /\ partialOf samplePuzzle full) /\
    (b = true -> is9x9 grid' /\ solved grid' /\ partialOf samplePuzzle grid') /\
    (b = false -> grid' = samplePuzzle).
Proof.
  apply (fillGrid_decides_completion (fun _ => digits) samplePuzzle 0 0).
  - intros j. reflexivity.
  - exact samplePuzzle_searchInv.
Defined.

(** ** The carver and the generator *)

(** X4.  On any 9x9 grid, complete or not, with draws in 0..8: a run of
    [removeNumbers] that returns has turned exactly [count] non-zero
    cells into 0 and changed nothing else, so [count] was at most the
    number of non-zero cells; asked for more than the grid has, the loop
    never exits. *)
Theorem removeNumbers_any_grid (rand9 : nat -> nat) (fuel : nat)
    (grid : Grid) (count k : nat) :
  is9x9 grid -> (forall j, rand9 j < 9) ->
  (forall grid' k',
     removeNumbers rand9 fuel grid count k = Carved grid' k' ->
     count <= nonZeroCount grid /\
     nonZeroCount grid' = nonZeroCount grid - count /\
     is9x9 grid' /\
     forall r c,
       get grid' r c = get grid r c \/
       (get grid' r c = Some 0%Z /\ get grid r c <> Some 0%Z)) /\
  (nonZeroCount grid < count ->
   removeNumbers rand9 fuel grid count k = OutOfFuel).
Proof.
  intros H9 Hrange.
  assert (Hdone : forall grid' k',
            removeNumbers rand9 fuel grid count k = Carved grid' k' ->
            count <= nonZeroCount grid /\
            nonZeroCount grid' = nonZeroCount grid - count /\
            is9x9 grid' /\
            forall r c,
              get grid' r c = get grid r c \/
              (get grid' r c = Some 0%Z /\ get grid r c <> Some 0%Z)).
  { intros grid' k' Hrun. unfold removeNumbers in Hrun.
    assert (Hle : 0 <= count) by lia.
    destruct (removeLoop_spec rand9 Hrange count fuel grid 0 k grid' k' H9
                Hle Hrun)
      as (cells & _ & Hlen & Hcells & Hz & Hnz & H9').
    split; [lia | split; [lia | split; [exact H9' |]]].
    intros r c. rewrite (Hz r c).
    destruct (decide ((r, c) ∈ cells)) as [Hin|Hnin]; [| left; reflexivity].
    right. split; [reflexivity |].
    destruct (Hcells _ Hin) as (_ & _ & Hnz0 & _). exact Hnz0. }
  split; [exact Hdone |].
  intros Hmore.
  destruct (removeNumbers rand9 fuel grid count k) as [g' k'| |] eqn:Hrun.
  - destruct (Hdone g' k' eq_refl) as [Hle _]. lia.
  - reflexivity.
  - exfalso. exact (removeLoop_inside rand9 Hrange fuel grid count 0 k H9 Hrun).
Qed.

Lemma removeNumbers_any_grid_witness :
  (forall grid' k',
     removeNumbers (fun j => j mod 9) 20 samplePuzzle 3 0 = Carved grid' k' ->
     3 <= nonZeroCount samplePuzzle /\
     nonZeroCount grid' = nonZeroCount samplePuzzle - 3 /\
     is9x9 grid' /\
     forall r c,
       get grid' r c = get samplePuzzle r c \/
       (get grid' r c = Some 0%Z /\ get samplePuzzle r c <> Some 0%Z)) /\
  (nonZeroCount samplePuzzle < 3 ->
   removeNumbers (fun j => j mod 9) 20 samplePuzzle 3 0 = OutOfFuel).
Proof.
  apply (removeNumbers_any_grid (fun j => j mod 9) 20 samplePuzzle 3 0).
  - exact samplePuzzle_9x9.
  - intros j. apply Nat.mod_upper_bound. lia.
Defined.

Example removeNumbers_on_puzzle :
  nonZeroCount samplePuzzle = 76 /\
  (exists grid' k',
     removeNumbers (fun j => j mod 9) 20 samplePuzzle 3 0 = Carved grid' k' /\
     nonZeroCount grid' = 73) /\
  removeNumbers (fun j => j mod 9) 500 samplePuzzle 77 0 = OutOfFuel.
Proof.
  split; [reflexivity | split].
  - eexists _, _. split; [vm_compute; reflexivity | reflexivity].
  - vm_compute. reflexivity.
Qed.

Lemma sweepDraws_range j : sweepDraws j < 9.
Proof.
  unfold sweepDraws. destruct (Nat.even j); apply Nat.mod_upper_bound; lia.
Qed.

Lemma solved_rows grid :
  is9x9 grid -> solved grid -> Forall (fun row => row ≡ₚ digits) grid.
Proof.
  intros [Hlen Hlens] Hsolved. rewrite Forall_forall in Hlens.
  apply Forall_forall. intros row Hin.
  pose proof (Hlens row Hin) as Hrowlen.
  apply list_elem_of_lookup in Hin as [r Hr].
  rewrite <- (valuesAt_rowCells grid r row Hr Hrowlen).
  apply unit_permutation; [exact Hsolved |].
  apply rowCells_ok. apply lookup_lt_Some in Hr. lia.
Qed.

Lemma emptyGrid_get r c : r < 9 -> c < 9 -> get emptyGrid r c = Some 0%Z.
Proof.
  intros Hr Hc.
  do 9 (destruct r as [|r];
        [do 9 (destruct c as [|c]; [reflexivity |]); lia |]).
  lia.
Qed.

Lemma emptyGrid_searchInv : searchInv emptyGrid.
Proof.
  apply (partialOf_searchInv emptyGrid sampleSolution).
  - split; [reflexivity | repeat constructor].
  - exact sampleSolution_solved.
  - intros r c Hr Hc. left. apply emptyGrid_get; assumption.
Qed.

Lemma fillGrid_decides_on_empty shuffle :
  (forall j, shuffle j ≡ₚ digits) ->
  forall k, exists grid k1,
    fillGrid shuffle 81 emptyGrid k = Some (true, grid, k1) /\ is9x9 grid.
Proof.
  intros Hperm k.
  destruct (fillGrid_inv shuffle searchInv (searchInv_step shuffle Hperm)
              81 emptyGrid k (zeros_le_81 _) emptyGrid_searchInv)
    as ([[b g] k1] & Hres & Hpost).
  destruct (fillGrid_complete shuffle sampleSolution sampleSolution_solved)
    with (fuel := 81) (grid := emptyGrid) (k := k) as (g2 & k2 & Hres2).
  { intros j v Hv. eapply Permutation_in; [symmetry; apply Hperm | exact Hv]. }
  { apply zeros_le_81. }
  { intros r c Hr Hc. left. apply emptyGrid_get; assumption. }
  rewrite Hres in Hres2. inversion Hres2; subst b g2 k2.
  exists g, k1. split; [exact Hres |]. simpl in Hpost. apply Hpost.
Qed.

(** X5.  Whatever the shuffles (permutations of 1..9) and the draws
    (below 9): when [generateSudoku] returns, the solution is a solved
    9x9 grid, each of its rows a permutation of 1..9, and the puzzle is a
    9x9 grid that agrees with the solution on every cell it has not
    blanked and has exactly 81 minus the difficulty's count of non-zero
    cells; and the only way it does not return is the carving loop
    running beyond its bound on the filled grid. *)
Theorem generateSudoku_spec (shuffle : nat -> list Z) (rand9 : nat -> nat)
    (fuel : nat) (d : Difficulty) (k : nat) :
  (forall j, shuffle j ≡ₚ digits) -> (forall j, rand9 j < 9) ->
  match generateSudoku shuffle rand9 fuel d k with
  | Some (puzzle, full, _) =>
      generated d puzzle full /\ Forall (fun row => row ≡ₚ digits) full
  | None =>
      exists grid k1,
        fillGrid shuffle 81 emptyGrid k = Some (true, grid, k1) /\
        removeNumbers rand9 fuel grid (difficultySettings d) k1 = OutOfFuel
  end.
Proof.
  intros Hperm Hrange.
  destruct (generateSudoku shuffle rand9 fuel d k) as [[[puzzle full] k']|]
    eqn:Hgen.
  - pose proof (generateSudoku_generated shuffle rand9 Hperm Hrange
                  fuel d k puzzle full k' Hgen) as Hg.
    split; [exact Hg |].
    destruct Hg as (H9 & Hs & _). apply solved_rows; assumption.
  - unfold generateSudoku in Hgen.
    destruct (fillGrid_decides_on_empty shuffle Hperm k) as (g & k1 & Hfill & H9).
    rewrite Hfill in Hgen. exists g, k1. split; [exact Hfill |].
    destruct (removeNumbers rand9 fuel g (difficultySettings d) k1)
      as [p kp| |] eqn:Hcarve; [discriminate | reflexivity |].
    exfalso. exact (removeLoop_inside rand9 Hrange fuel g _ 0 k1 H9 Hcarve).
Qed.

Lemma generateSudoku_spec_witness :
  match generateSudoku (fun _ => digits) sweepDraws 100 medio 0 with
  | Some (puzzle, full, _) =>
      generated medio puzzle full /\ Forall (fun row => row ≡ₚ digits) full
  | None =>
      exists grid k1,
        fillGrid (fun _ => digits) 81 emptyGrid 0 = Some (true, grid, k1) /\
        removeNumbers sweepDraws 100 grid (difficultySettings medio) k1 =
          OutOfFuel
  end.
Proof.
  apply (generateSudoku_spec (fun _ => digits) sweepDraws 100 medio 0).
  - intros j. reflexivity.
  - exact sweepDraws_range.
Defined.

Example generateSudoku_sample :
  match generateSudoku (fun _ => digits) sweepDraws 100 medio 0 with
  | Some (puzzle, full, _) =>
      full = sampleSolution /\ nonZeroCount puzzle = 41
  | None => False
  end.
Proof. vm_compute. split; reflexivity. Qed.

Lemma boardOf_get puzzle r c :
  get (boardOf puzzle) r c =
  (fun v => {| value := v; isFixed := negb (v =? 0)%Z |}) <$> get puzzle r c.
Proof.
  unfold get, boardOf. rewrite list_lookup_fmap.
  destruct (puzzle !! r) as [row|]; [| reflexivity].
  simpl. rewrite list_lookup_fmap. reflexivity.
Qed.

Lemma boardOf_values puzzle : map (map value) (boardOf puzzle) = puzzle.
Proof.
  unfold boardOf. rewrite map_map.
  induction puzzle as [|row puzzle IH]; [reflexivity |].
  simpl. rewrite IH. f_equal.
  rewrite map_map. simpl. apply map_id.
Qed.

Lemma startGame_flags shuffle rand9 fuel st k st' k' :
  startGame shuffle rand9 fuel st k = Some (st', k') ->
  showModal st' = false /\
  showVictoryModal st' = showVictoryModal st /\
  hasGivenUp st' = hasGivenUp st /\ isPaused st' = isPaused st /\
  selectedDifficulty st' = selectedDifficulty st /\
  storage st' = storage st.
Proof.
  unfold startGame, initBoard. cbn [selectedDifficulty].
  match goal with
  | |- context [generateFresh _ _ _ _ _ ?s _] => set (st1 := s)
  end.
  destruct (generateFresh shuffle rand9 9 fuel (selectedDifficulty st) st1 k)
    as [[[[puzzle full] hash] k1]|]; [| discriminate].
  intros H. inversion H; subst st' k'. clear H.
  unfold startTimer, clearTimer.
  match goal with
  | |- context [timerInterval ?s] => destruct (timerInterval s)
  end; simpl; auto 10.
Qed.

(** X6.  Whatever the shuffles (permutations of 1..9) and the draws
    (below 9): when [startGame] returns, the board is the 9x9 board of a
    generated puzzle, its given cells fixed and its blanks editable and
    empty; the solution is solved and fills the blanks of the puzzle; the
    fingerprint is that of the puzzle; the hint budget is that of the
    selected difficulty; the clock is at 0; the history is untouched; and
    if every running interval was the one [timerInterval] referred to,
    exactly one interval runs afterwards.  From a session that is
    neither won, given up nor paused it is a playing session. *)
Theorem startGame_spec (shuffle : nat -> list Z) (rand9 : nat -> nat)
    (fuel : nat) (st : State) (k : nat) :
  (forall j, shuffle j ≡ₚ digits) -> (forall j, rand9 j < 9) ->
  match startGame shuffle rand9 fuel st k with
  | Some (st', _) =>
      let puzzle := map (map value) (board st') in
      generated (selectedDifficulty st) puzzle (solution st') /\
      board st' = boardOf puzzle /\
      (forall r c cell,
         get (board st') r c = Some cell ->
         isFixed cell = negb (value cell =? 0)%Z) /\
      currentPuzzleHash st' = hashPuzzle puzzle /\
      hintsRemaining st' = hintsSettings (selectedDifficulty st) /\
      elapsedTime st' = 0%Z /\
      gameHistory st' = gameHistory st /\
      (timerOwned st ->
       exists t, timerInterval st' = Some t /\ activeTimers st' = [t]) /\
      (showVictoryModal st = false -> hasGivenUp st = false ->
       isPaused st = false -> phase st' = Playing)
  | None => True
  end.
Proof.
  intros Hperm Hrange.
  destruct (startGame shuffle rand9 fuel st k) as [[st' k']|] eqn:Hstart;
    [| exact I].
  destruct (startGame_session shuffle rand9 Hperm Hrange fuel st k st' k'
              Hstart)
    as ((puzzle & Hgen & Hboard & Hhash) & H9b & H9s & Hhints & Htime &
        Hstarted & Hhist & _).
  destruct (startGame_flags shuffle rand9 fuel st k st' k' Hstart)
    as (_ & Hv & Hg & Hp & _).
  cbv zeta. rewrite Hboard, boardOf_values.
  split; [exact Hgen | split; [reflexivity | split]].
  - intros r c cell Hcell. rewrite boardOf_get in Hcell.
    destruct (get puzzle r c) as [v|]; [| discriminate].
    simpl in Hcell. inversion Hcell. reflexivity.
  - split; [exact Hhash |]. split; [exact Hhints |].
    split; [exact Htime |]. split; [exact Hhist |]. split.
    + intros Hown. clear Hboard Hhash Hgen.
      unfold startGame in Hstart.
      match type of Hstart with
      | match ?x with _ => _ end = _ => destruct x as [[st2 k2]|] eqn:Hinit
      end; [| discriminate].
      inversion Hstart; subst st' k'.
      assert (Hown2 : timerOwned st2).
      { unfold initBoard in Hinit.
        match type of Hinit with
        | match ?x with _ => _ end = _ =>
            destruct x as [[[[p f] h] k3]|]
        end; [| discriminate].
        inversion Hinit; subst st2 k2. exact Hown. }
      destruct (clearTimer_halts (set_elapsedTime 0 st2)) as [_ Hact].
      eexists. unfold startTimer. cbn [timerInterval activeTimers].
      rewrite (Hact Hown2). split; reflexivity.
    + intros Hv0 Hg0 Hp0. unfold phase.
      rewrite Hstarted, Hv, Hg, Hp, Hv0, Hg0, Hp0. reflexivity.
Qed.

Lemma startGame_spec_witness :
  match startGame (fun _ => digits) sweepDraws 100 (initialState None) 0 with
  | Some (st', _) =>
      let puzzle := map (map value) (board st') in
      generated (selectedDifficulty (initialState None)) puzzle
                (solution st') /\
      board st' = boardOf puzzle /\
      (forall r c cell,
         get (board st') r c = Some cell ->
         isFixed cell = negb (value cell =? 0)%Z) /\
      currentPuzzleHash st' = hashPuzzle puzzle /\
      hintsRemaining st' =
        hintsSettings (selectedDifficulty (initialState None)) /\
      elapsedTime st' = 0%Z /\
      gameHistory st' = gameHistory (initialState None) /\
      (timerOwned (initialState None) ->
       exists t, timerInterval st' = Some t /\ activeTimers st' = [t]) /\
      (showVictoryModal (initialState None) = false ->
       hasGivenUp (initialState None) = false ->
       isPaused (initialState None) = false -> phase st' = Playing)
  | None => True
  end.
Proof.
  apply (startGame_spec (fun _ => digits) sweepDraws 100 (initialState None) 0).
  - intros j. reflexivity.
  - exact sweepDraws_range.
Defined.

(** X7.  Collisions with the history never make [initBoard] fail: when it
    returns nothing, one of its calls of [generateSudoku] returned
    nothing; and when the first puzzle it generates is not in the
    history, that puzzle is the one it installs. *)
Theorem initBoard_retries (shuffle : nat -> list Z) (rand9 : nat -> nat)
    (fuel : nat) (d : Difficulty) (st : State) (k : nat) :
  (initBoard shuffle rand9 fuel d st k = None ->
   exists k', generateSudoku shuffle rand9 fuel d k' = None) /\
  (forall puzzle full k',
     generateSudoku shuffle rand9 fuel d k = Some (puzzle, full, k') ->
     isPuzzleUsed (hashPuzzle puzzle) st = false ->
     exists st',
       initBoard shuffle rand9 fuel d st k = Some (st', k') /\
       board st' = boardOf puzzle /\ solution st' = full /\
       currentPuzzleHash st' = hashPuzzle puzzle).
Proof.
  split.
  - unfold initBoard.
    assert (Hfresh : forall n k0,
              generateFresh shuffle rand9 n fuel d st k0 = None ->
              exists k', generateSudoku shuffle rand9 fuel d k' = None).
    { induction n as [|n IH]; intros k0 H; simpl in H;
        destruct (generateSudoku shuffle rand9 fuel d k0)
          as [[[p f] k1]|] eqn:Hgen; eauto; try discriminate.
      destruct (isPuzzleUsed (hashPuzzle p) st); [eauto | discriminate]. }
    destruct (generateFresh shuffle rand9 9 fuel d st k)
      as [[[[p f] h] k1]|] eqn:Hgen; [discriminate |].
    intros _. eapply Hfresh. exact Hgen.
  - intros puzzle full k' Hgen Hunused. unfold initBoard.
    cbn [generateFresh]. rewrite Hgen, Hunused.
    eexists. split; [reflexivity |]. cbn [board solution currentPuzzleHash].
    auto.
Qed.

(** ** The history *)

(** X8.  After [saveHistory] the history is the new entry followed by
    the 49 newest of the entries there were, in their order: it never
    holds more than 50 entries, however many it held before, and the
    store holds the serialisation of exactly that list.  Nothing else
    changes. *)
Theorem saveHistory_newest_first
    (JSON_stringify : list HistoryEntry -> string) (entry : HistoryEntry)
    (st : State) :
  let st' := saveHistory JSON_stringify entry st in
  gameHistory st' = entry :: take 49 (gameHistory st) /\
  length (gameHistory st') = Nat.min 50 (S (length (gameHistory st))) /\
  length (gameHistory st') <= 50 /\
  storage st' = Some (JSON_stringify (gameHistory st')) /\
  set_storage (storage st) (set_gameHistory (gameHistory st) st') = st.
Proof.
  unfold saveHistory. rewrite take_50_cap.
  cbn [gameHistory storage set_storage set_gameHistory take].
  split; [reflexivity |].
  assert (Hlen : length (entry :: take 49 (gameHistory st)) =
                 Nat.min 50 (S (length (gameHistory st)))).
  { cbn [length]. rewrite length_take. lia. }
  split; [exact Hlen | split; [lia | split; [reflexivity |]]].
  destruct st. reflexivity.
Qed.

(** X9.  Saving and reloading.  If [JSON.parse] gives back the history
    that [JSON.stringify] was given, and the serialisation is not the
    empty string, then [loadHistory] in a component created afresh on the
    store left by [saveHistory] completes normally with exactly the
    history [saveHistory] left. *)
Theorem saveHistory_then_loadHistory
    (JSON_parse : string -> option (list HistoryEntry))
    (JSON_stringify : list HistoryEntry -> string)
    (entry : HistoryEntry) (st : State) :
  let saved := saveHistory JSON_stringify entry st in
  JSON_stringify (gameHistory saved) <> EmptyString ->
  JSON_parse (JSON_stringify (gameHistory saved)) = Some (gameHistory saved) ->
  exists st',
    loadHistory JSON_parse (initialState (storage saved)) = Normal st' /\
    gameHistory st' = gameHistory saved /\
    gameHistory st' = entry :: take 49 (gameHistory st) /\
    storage st' = storage saved.
Proof.
  intros saved Hne Hparse.
  assert (Hstore : storage saved = Some (JSON_stringify (gameHistory saved))).
  { unfold saved, saveHistory. reflexivity. }
  assert (Hhist : gameHistory saved = entry :: take 49 (gameHistory st)).
  { unfold saved, saveHistory. rewrite take_50_cap. reflexivity. }
  unfold loadHistory. cbn [storage initialState]. rewrite Hstore.
  destruct (JSON_stringify (gameHistory saved)) as [|a rest] eqn:E;
    [contradiction |].
  rewrite Hparse. eexists. split; [reflexivity |].
  cbn [gameHistory storage set_gameHistory initialState].
  split; [reflexivity | split; [exact Hhist | reflexivity]].
Qed.

Lemma saveHistory_then_loadHistory_witness :
  let entry := victoryEntry 1700000000000 "today" filledState in
  let saved := saveHistory countStringify entry filledState in
  exists st',
    loadHistory (fun _ => Some [entry]) (initialState (storage saved)) =
      Normal st' /\
    gameHistory st' = gameHistory saved /\
    gameHistory st' = entry :: take 49 (gameHistory filledState) /\
    storage st' = storage saved.
Proof.
  intros entry saved.
  apply (saveHistory_then_loadHistory (fun _ => Some [entry]) countStringify
           entry filledState).
  - vm_compute. discriminate.
  - reflexivity.
Defined.

Lemma checkVictory_frame JSON_stringify now today st :
  let st' := checkVictory JSON_stringify now today st in
  board st' = board st /\ solution st' = solution st /\
  hintsRemaining st' = hintsRemaining st /\
  elapsedTime st' = elapsedTime st /\
  hasGivenUp st' = hasGivenUp st /\ isPaused st' = isPaused st /\
  gameStarted st' = gameStarted st /\
  currentPuzzleHash st' = currentPuzzleHash st /\
  selectedDifficulty st' = selectedDifficulty st.
Proof.
  unfold checkVictory.
  repeat match goal with
         | |- context [if ?b then _ else _] => destruct b; [auto 10 |]
         end.
  unfold saveHistory, clearTimer.
  destruct (timerInterval (set_showVictoryModal true st)); simpl; auto 10.
Qed.

(** X10.  A won puzzle is remembered.  On a board with its 81 cells that
    is solved, after [checkVictory] the fingerprint of the current puzzle
    is one that [isPuzzleUsed] finds in the history, so a later
    [initBoard] treats a puzzle with that fingerprint as used. *)
Theorem checkVictory_marks_puzzle_used
    (JSON_stringify : list HistoryEntry -> string) (now : Z) (today : string)
    (st : State) :
  is9x9 (board st) -> solvedBoard st ->
  isPuzzleUsed (currentPuzzleHash st)
    (checkVictory JSON_stringify now today st) = true.
Proof.
  intros H9 Hs.
  destruct (checkVictory_cases JSON_stringify now today st H9) as [Hwin _].
  rewrite (Hwin Hs). unfold isPuzzleUsed, saveHistory. rewrite take_50_cap.
  cbn [gameHistory set_storage set_gameHistory take existsb victoryEntry
       puzzleHash].
  rewrite String.eqb_refl. reflexivity.
Qed.

Lemma checkVictory_marks_puzzle_used_witness :
  isPuzzleUsed (currentPuzzleHash filledState)
    (checkVictory countStringify 1700000000000 "today" filledState) = true.
Proof.
  apply (checkVictory_marks_puzzle_used countStringify 1700000000000 "today"
           filledState).
  - exact filledState_9x9.
  - exact filledState_solved.
Defined.

(** ** Durations *)

Lemma string_length_append (s t : string) :
  String.length (s +:+ t) = String.length s + String.length t.
Proof.
  induction s as [|a s IH]; [reflexivity |].
  rewrite append_cons. simpl. rewrite IH. reflexivity.
Qed.

Lemma append_inj_length (s1 s2 t1 t2 : string) :
  String.length s1 = String.length s2 ->
  s1 +:+ t1 = s2 +:+ t2 -> s1 = s2 /\ t1 = t2.
Proof.
  revert s2. induction s1 as [|a s1 IH]; intros [|b s2] Hlen Heq;
    try discriminate.
  - split; [reflexivity | exact Heq].
  - rewrite !append_cons in Heq. inversion Heq; subst.
    destruct (IH s2) as [-> ->]; auto.
Qed.

(** Two digits, padded, read back as the number they were made from. *)
Lemma readTwoDigits_pad n :
  n < 100 ->
  String.length (padStart 2 "0" (numberToString (Z.of_nat n))) = 2 /\
  readTwoDigits (padStart 2 "0" (numberToString (Z.of_nat n))) = Z.of_nat n.
Proof.
  intros H.
  do 100 (destruct n as [|n]; [vm_compute; split; reflexivity |]).
  lia.
Qed.

Lemma readTwoDigits_pad_Z v :
  (0 <= v < 100)%Z ->
  String.length (padStart 2 "0" (numberToString v)) = 2 /\
  readTwoDigits (padStart 2 "0" (numberToString v)) = v.
Proof.
  intros H. rewrite <- (Z2Nat.id v) by lia. apply readTwoDigits_pad. lia.
Qed.

Lemma secondsOf_range t : (0 <= t)%Z -> (0 <= secondsOf t < 60)%Z.
Proof.
  intros H. unfold secondsOf. rewrite Z.rem_mod_nonneg by lia.
  apply Z.mod_pos_bound. lia.
Qed.

Lemma minutes_seconds t :
  (0 <= t)%Z -> t = (60 * minutesOf t + secondsOf t)%Z.
Proof.
  intros H. unfold minutesOf, secondsOf. rewrite Z.rem_mod_nonneg by lia.
  apply Z.div_mod. lia.
Qed.

(** X11.  For a duration of [t] seconds with [0 <= t < 2^53], the range
    in which a number is an exact integer and is printed in decimal,
    [formatHistoryTime] shows the whole minutes in decimal, a colon, and
    the remaining seconds on exactly two digits, from which the seconds can
    be read back; two different durations of that range are never shown
    as the same text. *)
Theorem formatHistoryTime_faithful (t : Z) :
  (0 <= t < 2 ^ 53)%Z ->
  (exists ss,
     formatHistoryTime t = numberToString (t / 60) +:+ ":" +:+ ss /\
     String.length ss = 2 /\ readTwoDigits ss = (t mod 60)%Z) /\
  (forall t', (0 <= t' < 2 ^ 53)%Z ->
     formatHistoryTime t = formatHistoryTime t' -> t = t').
Proof.
  intros [Ht _].
  assert (Hshape : forall u, (0 <= u)%Z ->
            String.length (padStart 2 "0" (numberToString (secondsOf u))) = 2 /\
            readTwoDigits (padStart 2 "0" (numberToString (secondsOf u))) =
              secondsOf u).
  { intros u Hu. apply readTwoDigits_pad_Z.
    pose proof (secondsOf_range u Hu). lia. }
  split.
  - exists (padStart 2 "0" (numberToString (secondsOf t))).
    destruct (Hshape t Ht) as [Hlen Hread].
    split; [reflexivity | split; [exact Hlen |]].
    rewrite Hread. unfold secondsOf. apply Z.rem_mod_nonneg; lia.
  - intros t' [Ht' _] Heq. unfold formatHistoryTime in Heq.
    destruct (Hshape t Ht) as [Hlen Hread].
    destruct (Hshape t' Ht') as [Hlen' Hread'].
    pose proof (f_equal String.length Heq) as Hl.
    rewrite !string_length_append, Hlen, Hlen' in Hl.
    apply append_inj_length in Heq as [Hm Hs]; [| lia].
    apply (inj pretty) in Hm.
    apply append_inj_length in Hs as [_ Hs]; [| reflexivity].
    rewrite (minutes_seconds t Ht), (minutes_seconds t' Ht').
    rewrite <- Hread, <- Hread', Hs, Hm. reflexivity.
Qed.

Lemma formatHistoryTime_faithful_witness :
  (exists ss,
     formatHistoryTime 605 = numberToString (605 / 60) +:+ ":" +:+ ss /\
     String.length ss = 2 /\ readTwoDigits ss = (605 mod 60)%Z) /\
  (forall t', (0 <= t' < 2 ^ 53)%Z ->
     formatHistoryTime 605 = formatHistoryTime t' -> 605%Z = t').
Proof. apply (formatHistoryTime_faithful 605). lia. Defined.

(** X12.  For a session shorter than 100 minutes the clock shown is
    exactly five characters, two digits of minutes, a colon, two digits
    of seconds, from which the elapsed time can be read back; two such
    sessions with different elapsed times never show the same clock. *)
Theorem formattedTime_faithful (st : State) :
  (0 <= elapsedTime st < 6000)%Z ->
  (exists mm ss,
     formattedTime st = mm +:+ ":" +:+ ss /\
     String.length mm = 2 /\ String.length ss = 2 /\
     elapsedTime st = (60 * readTwoDigits mm + readTwoDigits ss)%Z) /\
  String.length (formattedTime st) = 5 /\
  (forall st', (0 <= elapsedTime st' < 6000)%Z ->
     formattedTime st = formattedTime st' ->
     elapsedTime st = elapsedTime st').
Proof.
  intros Ht.
  assert (Hshape : forall u, (0 <= u < 6000)%Z ->
            (String.length (padStart 2 "0" (numberToString (minutesOf u))) = 2 /\
             readTwoDigits (padStart 2 "0" (numberToString (minutesOf u))) =
               minutesOf u) /\
            (String.length (padStart 2 "0" (numberToString (secondsOf u))) = 2 /\
             readTwoDigits (padStart 2 "0" (numberToString (secondsOf u))) =
               secondsOf u)).
  { intros u Hu. split; apply readTwoDigits_pad_Z.
    - unfold minutesOf. split.
      + apply Z.div_pos; lia.
      + apply Z.div_lt_upper_bound; lia.
    - pose proof (secondsOf_range u ltac:(lia)). lia. }
  destruct (Hshape _ Ht) as [[Hml Hmr] [Hsl Hsr]].
  split; [| split].
  - eexists _, _. split; [reflexivity |].
    split; [exact Hml | split; [exact Hsl |]].
    rewrite Hmr, Hsr. apply minutes_seconds. lia.
  - unfold formattedTime. rewrite !string_length_append, Hml, Hsl.
    reflexivity.
  - intros st' Ht' Heq. unfold formattedTime in Heq.
    destruct (Hshape _ Ht') as [[Hml' Hmr'] [Hsl' Hsr']].
    apply append_inj_length in Heq as [Hm Hs]; [| congruence].
    apply append_inj_length in Hs as [_ Hs]; [| reflexivity].
    rewrite (minutes_seconds (elapsedTime st)) by lia.
    rewrite (minutes_seconds (elapsedTime st')) by lia.
    rewrite <- Hmr, <- Hmr', <- Hsr, <- Hsr', Hm, Hs. reflexivity.
Qed.

Lemma formattedTime_faithful_witness :
  (exists mm ss,
     formattedTime playingState = mm +:+ ":" +:+ ss /\
     String.length mm = 2 /\ String.length ss = 2 /\
     elapsedTime playingState =
       (60 * readTwoDigits mm + readTwoDigits ss)%Z) /\
  String.length (formattedTime playingState) = 5 /\
  (forall st', (0 <= elapsedTime st' < 6000)%Z ->
     formattedTime playingState = formattedTime st' ->
     elapsedTime playingState = elapsedTime st').
Proof. apply (formattedTime_faithful playingState). simpl. lia. Defined.

(** ** The clock *)

Lemma ticks_advance (l : list positive) (st : State) :
  fold_right (fun _ st' => set_elapsedTime (elapsedTime st' + 1) st') st l =
  set_elapsedTime (elapsedTime st + Z.of_nat (length l)) st.
Proof.
  induction l as [|t l IH].
  - cbn [fold_right length]. change (Z.of_nat 0) with 0%Z.
    rewrite Z.add_0_r. destruct st. reflexivity.
  - cbn [fold_right length]. rewrite IH, Nat2Z.inj_succ.
    destruct st. unfold set_elapsedTime.
    cbn [board solution showModal showGiveUpModal showVictoryModal
         showHistoryModal hasGivenUp selectedDifficulty gameStarted isPaused
         elapsedTime hintsRemaining gameHistory currentPuzzleHash
         timerInterval activeTimers nextTimer storage].
    f_equal. lia.
Qed.

Lemma tick_advances st :
  tick st =
  set_elapsedTime (elapsedTime st + Z.of_nat (length (activeTimers st))) st.
Proof. unfold tick. apply ticks_advance. Qed.

Lemma clearTimer_owned st :
  timerOwned st -> clearTimer st = set_timer None [] st.
Proof.
  intros Hown. destruct (clearTimer_halts st) as [_ Hact].
  specialize (Hact Hown). unfold clearTimer in *.
  destruct (timerInterval st) as [t|] eqn:Ht.
  - cbn [activeTimers set_timer] in Hact. rewrite Hact. reflexivity.
  - destruct st. simpl in *. subst. reflexivity.
Qed.

(** X13.  Pausing and resuming.  From a session that is not paused and
    whose running intervals are the one [timerInterval] refers to,
    [togglePause] leaves no interval running, so the clock stands still
    while the session is paused; a second [togglePause] starts exactly
    one interval, owned by [timerInterval], with the elapsed time and the
    board as they were, and the clock advances by one per second
    again. *)
Theorem togglePause_halts_then_resumes (st : State) :
  isPaused st = false -> timerOwned st ->
  let paused := togglePause st in
  let resumed := togglePause paused in
  isPaused paused = true /\ timerInterval paused = None /\
  activeTimers paused = [] /\ tick paused = paused /\
  isPaused resumed = false /\
  timerInterval resumed = Some (nextTimer st) /\
  activeTimers resumed = [nextTimer st] /\ timerOwned resumed /\
  elapsedTime resumed = elapsedTime st /\ board resumed = board st /\
  elapsedTime (tick resumed) = (elapsedTime st + 1)%Z.
Proof.
  intros Hp Hown paused resumed.
  assert (Hpaused : paused = set_timer None [] (set_isPaused true st)).
  { unfold paused, togglePause. rewrite Hp. cbn [negb isPaused set_isPaused].
    apply clearTimer_owned. exact Hown. }
  assert (Hresumed : resumed = setTimer (set_isPaused false paused)).
  { unfold resumed, togglePause. rewrite Hpaused. reflexivity. }
  split; [rewrite Hpaused; reflexivity |].
  split; [rewrite Hpaused; reflexivity |].
  split; [rewrite Hpaused; reflexivity |].
  split; [apply tick_halted; rewrite Hpaused; reflexivity |].
  rewrite Hresumed, Hpaused.
  split; [reflexivity | split; [reflexivity | split; [reflexivity |]]].
  split; [intros t [<-|[]]; reflexivity |].
  split; [reflexivity | split; [reflexivity |]].
  rewrite tick_advances. reflexivity.
Qed.

Lemma playingState_owned : timerOwned playingState.
Proof. intros t [<-|[]]. reflexivity. Qed.

Lemma togglePause_halts_then_resumes_witness :
  let paused := togglePause playingState in
  let resumed := togglePause paused in
  isPaused paused = true /\ timerInterval paused = None /\
  activeTimers paused = [] /\ tick paused = paused /\
  isPaused resumed = false /\
  timerInterval resumed = Some (nextTimer playingState) /\
  activeTimers resumed = [nextTimer playingState] /\ timerOwned resumed /\
  elapsedTime resumed = elapsedTime playingState /\
  board resumed = board playingState /\
  elapsedTime (tick resumed) = (elapsedTime playingState + 1)%Z.
Proof.
  apply (togglePause_halts_then_resumes playingState).
  - reflexivity.
  - exact playingState_owned.
Defined.

(** X14.  Looking at the history.  In a started session that is not
    paused, with the history closed and its running intervals owned by
    [timerInterval], opening the history stops the clock without setting
    the pause flag, and closing it starts exactly one interval again,
    with the elapsed time as it was.  In a paused session, and before the
    game has started, opening and closing the history touches no
    interval. *)
Theorem toggleHistory_halts_then_resumes (st : State) :
  showHistoryModal st = false -> timerOwned st ->
  let opened := toggleHistory st in
  let closed := toggleHistory opened in
  showHistoryModal opened = true /\ showHistoryModal closed = false /\
  isPaused opened = isPaused st /\ isPaused closed = isPaused st /\
  elapsedTime closed = elapsedTime st /\
  (gameStarted st = true -> isPaused st = false ->
   activeTimers opened = [] /\ tick opened = opened /\
   timerInterval closed = Some (nextTimer st) /\
   activeTimers closed = [nextTimer st]) /\
  (gameStarted st = false \/ isPaused st = true ->
   opened = set_showHistoryModal true st /\ closed = st).
Proof.
  intros Hh Hown opened closed.
  destruct (gameStarted st) eqn:Hg; destruct (isPaused st) eqn:Hp.
  - assert (Ho : opened = set_showHistoryModal true st).
    { unfold opened, toggleHistory. rewrite Hh.
      cbn [negb showHistoryModal isPaused gameStarted set_showHistoryModal].
      rewrite Hp. reflexivity. }
    assert (Hc : closed = st).
    { unfold closed, toggleHistory. rewrite Ho.
      cbn [negb showHistoryModal isPaused gameStarted set_showHistoryModal].
      rewrite Hp. simpl. destruct st. simpl in *. subst. reflexivity. }
    rewrite Hc, Ho. cbn [showHistoryModal isPaused set_showHistoryModal].
    rewrite Hh, Hp. repeat split; auto; discriminate.
  - assert (Ho : opened = set_timer None [] (set_showHistoryModal true st)).
    { unfold opened, toggleHistory. rewrite Hh.
      cbn [negb showHistoryModal isPaused gameStarted set_showHistoryModal].
      rewrite Hp, Hg. cbn [negb andb].
      apply clearTimer_owned. exact Hown. }
    assert (Hc : closed = setTimer (set_showHistoryModal false opened)).
    { unfold closed, toggleHistory. rewrite Ho.
      cbn [negb showHistoryModal isPaused gameStarted set_showHistoryModal
           set_timer].
      rewrite Hp, Hg. reflexivity. }
    rewrite Hc, Ho.
    cbn [showHistoryModal isPaused elapsedTime setTimer set_timer
         set_showHistoryModal timerInterval activeTimers nextTimer].
    rewrite Hp.
    repeat split; auto;
      try (apply tick_halted; reflexivity);
      match goal with
      | H : _ \/ _ |- _ => destruct H; discriminate
      end.
  - assert (Ho : opened = set_showHistoryModal true st).
    { unfold opened, toggleHistory. rewrite Hh.
      cbn [negb showHistoryModal isPaused gameStarted set_showHistoryModal].
      rewrite Hp, Hg. reflexivity. }
    assert (Hc : closed = st).
    { unfold closed, toggleHistory. rewrite Ho.
      cbn [negb showHistoryModal isPaused gameStarted set_showHistoryModal].
      rewrite Hp, Hg. simpl. destruct st. simpl in *. subst. reflexivity. }
    rewrite Hc, Ho. cbn [showHistoryModal isPaused set_showHistoryModal].
    rewrite Hh, Hp. repeat split; auto; discriminate.
  - assert (Ho : opened = set_showHistoryModal true st).
    { unfold opened, toggleHistory. rewrite Hh.
      cbn [negb showHistoryModal isPaused gameStarted set_showHistoryModal].
      rewrite Hp, Hg. reflexivity. }
    assert (Hc : closed = st).
    { unfold closed, toggleHistory. rewrite Ho.
      cbn [negb showHistoryModal isPaused gameStarted set_showHistoryModal].
      rewrite Hp, Hg. simpl. destruct st. simpl in *. subst. reflexivity. }
    rewrite Hc, Ho. cbn [showHistoryModal isPaused set_showHistoryModal].
    rewrite Hh, Hp. repeat split; auto; discriminate.
Qed.

Lemma toggleHistory_halts_then_resumes_witness :
  let opened := toggleHistory playingState in
  let closed := toggleHistory opened in
  showHistoryModal opened = true /\ showHistoryModal closed = false /\
  isPaused opened = isPaused playingState /\
  isPaused closed = isPaused playingState /\
  elapsedTime closed = elapsedTime playingState /\
  (gameStarted playingState = true -> isPaused playingState = false ->
   activeTimers opened = [] /\ tick opened = opened /\
   timerInterval closed = Some (nextTimer playingState) /\
   activeTimers closed = [nextTimer playingState]) /\
  (gameStarted playingState = false \/ isPaused playingState = true ->
   opened = set_showHistoryModal true playingState /\
   closed = playingState).
Proof.
  apply (toggleHistory_halts_then_resumes playingState).
  - reflexivity.
  - exact playingState_owned.
Defined.

Lemma confirmGiveUp_frame st :
  let st' := confirmGiveUp st in
  timerInterval st' = timerInterval st /\
  activeTimers st' = activeTimers st /\
  elapsedTime st' = elapsedTime st /\
  gameHistory st' = gameHistory st /\ solution st' = solution st /\
  hintsRemaining st' = hintsRemaining st.
Proof.
  unfold confirmGiveUp.
  destruct (fold_reveal allCells
              (set_hasGivenUp true (set_showGiveUpModal false st)))
    as [Hframe _].
  rewrite Hframe. cbn [timerInterval activeTimers elapsedTime gameHistory
                       solution hintsRemaining set_board set_hasGivenUp
                       set_showGiveUpModal].
  auto 10.
Qed.

(** X15.  Intervals can pile up.  In a started session that is not
    paused, with the history closed and one owned interval at most:
    opening the history, pausing, resuming and closing the history leaves
    two intervals running, of which [timerInterval] refers to the newer
    only, so the clock advances by two per second; and giving up after
    that clears the newer interval only, so the clock of the given-up
    session still advances. *)
Theorem toggles_leave_two_intervals (st : State) :
  gameStarted st = true -> isPaused st = false ->
  showHistoryModal st = false -> timerOwned st ->
  let st' := toggleHistory (togglePause (togglePause (toggleHistory st))) in
  let gaveUp := confirmGiveUp (askGiveUp st') in
  showHistoryModal st' = false /\ isPaused st' = false /\
  timerInterval st' = Some (Pos.succ (nextTimer st)) /\
  activeTimers st' = [Pos.succ (nextTimer st); nextTimer st] /\
  elapsedTime (tick st') = (elapsedTime st + 2)%Z /\
  timerInterval gaveUp = None /\
  activeTimers gaveUp = [nextTimer st] /\
  elapsedTime (tick gaveUp) = (elapsedTime st + 1)%Z.
Proof.
  intros Hg Hp Hh Hown st' gaveUp.
  set (s1 := set_timer None [] (set_showHistoryModal true st)).
  assert (H1 : toggleHistory st = s1).
  { unfold toggleHistory. rewrite Hh.
    cbn [negb showHistoryModal isPaused gameStarted set_showHistoryModal].
    rewrite Hp, Hg. cbn [negb andb]. apply clearTimer_owned. exact Hown. }
  set (s2 := set_isPaused true s1).
  assert (H2 : togglePause s1 = s2).
  { unfold togglePause, s1. cbn [isPaused set_timer set_showHistoryModal].
    rewrite Hp. cbn [negb isPaused set_isPaused]. reflexivity. }
  set (s3 := setTimer (set_isPaused false s2)).
  assert (H3 : togglePause s2 = s3) by reflexivity.
  set (s4 := setTimer (set_showHistoryModal false s3)).
  assert (H4 : toggleHistory s3 = s4).
  { unfold toggleHistory, s3, s2, s1.
    cbn [negb showHistoryModal isPaused gameStarted set_showHistoryModal
         set_timer setTimer set_isPaused].
    rewrite Hg. reflexivity. }
  assert (Hst' : st' = s4) by (unfold st'; rewrite H1, H2, H3, H4; reflexivity).
  assert (Hne : Pos.eqb (nextTimer st) (Pos.succ (nextTimer st)) = false)
    by (apply Pos.eqb_neq; lia).
  assert (Hask : askGiveUp s4 =
                 set_timer None [nextTimer st] (set_showGiveUpModal true s4)).
  { unfold askGiveUp, clearTimer, s4, s3, s2, s1.
    cbn [timerInterval activeTimers nextTimer set_showGiveUpModal setTimer
         set_showHistoryModal set_isPaused set_timer List.filter].
    rewrite Pos.eqb_refl, Hne. reflexivity. }
  destruct (confirmGiveUp_frame (askGiveUp s4)) as (Ht & Ha & He & _).
  subst gaveUp. rewrite Hst', tick_advances, tick_advances.
  cbn [elapsedTime set_elapsedTime]. rewrite Ht, Ha, He, Hask.
  unfold s4, s3, s2, s1.
  cbn [showHistoryModal isPaused timerInterval activeTimers elapsedTime
       nextTimer set_showGiveUpModal setTimer set_showHistoryModal
       set_isPaused set_timer length].
  repeat split; lia.
Qed.

Lemma toggles_leave_two_intervals_witness :
  let st' := toggleHistory
               (togglePause (togglePause (toggleHistory playingState))) in
  let gaveUp := confirmGiveUp (askGiveUp st') in
  showHistoryModal st' = false /\ isPaused st' = false /\
  timerInterval st' = Some (Pos.succ (nextTimer playingState)) /\
  activeTimers st' =
    [Pos.succ (nextTimer playingState); nextTimer playingState] /\
  elapsedTime (tick st') = (elapsedTime playingState + 2)%Z /\
  timerInterval gaveUp = None /\
  activeTimers gaveUp = [nextTimer playingState] /\
  elapsedTime (tick gaveUp) = (elapsedTime playingState + 1)%Z.
Proof.
  apply (toggles_leave_two_intervals playingState); try reflexivity.
  exact playingState_owned.
Defined.

(** X16.  Asking to give up and cancelling.  From a session whose running
    intervals are owned by [timerInterval], [askGiveUp] followed by
    [cancelGiveUp] closes the give-up modal and leaves the board, the
    elapsed time, the hint budget and the history as they were; if the
    session is not paused exactly one interval runs afterwards, owned by
    [timerInterval], and if it is paused none does.  While the modal is
    open no interval runs. *)
Theorem askGiveUp_then_cancelGiveUp (st : State) :
  timerOwned st ->
  let asked := askGiveUp st in
  let back := cancelGiveUp asked in
  showGiveUpModal asked = true /\ activeTimers asked = [] /\
  tick asked = asked /\
  showGiveUpModal back = false /\ hasGivenUp back = hasGivenUp st /\
  board back = board st /\ elapsedTime back = elapsedTime st /\
  hintsRemaining back = hintsRemaining st /\
  gameHistory back = gameHistory st /\
  timerOwned back /\
  (isPaused st = false -> activeTimers back = [nextTimer st]) /\
  (isPaused st = true -> activeTimers back = []).
Proof.
  intros Hown asked back.
  assert (Ha : asked = set_timer None [] (set_showGiveUpModal true st)).
  { unfold asked, askGiveUp. apply clearTimer_owned. exact Hown. }
  unfold back, cancelGiveUp. rewrite Ha.
  cbn [isPaused set_showGiveUpModal set_timer].
  split; [reflexivity | split; [reflexivity |]].
  split; [apply tick_halted; reflexivity |].
  destruct (isPaused st);
    cbn [negb showGiveUpModal hasGivenUp board elapsedTime hintsRemaining
         gameHistory activeTimers timerInterval nextTimer setTimer
         set_showGiveUpModal set_timer];
    repeat split; auto; try discriminate;
    try (intros t [<-|[]]; reflexivity);
    try (intros t []).
Qed.

Lemma askGiveUp_then_cancelGiveUp_witness :
  let asked := askGiveUp playingState in
  let back := cancelGiveUp asked in
  showGiveUpModal asked = true /\ activeTimers asked = [] /\
  tick asked = asked /\
  showGiveUpModal back = false /\
  hasGivenUp back = hasGivenUp playingState /\
  board back = board playingState /\
  elapsedTime back = elapsedTime playingState /\
  hintsRemaining back = hintsRemaining playingState /\
  gameHistory back = gameHistory playingState /\
  timerOwned back /\
  (isPaused playingState = false ->
   activeTimers back = [nextTimer playingState]) /\
  (isPaused playingState = true -> activeTimers back = []).
Proof.
  apply (askGiveUp_then_cancelGiveUp playingState).
  exact playingState_owned.
Defined.

(** ** Editing, hints and the frozen board *)

Lemma setCell_same {A} (grid : list (list A)) r c v :
  get grid r c = Some v -> setCell grid r c v = grid.
Proof.
  unfold get, setCell. intros H.
  destruct (grid !! r) as [row|] eqn:Hrow; [| discriminate].
  apply list_eq. intros i.
  destruct (decide (i = r)) as [->|Hi].
  - rewrite list_lookup_alter_eq, Hrow. simpl.
    rewrite list_insert_id by exact H. reflexivity.
  - rewrite list_lookup_alter_ne by congruence. reflexivity.
Qed.

Lemma get_setCell_None {A} (grid : list (list A)) r c v r' c' :
  get grid r' c' = None -> get (setCell grid r c v) r' c' = None.
Proof.
  intros Hnone. destruct (decide ((r', c') = (r, c))) as [E|E].
  - inversion E; subst. unfold get, setCell in *.
    rewrite list_lookup_alter_eq.
    destruct (grid !! r) as [row|]; [| reflexivity]. simpl.
    apply lookup_ge_None. rewrite length_insert.
    apply lookup_ge_None. exact Hnone.
  - rewrite get_setCell_other by exact E. exact Hnone.
Qed.

(** X17.  An edit touches one cell at most.  Whatever its arguments,
    [updateCell] leaves the solution, the hint budget, the elapsed time
    and the give-up flag as they are; every cell of the board stays where
    it is with its [isFixed] flag; a fixed cell keeps its value, and so
    does every cell other than the one edited; no cell appears. *)
Theorem updateCell_touches_one_cell
    (JSON_stringify : list HistoryEntry -> string) (now : Z) (today : string)
    (row col : nat) (parsed : option Z) (st : State) :
  let st' := updateCell JSON_stringify now today row col parsed st in
  solution st' = solution st /\ hintsRemaining st' = hintsRemaining st /\
  elapsedTime st' = elapsedTime st /\ hasGivenUp st' = hasGivenUp st /\
  (forall r c cell,
     get (board st) r c = Some cell ->
     exists cell',
       get (board st') r c = Some cell' /\ isFixed cell' = isFixed cell /\
       ((r, c) <> (row, col) \/ isFixed cell = true -> cell' = cell)) /\
  (forall r c, get (board st) r c = None -> get (board st') r c = None).
Proof.
  unfold updateCell.
  destruct (get (board st) row col) as [target|] eqn:Htarget.
  2: { repeat split; auto. intros r c cell Hcell. exists cell. auto. }
  destruct (negb (isFixed target) && (0 <=? editValue parsed)%Z &&
            (editValue parsed <=? 9)%Z) eqn:Hguard.
  2: { repeat split; auto. intros r c cell Hcell. exists cell. auto. }
  apply andb_true_iff in Hguard as [Hguard _].
  apply andb_true_iff in Hguard as [Hfix _].
  apply negb_true_iff in Hfix.
  match goal with
  | |- context [checkVictory _ _ _ ?s] =>
      destruct (checkVictory_frame JSON_stringify now today s)
        as (Hb & Hs & Hh & He & Hg & _)
  end.
  cbv zeta. rewrite Hb, Hs, Hh, He, Hg.
  cbn [board solution hintsRemaining elapsedTime hasGivenUp set_board].
  split; [reflexivity | split; [reflexivity | split; [reflexivity |]]].
  split; [reflexivity | split].
  - intros r c cell Hcell.
    destruct (decide ((r, c) = (row, col))) as [E|E].
    + inversion E; subst. rewrite get_setCell_same by eauto.
      assert (cell = target) by congruence. subst cell.
      eexists. split; [reflexivity | split; [reflexivity |]].
      intros [Hne|Hfixed]; [contradiction | congruence].
    + rewrite get_setCell_other by exact E. exists cell. auto.
  - intros r c Hnone. apply get_setCell_None. exact Hnone.
Qed.

(** X18.  Clearing a cell never wins.  An edit of a cell of the window
    whose value is 0, or is not a number, puts 0 in the cell when it
    exists and is not fixed, and changes nothing otherwise; the victory
    check that follows finds the empty cell, so the victory modal, the
    timer and the history are as they were. *)
Theorem updateCell_clear_never_wins
    (JSON_stringify : list HistoryEntry -> string) (now : Z) (today : string)
    (row col : nat) (parsed : option Z) (st : State) :
  row < 9 -> col < 9 -> editValue parsed = 0%Z ->
  updateCell JSON_stringify now today row col parsed st =
  match get (board st) row col with
  | Some cell =>
      if isFixed cell then st
      else set_board (setCell (board st) row col
                        {| value := 0; isFixed := false |}) st
  | None => st
  end.
Proof.
  intros Hr Hc Hzero. unfold updateCell. rewrite Hzero.
  destruct (get (board st) row col) as [cell|] eqn:Hcell; [| reflexivity].
  destruct (isFixed cell) eqn:Hfix; [reflexivity |].
  cbn [negb andb Z.leb Z.compare].
  unfold checkVictory.
  match goal with
  | |- context [if existsb ?f allCells then _ else _] =>
      assert (Hex : existsb f allCells = true)
  end.
  { apply existsb_exists. exists (row, col).
    split; [apply in_allCells; lia |].
    unfold boardValue. cbn [fst snd board set_board].
    rewrite get_setCell_same by eauto. reflexivity. }
  rewrite Hex. reflexivity.
Qed.

Lemma updateCell_clear_never_wins_witness :
  updateCell countStringify 0 "today" 0 0 None filledState =
  match get (board filledState) 0 0 with
  | Some cell =>
      if isFixed cell then filledState
      else set_board (setCell (board filledState) 0 0
                        {| value := 0; isFixed := false |}) filledState
  | None => filledState
  end.
Proof.
  apply (updateCell_clear_never_wins countStringify 0 "today" 0 0 None
           filledState); [lia | lia | reflexivity].
Defined.

Lemma take_cons_take_50 {A} (x : A) (l : list A) :
  take 50 (x :: take 50 l) = take 50 (x :: l).
Proof.
  change (x :: take 49 (take 50 l) = x :: take 49 l).
  rewrite take_take. reflexivity.
Qed.

(** X19.  A won game can be recorded twice.  [updateCell] and
    [checkVictory] do not look at whether the session is already won: on
    a solved board with its 81 cells, after the victory check has
    recorded the game, entering into a non-fixed cell the digit it
    already holds runs the check again and puts a second entry for the
    same game at the head of the history. *)
Theorem updateCell_after_win_records_again
    (JSON_stringify : list HistoryEntry -> string)
    (now1 : Z) (today1 : string) (now2 : Z) (today2 : string)
    (row col : nat) (cell : Cell) (st : State) :
  is9x9 (board st) -> solvedBoard st ->
  get (board st) row col = Some cell -> isFixed cell = false ->
  (0 <= value cell <= 9)%Z ->
  let won := checkVictory JSON_stringify now1 today1 st in
  let again :=
    updateCell JSON_stringify now2 today2 row col (Some (value cell)) won in
  board again = board st /\
  gameHistory again =
    take 50 (victoryEntry now2 today2 won ::
             victoryEntry now1 today1 st :: gameHistory st) /\
  puzzleHash (victoryEntry now2 today2 won) = currentPuzzleHash st /\
  puzzleHash (victoryEntry now1 today1 st) = currentPuzzleHash st.
Proof.
  intros H9 Hs Hcell Hfix Hrange won again.
  destruct (checkVictory_frame JSON_stringify now1 today1 st)
    as (Hb & Hsol & _ & _ & _ & _ & _ & Hhash & _).
  fold won in Hb, Hsol, Hhash.
  assert (Hwon9 : is9x9 (board won)) by (rewrite Hb; exact H9).
  assert (Hwons : solvedBoard won).
  { intros r c Hr Hc. rewrite Hb, Hsol. apply Hs; assumption. }
  assert (Hhist : gameHistory won =
                  take 50 (victoryEntry now1 today1 st :: gameHistory st)).
  { unfold won.
    destruct (checkVictory_cases JSON_stringify now1 today1 st H9) as [Hwin _].
    rewrite (Hwin Hs). unfold saveHistory, clearTimer. rewrite take_50_cap.
    destruct (timerInterval (set_showVictoryModal true st)); reflexivity. }
  assert (Hagain : again = checkVictory JSON_stringify now2 today2 won).
  { unfold again, updateCell. rewrite Hb, Hcell, Hfix.
    cbn [editValue negb andb].
    destruct (Z.leb_spec 0 (value cell)); [| lia].
    destruct (Z.leb_spec (value cell) 9); [| lia].
    cbn [andb]. destruct cell as [v f]. cbn [value isFixed] in *. subst f.
    rewrite (setCell_same (board st) row col _ Hcell).
    rewrite <- Hb. rewrite set_board_same. reflexivity. }
  destruct (checkVictory_frame JSON_stringify now2 today2 won)
    as (Hb2 & _).
  fold again in Hb2. rewrite <- Hagain in Hb2.
  split; [congruence | split; [| split; [exact Hhash | reflexivity]]].
  rewrite Hagain.
  destruct (checkVictory_cases JSON_stringify now2 today2 won Hwon9)
    as [Hwin2 _].
  rewrite (Hwin2 Hwons). unfold saveHistory, clearTimer.
  rewrite take_50_cap.
  destruct (timerInterval (set_showVictoryModal true won));
    cbn [gameHistory set_storage set_gameHistory set_timer
         set_showVictoryModal];
    rewrite Hhist.
  - apply take_cons_take_50.
  - apply take_cons_take_50.
Qed.

Lemma updateCell_after_win_records_again_witness :
  let won := checkVictory countStringify 1 "today" filledState in
  let again :=
    updateCell countStringify 2 "later" 0 0
      (Some (value {| value := 1; isFixed := false |})) won in
  board again = board filledState /\
  gameHistory again =
    take 50 (victoryEntry 2 "later" won ::
             victoryEntry 1 "today" filledState ::
             gameHistory filledState) /\
  puzzleHash (victoryEntry 2 "later" won) = currentPuzzleHash filledState /\
  puzzleHash (victoryEntry 1 "today" filledState) =
    currentPuzzleHash filledState.
Proof.
  apply (updateCell_after_win_records_again countStringify 1 "today" 2 "later"
           0 0 {| value := 1; isFixed := false |} filledState).
  - exact filledState_9x9.
  - exact filledState_solved.
  - reflexivity.
  - reflexivity.
  - simpl. lia.
Defined.

Lemma filter_and {A} (f g : A -> bool) (l : list A) :
  List.filter (fun x => f x && g x) l = List.filter g (List.filter f l).
Proof.
  induction l as [|x l IH]; [reflexivity |].
  simpl. destruct (f x); simpl; [destruct (g x) |]; rewrite IH; reflexivity.
Qed.

Lemma filter_remove_length {A} `{EqDecision A} (p : A) (l : list A) :
  NoDup l -> p ∈ l ->
  S (length (List.filter (fun q => negb (bool_decide (q = p))) l)) = length l.
Proof.
  induction 1 as [|x l Hx Hnd IH]; intros Hin; [inversion Hin |].
  simpl. destruct (decide (x = p)) as [->|Hne].
  - rewrite bool_decide_eq_true_2 by reflexivity. simpl. f_equal.
    rewrite filter_all; [reflexivity |].
    intros y Hy. apply negb_true_iff, bool_decide_eq_false.
    intros ->. apply Hx. apply list_elem_of_In. exact Hy.
  - rewrite bool_decide_eq_false_2 by exact Hne. simpl. f_equal.
    apply IH. apply elem_of_cons in Hin as [?|?]; [congruence | assumption].
Qed.

Lemma useHint_frame idx st :
  let st' := useHint idx st in
  showVictoryModal st' = showVictoryModal st /\
  gameHistory st' = gameHistory st /\ storage st' = storage st /\
  solution st' = solution st /\ elapsedTime st' = elapsedTime st /\
  timerInterval st' = timerInterval st /\
  activeTimers st' = activeTimers st.
Proof.
  unfold useHint.
  destruct (hintsRemaining st <=? 0)%Z; [auto 10 |].
  destruct (emptyCells st) as [|q qs]; [auto 10 |].
  destruct ((q :: qs) !! idx) as [picked|]; [| auto 10].
  rewrite (reveal_frame st picked). simpl. auto 10.
Qed.

(** X20.  A hint uses up one empty cell and never wins.  In a session
    whose solution has a value wherever the board has a cell, with a hint
    left and a drawn index below the number of non-fixed empty cells,
    after [useHint] the non-fixed empty cells are those there were, in
    the same order, without the one picked: exactly one fewer.  Whatever
    the session, [useHint] leaves the victory modal, the history, the
    store, the solution and the timer as they are, also when the hint
    fills the last empty cell. *)
Theorem useHint_consumes_one_cell (randomIndex : nat) (st : State) :
  solutionCovers st -> (0 < hintsRemaining st)%Z ->
  randomIndex < length (emptyCells st) ->
  let st' := useHint randomIndex st in
  (exists p,
     emptyCells st !! randomIndex = Some p /\
     emptyCells st' =
       List.filter (fun q => negb (bool_decide (q = p))) (emptyCells st)) /\
  S (length (emptyCells st')) = length (emptyCells st) /\
  showVictoryModal st' = showVictoryModal st /\
  gameHistory st' = gameHistory st /\ storage st' = storage st /\
  solution st' = solution st /\
  timerInterval st' = timerInterval st /\
  activeTimers st' = activeTimers st.
Proof.
  intros Hcov Hpos Hidx st'.
  destruct (lookup_lt_is_Some_2 _ _ Hidx) as [[r c] Hp].
  assert (Hin : (r, c) ∈ emptyCells st)
    by (apply list_elem_of_lookup; eauto).
  pose proof Hin as Hin'.
  apply emptyCells_spec in Hin' as (Hr & Hc & cell & Hcell & Hf & Hv).
  destruct (Hcov r c) as [sv Hsv]; [eauto |].
  assert (Hst' : st' =
            set_hintsRemaining (hintsRemaining st - 1)
              (set_board (setCell (board st) r c
                            {| value := sv; isFixed := true |}) st)).
  { unfold st', useHint.
    destruct (Z.leb_spec (hintsRemaining st) 0); [lia |].
    destruct (emptyCells st) as [|q qs] eqn:E; [inversion Hin |].
    rewrite Hp. unfold reveal. cbn [fst snd]. rewrite Hcell, Hsv.
    reflexivity. }
  assert (Hempty : emptyCells st' =
            List.filter (fun q => negb (bool_decide (q = (r, c))))
                        (emptyCells st)).
  { rewrite Hst'. unfold emptyCells. rewrite <- filter_and.
    apply List.filter_ext. intros [r' c']. unfold isEmptyCell.
    cbn [fst snd board set_board set_hintsRemaining].
    destruct (decide ((r', c') = (r, c))) as [E|E].
    - inversion E; subst. rewrite get_setCell_same by eauto.
      rewrite bool_decide_eq_true_2 by reflexivity.
      simpl. rewrite andb_false_r. reflexivity.
    - rewrite get_setCell_other by exact E.
      rewrite bool_decide_eq_false_2 by exact E.
      simpl. rewrite andb_true_r. reflexivity. }
  split; [exists (r, c); split; [exact Hp | exact Hempty] |].
  split.
  - rewrite Hempty. apply filter_remove_length; [| exact Hin].
    apply NoDup_List_filter, NoDup_allCells.
  - destruct (useHint_frame randomIndex st)
      as (H1 & H2 & H3 & H4 & _ & H6 & H7).
    auto 10.
Qed.

Lemma useHint_consumes_one_cell_witness :
  let st' := useHint 2 playingState in
  (exists p,
     emptyCells playingState !! 2 = Some p /\
     emptyCells st' =
       List.filter (fun q => negb (bool_decide (q = p)))
                   (emptyCells playingState)) /\
  S (length (emptyCells st')) = length (emptyCells playingState) /\
  showVictoryModal st' = showVictoryModal playingState /\
  gameHistory st' = gameHistory playingState /\
  storage st' = storage playingState /\
  solution st' = solution playingState /\
  timerInterval st' = timerInterval playingState /\
  activeTimers st' = activeTimers playingState.
Proof.
  apply (useHint_consumes_one_cell 2 playingState).
  - exact playingState_covered.
  - reflexivity.
  - vm_compute. lia.
Defined.

Lemma reveal_fixed st p r c cell :
  get (board st) r c = Some cell -> isFixed cell = true ->
  exists cell', get (board (reveal st p) ) r c = Some cell' /\
                isFixed cell' = true.
Proof.
  intros Hcell Hfix. rewrite reveal_get.
  destruct (decide ((r, c) = p)); [| eauto].
  unfold revealed. rewrite Hcell.
  destruct (get (solution st) r c); eauto.
Qed.

Lemma confirmGiveUp_all_fixed st :
  is9x9 (board st) -> is9x9 (solution st) ->
  is9x9 (board (confirmGiveUp st)) /\
  Forall (Forall (fun cell => isFixed cell = true)) (board (confirmGiveUp st)).
Proof.
  intros Hb Hs. unfold confirmGiveUp.
  set (st0 := set_hasGivenUp true (set_showGiveUpModal false st)).
  destruct (fold_reveal allCells st0) as [_ Hget].
  assert (H9 : is9x9 (board (fold_left reveal allCells st0)))
    by (apply fold_reveal_9x9; exact Hb).
  remember (fold_left reveal allCells st0) as st1 eqn:E1. clear E1.
  split; [exact H9 |].
  apply all_cells_fixed; [exact H9 |].
  intros r c Hr Hc. rewrite Hget.
  rewrite decide_True by (apply list_elem_of_In, in_allCells; lia).
  unfold revealed, st0.
  cbn [board solution set_hasGivenUp set_showGiveUpModal].
  destruct (is9x9_get (solution st) r c Hs Hr Hc) as [sv ->].
  destruct (is9x9_get (board st) r c Hb Hr Hc) as [cell ->].
  eexists. split; reflexivity.
Qed.

Lemma all_fixed_get (cells : list (list Cell)) r c cell :
  Forall (Forall (fun cell => isFixed cell = true)) cells ->
  get cells r c = Some cell -> isFixed cell = true.
Proof.
  intros Hfixed Hcell. unfold get in Hcell.
  destruct (cells !! r) as [row|] eqn:Hrow; [| discriminate].
  rewrite Forall_forall in Hfixed.
  assert (Hin : row ∈ cells) by (apply list_elem_of_lookup; eauto).
  specialize (Hfixed row Hin). rewrite Forall_forall in Hfixed.
  apply Hfixed. apply list_elem_of_lookup. eauto.
Qed.

Lemma filter_none {A} (f : A -> bool) (l : list A) :
  (forall x, In x l -> f x = false) -> List.filter f l = [].
Proof.
  induction l as [|x l IH]; intros H; [reflexivity |].
  simpl. rewrite (H x) by (simpl; auto). apply IH.
  intros y Hy. apply H. simpl. auto.
Qed.

(** X21.  After a give-up the board is frozen.  In a session whose board
    and solution are 9x9, once the player has asked to give up and
    confirmed, no non-fixed empty cell is left, and no edit and no hint
    changes anything: [updateCell] returns the state as it is for every
    cell and every value, and so does [useHint] for every draw, whatever
    is left of the hint budget. *)
Theorem confirmGiveUp_freezes_board (st : State) :
  is9x9 (board st) -> is9x9 (solution st) ->
  let gaveUp := confirmGiveUp (askGiveUp st) in
  emptyCells gaveUp = [] /\
  (forall JSON_stringify now today row col parsed,
     updateCell JSON_stringify now today row col parsed gaveUp = gaveUp) /\
  (forall randomIndex, useHint randomIndex gaveUp = gaveUp).
Proof.
  intros Hb Hs gaveUp.
  assert (Hask : board (askGiveUp st) = board st /\
                 solution (askGiveUp st) = solution st).
  { unfold askGiveUp, clearTimer.
    destruct (timerInterval (set_showGiveUpModal true st)); auto. }
  destruct Hask as [Hab Has].
  destruct (confirmGiveUp_all_fixed (askGiveUp st)) as [H9 Hfixed];
    [rewrite Hab; exact Hb | rewrite Has; exact Hs |].
  fold gaveUp in H9, Hfixed. clearbody gaveUp.
  assert (Hempty : emptyCells gaveUp = []).
  { unfold emptyCells. apply filter_none. intros [r c] _.
    unfold isEmptyCell. cbn [fst snd].
    destruct (get (board gaveUp) r c) as [cell|] eqn:Hcell; [| reflexivity].
    rewrite (all_fixed_get _ _ _ _ Hfixed Hcell). reflexivity. }
  split; [exact Hempty | split].
  - intros JSON_stringify now today row col parsed. unfold updateCell.
    destruct (get (board gaveUp) row col) as [cell|] eqn:Hcell;
      [| reflexivity].
    rewrite (all_fixed_get _ _ _ _ Hfixed Hcell). reflexivity.
  - intros randomIndex. unfold useHint. rewrite Hempty.
    destruct (hintsRemaining gaveUp <=? 0)%Z; reflexivity.
Qed.

Lemma confirmGiveUp_freezes_board_witness :
  let gaveUp := confirmGiveUp (askGiveUp playingState) in
  emptyCells gaveUp = [] /\
  (forall JSON_stringify now today row col parsed,
     updateCell JSON_stringify now today row col parsed gaveUp = gaveUp) /\
  (forall randomIndex, useHint randomIndex gaveUp = gaveUp).
Proof.
  apply (confirmGiveUp_freezes_board playingState).
  - exact playingState_9x9.
  - exact sampleSolution_9x9.
Defined.

(** X22.  The last digit decides.  On a board with its 81 cells where
    every cell but one non-fixed cell is non-zero and equal to the
    solution, entering a digit 0..9 into that cell wins exactly when the
    digit is the solution's: then the victory modal is shown and one
    entry is put at the head of the history; with any other digit the
    cell takes the value and nothing else changes. *)
Theorem updateCell_last_digit_decides
    (JSON_stringify : list HistoryEntry -> string) (now : Z) (today : string)
    (row col : nat) (cell : Cell) (answer v : Z) (st : State) :
  is9x9 (board st) -> row < 9 -> col < 9 ->
  get (board st) row col = Some cell -> isFixed cell = false ->
  get (solution st) row col = Some answer -> answer <> 0%Z ->
  (forall r c, r < 9 -> c < 9 -> (r, c) <> (row, col) ->
     exists other, get (board st) r c = Some other /\ value other <> 0%Z /\
                   get (solution st) r c = Some (value other)) ->
  (0 <= v <= 9)%Z ->
  let st' := updateCell JSON_stringify now today row col (Some v) st in
  get (board st') row col = Some {| value := v; isFixed := false |} /\
  (v = answer ->
   showVictoryModal st' = true /\ timerInterval st' = None /\
   gameHistory st' = take 50 (victoryEntry now today st :: gameHistory st)) /\
  (v <> answer ->
   st' = set_board (setCell (board st) row col
                      {| value := v; isFixed := false |}) st).
Proof.
  intros H9 Hr Hc Hcell Hfix Hans Hnz Hothers Hv st'.
  set (st2 := set_board (setCell (board st) row col
                           {| value := v; isFixed := false |}) st).
  assert (Hst' : st' = checkVictory JSON_stringify now today st2).
  { unfold st', updateCell. rewrite Hcell, Hfix. cbn [editValue negb andb].
    destruct (Z.leb_spec 0 v); [| lia]. destruct (Z.leb_spec v 9); [| lia].
    reflexivity. }
  assert (H92 : is9x9 (board st2)) by (apply is9x9_setCell; exact H9).
  assert (Hsolved : solvedBoard st2 <-> v = answer).
  { split.
    - intros Hs. destruct (Hs row col Hr Hc) as (c2 & Hc2 & _ & Hsol).
      unfold st2 in Hc2, Hsol. cbn [board solution set_board] in Hc2, Hsol.
      rewrite get_setCell_same in Hc2 by eauto.
      inversion Hc2; subst c2. cbn [value] in Hsol. congruence.
    - intros -> r c Hr9 Hc9. unfold st2. cbn [board solution set_board].
      destruct (decide ((r, c) = (row, col))) as [E|E].
      + inversion E; subst. rewrite get_setCell_same by eauto.
        eexists. split; [reflexivity | split; [exact Hnz | exact Hans]].
      + rewrite get_setCell_other by exact E. apply Hothers; assumption. }
  destruct (checkVictory_cases JSON_stringify now today st2 H92)
    as [Hwin Hno].
  destruct (checkVictory_frame JSON_stringify now today st2) as (Hb & _).
  split; [| split].
  - rewrite Hst', Hb. unfold st2. cbn [board set_board].
    apply get_setCell_same. eauto.
  - intros Heq. rewrite Hst', (Hwin (proj2 Hsolved Heq)).
    unfold saveHistory, clearTimer. rewrite take_50_cap.
    destruct (timerInterval (set_showVictoryModal true st2)) eqn:Htimer;
      cbn; cbn in Htimer; repeat split; auto.
  - intros Hne. rewrite Hst'. apply Hno. intros Hs. apply Hne.
    apply Hsolved. exact Hs.
Qed.

(** The session of [filledState] one digit before the end: the cell at
    row 0, column 1 is still empty. *)
Lemma almostFilled_others :
  forall r c, r < 9 -> c < 9 -> (r, c) <> (0, 1) ->
    exists other,
      get (board (set_board (setCell (board filledState) 0 1
                               {| value := 0; isFixed := false |})
                            filledState)) r c = Some other /\
      value other <> 0%Z /\
      get (solution filledState) r c = Some (value other).
Proof.
  intros r c Hr Hc Hne. cbn [board set_board].
  rewrite get_setCell_other by exact Hne.
  apply filledState_solved; assumption.
Qed.

Lemma updateCell_last_digit_decides_witness :
  let st := set_board (setCell (board filledState) 0 1
                         {| value := 0; isFixed := false |}) filledState in
  let st' := updateCell countStringify 5 "today" 0 1 (Some 2%Z) st in
  get (board st') 0 1 = Some {| value := 2; isFixed := false |} /\
  (2%Z = 2%Z ->
   showVictoryModal st' = true /\ timerInterval st' = None /\
   gameHistory st' = take 50 (victoryEntry 5 "today" st :: gameHistory st)) /\
  (2%Z <> 2%Z ->
   st' = set_board (setCell (board st) 0 1
                      {| value := 2; isFixed := false |}) st).
Proof.
  intros st.
  apply (updateCell_last_digit_decides countStringify 5 "today" 0 1
           {| value := 0; isFixed := false |} 2 2 st).
  - apply is9x9_setCell. exact filledState_9x9.
  - lia.
  - lia.
  - reflexivity.
  - reflexivity.
  - reflexivity.
  - lia.
  - exact almostFilled_others.
  - lia.
Defined.

Lemma solutionCovers_setCell st r c cell :
  solutionCovers st ->
  solutionCovers (set_board (setCell (board st) r c cell) st).
Proof.
  intros Hcov r' c' Hsome. cbn [board solution set_board] in *.
  apply Hcov. destruct (get (board st) r' c') eqn:E; [eauto |].
  rewrite (get_setCell_None _ r c cell r' c' E) in Hsome.
  destruct Hsome. discriminate.
Qed.

(** One call of [useHint]: nothing, or one cell and one hint. *)
Lemma useHint_step idx st :
  solutionCovers st ->
  useHint idx st = st \/
  ((0 < hintsRemaining st)%Z /\
   hintsRemaining (useHint idx st) = (hintsRemaining st - 1)%Z /\
   S (length (emptyCells (useHint idx st))) = length (emptyCells st) /\
   solutionCovers (useHint idx st)).
Proof.
  intros Hcov. unfold useHint.
  destruct (Z.leb_spec (hintsRemaining st) 0) as [Hle|Hpos]; [auto |].
  destruct (emptyCells st) as [|q qs] eqn:Hcells; [auto |].
  destruct ((q :: qs) !! idx) as [[r c]|] eqn:Hp; [| auto].
  right. rewrite <- Hcells in Hp.
  assert (Hin : (r, c) ∈ emptyCells st)
    by (apply list_elem_of_lookup; eauto).
  pose proof Hin as Hin'.
  apply emptyCells_spec in Hin' as (Hr & Hc & cell & Hcell & Hf & Hv).
  destruct (Hcov r c) as [sv Hsv]; [eauto |].
  unfold reveal. cbn [fst snd]. rewrite Hcell, Hsv.
  split; [exact Hpos | split; [reflexivity | split]].
  - assert (Hempty : emptyCells
              (set_hintsRemaining
                 (hintsRemaining
                    (set_board (setCell (board st) r c
                                  {| value := sv; isFixed := true |}) st) - 1)
                 (set_board (setCell (board st) r c
                               {| value := sv; isFixed := true |}) st)) =
              List.filter (fun q => negb (bool_decide (q = (r, c))))
                          (emptyCells st)).
    { unfold emptyCells. rewrite <- filter_and.
      apply List.filter_ext. intros [r' c']. unfold isEmptyCell.
      cbn [fst snd board set_board set_hintsRemaining].
      destruct (decide ((r', c') = (r, c))) as [E|E].
      - inversion E; subst. rewrite get_setCell_same by eauto.
        rewrite bool_decide_eq_true_2 by reflexivity.
        simpl. rewrite andb_false_r. reflexivity.
      - rewrite get_setCell_other by exact E.
        rewrite bool_decide_eq_false_2 by exact E.
        simpl. rewrite andb_true_r. reflexivity. }
    rewrite Hempty, <- Hcells. apply filter_remove_length; [| exact Hin].
    apply NoDup_List_filter, NoDup_allCells.
  - intros r' c' Hsome.
    apply (solutionCovers_setCell st r c
             {| value := sv; isFixed := true |} Hcov r' c').
    exact Hsome.
Qed.

(** X23.  Hints stay within the budget.  In a session whose solution has
    a value wherever the board has a cell, after any sequence of calls of
    [useHint], whatever the draws, the number of cells that hints have
    filled is exactly the number of hints spent, and a hint budget that
    was not negative is not negative: at most [hintsRemaining] cells are
    ever revealed by hints. *)
Theorem useHint_within_budget (draws : list nat) (st : State) :
  solutionCovers st -> (0 <= hintsRemaining st)%Z ->
  let final := fold_left (fun s idx => useHint idx s) draws st in
  (0 <= hintsRemaining final)%Z /\
  (Z.of_nat (length (emptyCells st)) - Z.of_nat (length (emptyCells final)) =
   hintsRemaining st - hintsRemaining final)%Z /\
  length (emptyCells st) - length (emptyCells final) <=
    Z.to_nat (hintsRemaining st).
Proof.
  intros Hcov Hnn final. subst final.
  assert (Hmain : forall s, solutionCovers s -> (0 <= hintsRemaining s)%Z ->
            let final := fold_left (fun s idx => useHint idx s) draws s in
            (0 <= hintsRemaining final)%Z /\
            (Z.of_nat (length (emptyCells s)) -
             Z.of_nat (length (emptyCells final)) =
             hintsRemaining s - hintsRemaining final)%Z).
  { induction draws as [|idx draws IH]; intros s Hs Hh; cbn [fold_left].
    - split; [exact Hh | lia].
    - destruct (useHint_step idx s Hs) as [Heq|(Hpos & Hdec & Hlen & Hcov')].
      + rewrite Heq. apply IH; assumption.
      + destruct (IH (useHint idx s) Hcov') as [Hfin Hdiff]; [lia |].
        split; [exact Hfin |]. cbv zeta in Hdiff. lia. }
  destruct (Hmain st Hcov Hnn) as [Hfin Hdiff]. cbv zeta in Hdiff.
  split; [exact Hfin | split; [exact Hdiff | lia]].
Qed.

Lemma useHint_within_budget_witness :
  let final :=
    fold_left (fun s idx => useHint idx s) [2; 0; 7; 1] playingState in
  (0 <= hintsRemaining final)%Z /\
  (Z.of_nat (length (emptyCells playingState)) -
   Z.of_nat (length (emptyCells final)) =
   hintsRemaining playingState - hintsRemaining final)%Z /\
  length (emptyCells playingState) - length (emptyCells final) <=
    Z.to_nat (hintsRemaining playingState).
Proof.
  apply (useHint_within_budget [2; 0; 7; 1] playingState).
  - exact playingState_covered.
  - simpl. lia.
Defined.

(** ** The clock after a give-up *)

(** C8.  Giving up does not always halt the clock.  A game is started in
    a component created afresh, with the shuffles that leave 1..9 in
    order and the draws that sweep the grid: one interval runs, the one
    [timerInterval] refers to.  The history is opened, the pause button is
    used twice, and the history is closed: the resuming branches of
    [togglePause] and [toggleHistory] each start an interval without
    clearing, so two intervals run and [timerInterval] refers to the
    newer.  The player then asks to give up and confirms.  Every cell
    holds the solution's value and is fixed and the history is empty as
    it was, but [askGiveUp] has cleared the newer interval only: the older
    one still runs, and every second that passes adds one to
    [elapsedTime] in the given-up session. *)
Theorem confirmGiveUp_clock_still_runs :
  exists started k,
    startGame (fun _ => digits) sweepDraws 100 (initialState None) 0 =
      Some (started, k) /\
    let leaked :=
      toggleHistory (togglePause (togglePause (toggleHistory started))) in
    let gaveUp := confirmGiveUp (askGiveUp leaked) in
    timerInterval started = Some 1%positive /\
    activeTimers started = [1%positive] /\
    timerInterval leaked = Some 3%positive /\
    activeTimers leaked = [3%positive; 2%positive] /\
    hasGivenUp gaveUp = true /\
    board gaveUp =
      map (map (fun v => {| value := v; isFixed := true |}))
          (solution started) /\
    gameHistory gaveUp = [] /\ storage gaveUp = None /\
    timerInterval gaveUp = None /\
    activeTimers gaveUp = [2%positive] /\
    elapsedTime gaveUp = 0%Z /\
    elapsedTime (tick gaveUp) = 1%Z /\
    elapsedTime (tick (tick gaveUp)) = 2%Z.
Proof.
  eexists. eexists. split.
  - vm_compute. reflexivity.
  - vm_compute. repeat split.
Qed.
